(** * StudyBuddy front end: quiz form, quiz taking, chat and results logic

    A shallow embedding of the client-side logic of the StudyBuddy
    single-page application (React / TypeScript), and proofs about it.

    - [JS]            the JavaScript built-ins the handlers rely on
                      (strings of UTF-16 code units, [trim], [split],
                      [join], [includes], [parseInt], truthiness);
    - [Eff]           a small state / trace / exception monad in which the
                      async event handlers are written;
    - [QuizGenerator] src/components/dashboard/QuizGenerator.tsx;
    - [TakeQuiz]      the quiz-taking page (timer, answers, submission);
    - [Chat]          src/pages/ChatPage.tsx and the chat widget of
                      src/components/ChatbotFAB.tsx (same handlers);
    - [QuizResults]   src/pages/QuizResults.tsx. *)

From stdpp Require Import base numbers option list gmap strings pretty.
From Stdlib Require Import ZArith QArith.QArith_base Lia.

Local Open Scope Z_scope.

(* ===================================================================== *)
(** * JavaScript built-ins *)
(* ===================================================================== *)

Module JS.

(** A JavaScript string is a sequence of UTF-16 code units. *)
Abbreviation jsstring := (list N).

(** ASCII literals, for the string constants of the source. *)
Definition lit (s : string) : jsstring :=
  (fun a => Ascii.N_of_ascii a) <$> String.list_ascii_of_string s.

Global Arguments lit _ : simpl never.

(** [String(n)] / template interpolation of a non-negative integer. *)
Definition String_of_N (n : N) : jsstring := lit (pretty n).

Definition String_of_Z (z : Z) : jsstring := lit (pretty z).

Global Arguments String_of_N _ : simpl never.
Global Arguments String_of_Z _ : simpl never.

Definition LF : N := 10%N.
Definition CR : N := 13%N.
Definition COMMA : N := 44%N.

(** ECMAScript WhiteSpace and LineTerminator code points: what
    [String.prototype.trim] strips and what [parseInt] skips. *)
Definition is_whitespace (c : N) : bool :=
  ((9 <=? c) && (c <=? 13))%N        (* TAB LF VT FF CR *)
  || (c =? 32)%N                     (* SPACE *)
  || (c =? 160)%N                    (* NBSP *)
  || (c =? 5760)%N                   (* U+1680 *)
  || ((8192 <=? c) && (c <=? 8202))%N (* U+2000 .. U+200A *)
  || (c =? 8232)%N || (c =? 8233)%N  (* LS PS *)
  || (c =? 8239)%N || (c =? 8287)%N  (* U+202F U+205F *)
  || (c =? 12288)%N                  (* U+3000 *)
  || (c =? 65279)%N.                 (* U+FEFF *)

Fixpoint trimStart (s : jsstring) : jsstring :=
  match s with
  | [] => []
  | c :: s' => if is_whitespace c then trimStart s' else s
  end.

Definition trimEnd (s : jsstring) : jsstring := rev (trimStart (rev s)).

(** [s.trim()] *)
Definition trim (s : jsstring) : jsstring := trimEnd (trimStart s).

(** Truthiness of a string: [Boolean(s)], [!s], [s || d]. *)
Definition truthy_str (s : jsstring) : bool :=
  match s with [] => false | _ => true end.

Fixpoint startsWith (p s : jsstring) : bool :=
  match p, s with
  | [], _ => true
  | _ :: _, [] => false
  | a :: p', b :: s' => (a =? b)%N && startsWith p' s'
  end.

(** [s.includes(p)] *)
Fixpoint includes (p s : jsstring) : bool :=
  startsWith p s ||
  match s with
  | [] => false
  | _ :: s' => includes p s'
  end.

(** [s.split(/\r?\n/)]: [cur] is the segment being read, reversed. *)
Fixpoint split_lines_from (cur s : jsstring) : list jsstring :=
  match s with
  | [] => [rev cur]
  | c :: s' =>
      if (c =? LF)%N then rev cur :: split_lines_from [] s'
      else
        match s' with
        | d :: s'' =>
            if (c =? CR)%N && (d =? LF)%N
            then rev cur :: split_lines_from [] s''
            else split_lines_from (c :: cur) s'
        | [] => split_lines_from (c :: cur) s'
        end
  end.

Definition split_lines (s : jsstring) : list jsstring := split_lines_from [] s.

(** [s.split(",")] *)
Fixpoint split_comma_from (cur s : jsstring) : list jsstring :=
  match s with
  | [] => [rev cur]
  | c :: s' =>
      if (c =? COMMA)%N then rev cur :: split_comma_from [] s'
      else split_comma_from (c :: cur) s'
  end.

Definition split_comma (s : jsstring) : list jsstring := split_comma_from [] s.

(** [l.join(",")] *)
Fixpoint join_comma (l : list jsstring) : jsstring :=
  match l with
  | [] => []
  | [x] => x
  | x :: r => x ++ COMMA :: join_comma r
  end.

(** [Array.from(new Set(l))]: a Set keeps the first insertion of every
    value, in insertion order.  [seen] is the set built so far. *)
Fixpoint Set_from (seen l : list jsstring) : list jsstring :=
  match l with
  | [] => seen
  | x :: l' =>
      if bool_decide (x ∈ seen) then Set_from seen l'
      else Set_from (seen ++ [x]) l'
  end.

Definition Array_from_Set (l : list jsstring) : list jsstring := Set_from [] l.

(** [l.filter((_, i) => keep i)], from index [i] on. *)
Fixpoint filter_index {A} (keep : nat -> bool) (i : nat) (l : list A) : list A :=
  match l with
  | [] => []
  | x :: rest =>
      if keep i then x :: filter_index keep (S i) rest
      else filter_index keep (S i) rest
  end.

(** ** [parseInt(s)] with no radix argument

    [None] stands for NaN.  The mathematical integer is returned exactly;
    the double that JavaScript produces is its rounding, which lies on the
    same side of every integer bound below 2^53. *)

Definition digit_value (radix : Z) (c : N) : option Z :=
  let c := Z.of_N c in
  let v :=
    if (48 <=? c) && (c <=? 57) then Some (c - 48)
    else if (97 <=? c) && (c <=? 122) then Some (c - 97 + 10)
    else if (65 <=? c) && (c <=? 90) then Some (c - 65 + 10)
    else None in
  match v with
  | Some d => if d <? radix then Some d else None
  | None => None
  end.

(** Longest prefix of radix digits; [acc] is [None] until a digit is read. *)
Fixpoint parse_digits (radix : Z) (acc : option Z) (s : jsstring) : option Z :=
  match s with
  | [] => acc
  | c :: s' =>
      match digit_value radix c with
      | Some d => parse_digits radix (Some (radix * default 0 acc + d)) s'
      | None => acc
      end
  end.

Definition parseInt (input : jsstring) : option Z :=
  let s := trimStart input in
  let '(sign, s) :=
    match s with
    | 45%N :: r => (-1, r)          (* "-" *)
    | 43%N :: r => (1, r)           (* "+" *)
    | _ => (1, s)
    end in
  let '(radix, s) :=
    match s with
    | 48%N :: 120%N :: r => (16, r)  (* "0x" *)
    | 48%N :: 88%N :: r => (16, r)   (* "0X" *)
    | _ => (10, s)
    end in
  (fun m => sign * m) <$> parse_digits radix None s.

(** [x || d] for a number that may be NaN: NaN and 0 are falsy. *)
Definition num_or (x : option Z) (d : Z) : Z :=
  match x with
  | Some v => if v =? 0 then d else v
  | None => d
  end.

(** ** Untyped values, as read from a JSON response body

    Numbers are the integers; a JSON body carries no NaN. *)
Inductive jsval : Type :=
  | VUndefined
  | VNull
  | VBool (b : bool)
  | VNum (z : Z)
  | VStr (s : jsstring).

(** [Boolean(v)] *)
Definition truthy (v : jsval) : bool :=
  match v with
  | VUndefined | VNull => false
  | VBool b => b
  | VNum z => negb (z =? 0)
  | VStr s => truthy_str s
  end.

(** [a || b] *)
Definition or_else (a b : jsval) : jsval := if truthy a then a else b.

(** [String(v)], as a template literal interpolates a value. *)
Definition ToString (v : jsval) : jsstring :=
  match v with
  | VUndefined => lit "undefined"
  | VNull => lit "null"
  | VBool true => lit "true"
  | VBool false => lit "false"
  | VNum z => String_of_Z z
  | VStr s => s
  end.

End JS.


(* ===================================================================== *)
(** * Handlers as computations over component state and a trace *)
(* ===================================================================== *)

(** An event handler reads and updates the state of its component, emits
    observable events (requests, toasts, log lines, navigation) and may
    throw.  An awaited call to the backend is answered by an oracle that
    sees the trace so far, so a handler is proved correct for every
    behaviour of the backend. *)

Module Eff.

Section Monad.
Context {St Ev Ex : Type}.

Inductive completion (A : Type) : Type :=
  | Normal (a : A)
  | Thrown (e : Ex).
Global Arguments Normal {A} a.
Global Arguments Thrown {A} e.

Definition M (A : Type) : Type :=
  St -> list Ev -> completion A * St * list Ev.

Definition ret {A} (a : A) : M A := fun s tr => (Normal a, s, tr).

Definition bind {A B} (m : M A) (k : A -> M B) : M B :=
  fun s tr =>
    match m s tr with
    | (Normal a, s', tr') => k a s' tr'
    | (Thrown e, s', tr') => (Thrown e, s', tr')
    end.

(** [throw e] *)
Definition throw {A} (e : Ex) : M A := fun s tr => (Thrown e, s, tr).

(** the state the handler closed over / the current state *)
Definition get : M St := fun s tr => (Normal s, s, tr).

(** [setX(prev => f prev)] *)
Definition modify (f : St -> St) : M unit := fun s tr => (Normal tt, f s, tr).

Definition emit (ev : Ev) : M unit := fun s tr => (Normal tt, s, tr ++ [ev]).

(** [await call]: the request is recorded, then the promise settles. *)
Definition await {A} (ev : Ev) (settle : list Ev -> Ex + A) : M A :=
  fun s tr =>
    match settle tr with
    | inr a => (Normal a, s, tr ++ [ev])
    | inl e => (Thrown e, s, tr ++ [ev])
    end.

(** [try { body } catch (e) { handler e }] *)
Definition try_catch {A} (body : M A) (handler : Ex -> M A) : M A :=
  fun s tr =>
    match body s tr with
    | (Normal a, s', tr') => (Normal a, s', tr')
    | (Thrown e, s', tr') => handler e s' tr'
    end.

(** [try { body } finally { fin }] *)
Definition try_finally {A} (body : M A) (fin : M unit) : M A :=
  fun s tr =>
    match body s tr with
    | (c, s', tr') =>
        match fin s' tr' with
        | (Normal _, s'', tr'') => (c, s'', tr'')
        | (Thrown e, s'', tr'') => (Thrown e, s'', tr'')
        end
    end.

(** Running a handler from a state, with an empty trace. *)
Definition run {A} (m : M A) (s : St) : completion A * St * list Ev := m s [].
Definition state_after {A} (m : M A) (s : St) : St := (run m s).1.2.
Definition trace_of {A} (m : M A) (s : St) : list Ev := (run m s).2.
End Monad.

Global Arguments M : clear implicits.

Module Notations.
Notation "x <- m ;; k" := (bind m (fun x => k))
  (at level 100, m at next level, right associativity,
   format "'[v' x  <-  m  ;;  '/' k ']'").
Notation "m ;;; k" := (bind m (fun _ => k))
  (at level 100, right associativity,
   format "'[v' m  ;;;  '/' k ']'").
End Notations.

End Eff.

Import JS.
Import Eff Eff.Notations.

(** A thrown value: an [Error] or the rejection of a request; handlers
    only ever read its [message]. *)
Record jserror : Type := Error { message : jsval }.

(** A toast notification. *)
Record Toast : Type := mkToast {
  title : jsstring;
  description : option jsstring;
  destructive : bool              (* variant: "destructive" *)
}.

(** A value shown as a toast description; nothing is shown for
    [undefined] and [null]. *)
Definition describe (v : jsval) : option jsstring :=
  match v with
  | VUndefined | VNull => None
  | _ => Some (ToString v)
  end.

(* ===================================================================== *)
(** * The quiz generation form (QuizGenerator.tsx) *)
(* ===================================================================== *)

Module QuizGenerator.

Record File : Type := mkFile {
  file_name : jsstring;
  file_type : jsstring;
  file_size : N
}.

(** [questionTypes]: the keys in insertion order are mcq, tf, short, long. *)
Record QuestionTypes : Type := mkTypes {
  mcq : bool;
  tf : bool;
  short : bool;
  long : bool
}.

Record State : Type := mkState {
  questionCount : Z;
  questionTypes : QuestionTypes;
  difficulty : jsstring;
  urlsText : jsstring;
  urlsList : list jsstring;
  files : list File;
  loading : bool
}.

(** The [useState] initial values. *)
Definition initial : State :=
  {| questionCount := 15;
     questionTypes := {| mcq := true; tf := true; short := false; long := false |};
     difficulty := lit "medium";
     urlsText := [];
     urlsList := [];
     files := [];
     loading := false |}.

Definition setQuestionCount (n : Z) (s : State) : State :=
  mkState n (questionTypes s) (difficulty s) (urlsText s) (urlsList s) (files s) (loading s).
Definition setUrlsText (t : jsstring) (s : State) : State :=
  mkState (questionCount s) (questionTypes s) (difficulty s) t (urlsList s) (files s) (loading s).
Definition setUrlsList (f : list jsstring -> list jsstring) (s : State) : State :=
  mkState (questionCount s) (questionTypes s) (difficulty s) (urlsText s) (f (urlsList s)) (files s) (loading s).
Definition setFiles (f : list File -> list File) (s : State) : State :=
  mkState (questionCount s) (questionTypes s) (difficulty s) (urlsText s) (urlsList s) (f (files s)) (loading s).
Definition setLoading (b : bool) (s : State) : State :=
  mkState (questionCount s) (questionTypes s) (difficulty s) (urlsText s) (urlsList s) (files s) b.

Definition maxQuestions : Z := 50.

Definition removeFileAt (idx : nat) (s : State) : State :=
  setFiles (fun prev => filter_index (fun i => negb (i =? idx)%nat) 0 prev) s.
Definition removeUrlAt (idx : nat) (s : State) : State :=
  setUrlsList (fun prev => filter_index (fun i => negb (i =? idx)%nat) 0 prev) s.

(** The "Clear" button: Reset form. *)
Definition resetForm (s : State) : State :=
  mkState 15 {| mcq := true; tf := true; short := false; long := false |}
          (lit "medium") [] [] [] (loading s).

(** The body of a generation request: the JSON payload, or the fields of
    the FormData when files are sent. *)
Record Payload : Type := mkPayload {
  p_files : list File;
  p_urls : list jsstring;
  p_num_questions : Z;
  p_question_types : list jsstring;
  p_difficulty : jsstring;
  p_test_name : jsstring
}.

(** [response.data] of a generation response; an absent field reads as
    [VUndefined]. *)
Record ResponseData : Type := mkData {
  test_id : jsval;
  quiz_id : jsval;
  id : jsval
}.

(** The axios response; [data] is [None] when the body is null. *)
Record Response : Type := mkResponse { data : option ResponseData }.

Inductive Event : Type :=
  | EToast (t : Toast)
  | EGenerateQuiz (payload : Payload) (multipart : bool)  (* the network call *)
  | ENavigate (path : jsstring)
  | EConsoleError (label : jsstring) (err : jserror).

Definition is_request (ev : Event) : bool :=
  match ev with EGenerateQuiz _ _ => true | _ => false end.

Definition is_validation_toast (ev : Event) : bool :=
  match ev with EToast t => destructive t | _ => false end.

Definition is_navigation (ev : Event) : bool :=
  match ev with ENavigate _ => true | _ => false end.

(** [parseUrlsFromText]: split on newlines, trim, drop the empty lines. *)
Definition parseUrlsFromText (text : jsstring) : list jsstring :=
  filter (fun u => truthy_str u = true) (trim <$> split_lines text).

Section World.
(** [URL_constructs s]: the platform's [new URL(s)] does not throw. *)
Variable URL_constructs : jsstring -> bool.
(** How the backend settles a generation request, given what has
    happened so far. *)
Variable generateQuiz : list Event -> Payload -> bool -> jserror + Response.
(** [new Date().toLocaleString()] *)
Variable toLocaleString : list Event -> jsstring.

Definition validateUrl (u : jsstring) : bool :=
  URL_constructs (if includes (lit "://") u then u else lit "http://" ++ u).

Abbreviation H := (M State Event jserror).

Definition toast (t : Toast) : H unit := emit (EToast t).

Definition addUrlsToList : H unit :=
  st <- get ;;
  let parsed := parseUrlsFromText (urlsText st) in
  let valid := filter (fun u => validateUrl u = true) parsed in
  let invalid := filter (fun p => negb (validateUrl p) = true) parsed in
  (if (0 <? length invalid)%nat then
     toast {| title := lit "Some URLs invalid";
              description := Some (String_of_N (N.of_nat (length invalid))
                                   ++ lit " url(s) were ignored");
              destructive := true |}
   else ret tt) ;;;
  (* dedupe *)
  modify (setUrlsList (fun prev => Array_from_Set (prev ++ valid))) ;;;
  modify (setUrlsText []) ;;;
  if (0 <? length valid)%nat then
    toast {| title := lit "URLs Added";
             description := Some (String_of_N (N.of_nat (length valid))
                                  ++ lit " URL(s) added successfully");
             destructive := false |}
  else ret tt.

(** The [onChange] of the question-count input, on [e.target.value]. *)
Definition onQuestionCountChange (value : jsstring) : H unit :=
  modify (setQuestionCount
            (Z.min maxQuestions (Z.max 1 (num_or (parseInt value) 1)))).

(** [Object.keys(questionTypes).filter(k => questionTypes[k])] *)
Definition selectedTypes (q : QuestionTypes) : list jsstring :=
  fst <$> filter (fun kv => kv.2 = true)
    [(lit "mcq", mcq q); (lit "tf", tf q); (lit "short", short q); (lit "long", long q)].

(** [typeMapping[type] || type] *)
Definition typeMapping (t : jsstring) : jsstring :=
  if bool_decide (t = lit "mcq") then lit "mcq"
  else if bool_decide (t = lit "tf") then lit "true_false"
  else if bool_decide (t = lit "short") then lit "short_answer"
  else if bool_decide (t = lit "long") then lit "long_answer"
  else t.

(** [response?.data?.test_id || response?.data?.quiz_id || response?.data?.id] *)
Definition extract_testId (r : Response) : jsval :=
  match data r with
  | Some d => or_else (or_else (test_id d) (quiz_id d)) (id d)
  | None => VUndefined
  end.

Definition generation_failed (err : jserror) : Toast :=
  {| title := lit "Generation failed";
     description :=
       Some (ToString (or_else (message err)
                               (VStr (lit "Please try again or check your inputs."))));
     destructive := true |}.

(** [handleGenerateQuiz].  The early [return] inside the [try] is the
    first branch of a conditional whose other branch is the rest of the
    block; the [finally] runs on every way out of the [try]. *)
Definition handleGenerateQuiz : H unit :=
  st <- get ;;
  (* require at least one source *)
  if (length (urlsList st) =? 0)%nat && (length (files st) =? 0)%nat then
    toast {| title := lit "Add content";
             description := Some (lit "Please paste links or upload at least one PDF.");
             destructive := true |}
  else
    modify (setLoading true) ;;;
    try_finally
      (try_catch
         (let selected := selectedTypes (questionTypes st) in
          if (length selected =? 0)%nat then
            toast {| title := lit "Select question types";
                     description := Some (lit "Please select at least one question type.");
                     destructive := true |} ;;;
            modify (setLoading false)
          else
            let backendTypes := typeMapping <$> selected in
            response <-
              (if (0 <? length (files st))%nat then
                 (* multipart/form-data *)
                 name <- (fun s tr => (Normal (toLocaleString tr), s, tr)) ;;
                 let fd := mkPayload (files st) (urlsList st) (questionCount st)
                             backendTypes (difficulty st) (lit "Quiz - " ++ name) in
                 await (EGenerateQuiz fd true) (fun tr => generateQuiz tr fd true)
               else
                 (* JSON body *)
                 name <- (fun s tr => (Normal (toLocaleString tr), s, tr)) ;;
                 let payload := mkPayload [] (urlsList st) (questionCount st)
                                  backendTypes (difficulty st) (lit "Quiz - " ++ name) in
                 await (EGenerateQuiz payload false)
                       (fun tr => generateQuiz tr payload false)) ;;
            let testId := extract_testId response in
            if truthy testId then
              toast {| title := lit "Quiz Generated!";
                       description := Some (lit "Starting your quiz now...");
                       destructive := false |} ;;;
              (* Clear the form *)
              modify (setUrlsList (fun _ => [])) ;;;
              modify (setFiles (fun _ => [])) ;;;
              modify (setUrlsText []) ;;;
              (* Navigate to the quiz *)
              emit (ENavigate (lit "/take-quiz/" ++ ToString testId))
            else
              throw (Error (VStr (lit "No test ID received from server"))))
         (fun err =>
            emit (EConsoleError (lit "Generate quiz error:") err) ;;;
            toast (generation_failed err)))
      (modify (setLoading false)).

Definition hasContent (s : State) : bool :=
  (0 <? length (urlsList s))%nat || (0 <? length (files s))%nat.
Definition hasQuestionTypes (s : State) : bool :=
  let q := questionTypes s in mcq q || tf q || short q || long q.
Definition canGenerate (s : State) : bool :=
  hasContent s && hasQuestionTypes s && negb (loading s).

End World.

End QuizGenerator.

(* ===================================================================== *)
(** * The quiz-taking page (TakeQuiz) *)
(* ===================================================================== *)

Module TakeQuiz.

Inductive QuestionType : Type :=
  | mcq | true_false | short_answer | long_answer | fill_blanks | multi_select.

Record Question : Type := mkQuestion {
  question : jsstring;
  type : QuestionType;
  options : option (list (jsstring * jsstring))   (* key, text; in key order *)
}.

Record TestData : Type := mkTest {
  test_name : jsstring;
  test_data : list Question;
  estimated_time : Z                               (* minutes *)
}.

(** The [useState] cells of the component.  [answers] is the object
    [Record<number, string>]; [timeRemaining] is [null] or a number. *)
Record State : Type := mkState {
  currentQuestion : Z;
  answers : gmap Z jsstring;
  timeRemaining : option Z;
  isSubmitted : bool;
  flaggedQuestions : gset Z;
  showSubmitConfirm : bool
}.

Definition initial : State :=
  {| currentQuestion := 0; answers := ∅; timeRemaining := None;
     isSubmitted := false; flaggedQuestions := ∅; showSubmitConfirm := false |}.

Definition setCurrentQuestion (i : Z) (s : State) : State :=
  mkState i (answers s) (timeRemaining s) (isSubmitted s) (flaggedQuestions s) (showSubmitConfirm s).
Definition setAnswers (f : gmap Z jsstring -> gmap Z jsstring) (s : State) : State :=
  mkState (currentQuestion s) (f (answers s)) (timeRemaining s) (isSubmitted s) (flaggedQuestions s) (showSubmitConfirm s).
Definition setTimeRemaining (t : option Z) (s : State) : State :=
  mkState (currentQuestion s) (answers s) t (isSubmitted s) (flaggedQuestions s) (showSubmitConfirm s).
Definition setIsSubmitted (b : bool) (s : State) : State :=
  mkState (currentQuestion s) (answers s) (timeRemaining s) b (flaggedQuestions s) (showSubmitConfirm s).
Definition setFlaggedQuestions (f : gset Z -> gset Z) (s : State) : State :=
  mkState (currentQuestion s) (answers s) (timeRemaining s) (isSubmitted s) (f (flaggedQuestions s)) (showSubmitConfirm s).
Definition setShowSubmitConfirm (b : bool) (s : State) : State :=
  mkState (currentQuestion s) (answers s) (timeRemaining s) (isSubmitted s) (flaggedQuestions s) b.

Inductive Event : Type :=
  | EToast (t : Toast)
  | ESubmit (submitted : gmap Z jsstring)   (* submitMutation.mutate({ answers }) *)
  | ENavigate (path : jsstring).

Definition is_submit (ev : Event) : bool :=
  match ev with ESubmit _ => true | _ => false end.

(** ** The handlers, as functions of the render they were created in

    Every render creates its handlers anew; a handler reads the state
    cells of that render.  [setAnswers(prev => ...)] acts on the current
    cell. *)

(** [answers[i] || ""] *)
Definition answer_or_empty (a : gmap Z jsstring) (i : Z) : jsstring :=
  match a !! i with
  | Some v => v
  | None => []
  end.

(** [answers[i] ? answers[i].split(",") : []] *)
Definition currentSelections (render : State) : list jsstring :=
  let currentAnswer := answer_or_empty (answers render) (currentQuestion render) in
  if truthy_str currentAnswer then split_comma currentAnswer else [].

(** the [checked] property of the checkbox of option [key] *)
Definition is_checked (render : State) (key : jsstring) : bool :=
  bool_decide (key ∈ currentSelections render).

Definition handleAnswerChange (render : State) (value : jsstring) (s : State) : State :=
  setAnswers (fun prev => <[currentQuestion render := value]> prev) s.

Definition handleMultiSelectChange (render : State) (option : jsstring) (checked : bool)
    (s : State) : State :=
  let newSelections :=
    if checked then currentSelections render ++ [option]
    else filter (fun sel => sel ≠ option) (currentSelections render) in
  setAnswers (fun prev => <[currentQuestion render := join_comma newSelections]> prev) s.

Definition goToQuestion (td : TestData) (index : Z) (s : State) : State :=
  if (0 <=? index) && (index <? Z.of_nat (length (test_data td)))
  then setCurrentQuestion index s else s.

Definition toggleFlag (index : Z) (s : State) : State :=
  setFlaggedQuestions
    (fun prev => if bool_decide (index ∈ prev) then prev ∖ {[index]} else prev ∪ {[index]}) s.

(** [handleSubmit] of a render: sends the answers of that render. *)
Definition handleSubmit (render : State) : list Event := [ESubmit (answers render)].

Definition times_up : Toast :=
  {| title := lit "Time's up!";
     description := Some (lit "Your test is being submitted automatically.");
     destructive := true |}.

(** [handleAutoSubmit] of a render. *)
Definition handleAutoSubmit (render : State) : list Event :=
  if negb (isSubmitted render) then EToast times_up :: handleSubmit render else [].

(** ** Renders and effects

    [timer] is the interval set by the countdown effect, if one is live,
    together with the render whose [handleAutoSubmit] its callback calls:
    the callback is created inside the effect, so it closes over the
    handlers of the render in which the effect ran. *)
Record Component : Type := mkComponent {
  st : State;
  timer : option State
}.

(** The countdown effect, dependencies [[timeRemaining, isSubmitted]]:
    when a render changes neither, the interval is left alone; otherwise
    the old one is cleared and the effect body runs in the new render. *)
Definition countdown_effect (prev cur : State) (live : option State) : option State :=
  if bool_decide (timeRemaining prev = timeRemaining cur ∧ isSubmitted prev = isSubmitted cur)
  then live
  else
    match timeRemaining cur with
    | None => None
    | Some t => if (t <=? 0) || isSubmitted cur then None else Some cur
    end.

(** A render after the state went from [prev] to [cur]. *)
Definition commit (prev cur : State) (live : option State) : Component :=
  {| st := cur; timer := countdown_effect prev cur live |}.

(** Mounting with the test loaded.  The first render runs both effects:
    the countdown effect returns at once ([timeRemaining] is null) and the
    initialisation effect sets the clock when [estimated_time] is truthy;
    that state change renders again. *)
Definition mount (td : TestData) : Component :=
  let first := initial in
  let second :=
    if negb (estimated_time td =? 0) && bool_decide (timeRemaining first = None)
    then setTimeRemaining (Some (estimated_time td * 60)) first   (* Convert to seconds *)
    else first in
  commit first second None.

(** What can happen to the mounted page. *)
Inductive Action : Type :=
  | Tick                                             (* the interval fires *)
  | AnswerChange (value : jsstring)
  | MultiSelectChange (option : jsstring) (checked : bool)
  | GoToQuestion (index : Z)
  | ToggleFlag (index : Z)
  | ShowSubmitConfirm (b : bool)
  | ClickSubmit                                      (* "Submit Quiz" in the dialog *)
  | SubmitSucceeded (submission_id : jsstring)       (* onSuccess *)
  | SubmitFailed (err : jserror).                    (* onError *)

(** The interval callback: [setTimeRemaining(prev => ...)], whose updater
    calls the [handleAutoSubmit] the callback closed over. *)
Definition on_interval (scope : State) (s : State) : State * list Event :=
  match timeRemaining s with
  | Some prev =>
      if prev <=? 1 then (setTimeRemaining (Some 0) s, handleAutoSubmit scope)
      else (setTimeRemaining (Some (prev - 1)) s, [])
  | None => (setTimeRemaining (Some 0) s, handleAutoSubmit scope)
  end.

Definition submit_error (err : jserror) : Toast :=
  {| title := lit "Error submitting test";
     description :=
       Some (ToString (or_else (message err)
                               (VStr (lit "Failed to submit test. Please try again."))));
     destructive := true |}.

Definition step (td : TestData) (c : Component) (a : Action) : Component * list Event :=
  let s := st c in
  match a with
  | Tick =>
      match timer c with
      | Some scope =>
          let '(s', evs) := on_interval scope s in (commit s s' (timer c), evs)
      | None => (c, [])
      end
  | AnswerChange v => (commit s (handleAnswerChange s v s) (timer c), [])
  | MultiSelectChange o b => (commit s (handleMultiSelectChange s o b s) (timer c), [])
  | GoToQuestion i => (commit s (goToQuestion td i s) (timer c), [])
  | ToggleFlag i => (commit s (toggleFlag i s) (timer c), [])
  | ShowSubmitConfirm b => (commit s (setShowSubmitConfirm b s) (timer c), [])
  | ClickSubmit => (c, handleSubmit s)
  | SubmitSucceeded sid =>
      (commit s (setIsSubmitted true s) (timer c),
       [EToast {| title := lit "Test submitted successfully!";
                  description := None; destructive := false |};
        ENavigate (lit "/quiz-results/" ++ sid)])
  | SubmitFailed err => (c, [EToast (submit_error err)])
  end.

Fixpoint run (td : TestData) (c : Component) (acts : list Action) : Component * list Event :=
  match acts with
  | [] => (c, [])
  | a :: rest =>
      let '(c1, e1) := step td c a in
      let '(c2, e2) := run td c1 rest in
      (c2, e1 ++ e2)
  end.

Definition submissions (evs : list Event) : list (gmap Z jsstring) :=
  omap (fun ev => match ev with ESubmit a => Some a | _ => None end) evs.

End TakeQuiz.

(* ===================================================================== *)
(** * The chat surfaces (ChatPage.tsx, ChatbotFAB.tsx) *)
(* ===================================================================== *)

(** [ChatPage] and [ContextAwareChatbot] define [updateChatContext],
    [sendMessage] and [clearChat] with the same text; one embedding
    serves both. *)

Module Chat.

Inductive Sender : Type := user | ai.

Record ChatMessage : Type := mkMessage {
  msg_id : jsstring;
  msg_type : Sender;
  msg_text : jsstring;
  msg_timestamp : jsstring;
  msg_context_type : option jsstring
}.

(** [folder_id] is [None] when the object has no such key. *)
Record ChatContext : Type := mkContext {
  folder_id : option jsstring;
  selected_link_ids : list jsstring;
  selected_test_ids : list jsstring;
  selected_submission_ids : list jsstring
}.

(** [Object.keys(context).length] *)
Definition Object_keys_length (c : ChatContext) : nat :=
  (match folder_id c with Some _ => 1 | None => 0 end) + 3.

Record State : Type := mkState {
  messages : list ChatMessage;
  inputMessage : jsstring;
  isLoading : bool;
  sessionId : jsstring;
  context : ChatContext
}.

Definition setMessages (f : list ChatMessage -> list ChatMessage) (s : State) : State :=
  mkState (f (messages s)) (inputMessage s) (isLoading s) (sessionId s) (context s).
Definition setInputMessage (t : jsstring) (s : State) : State :=
  mkState (messages s) t (isLoading s) (sessionId s) (context s).
Definition setIsLoading (b : bool) (s : State) : State :=
  mkState (messages s) (inputMessage s) b (sessionId s) (context s).
Definition setContext (c : ChatContext) (s : State) : State :=
  mkState (messages s) (inputMessage s) (isLoading s) (sessionId s) c.

(** The calls of lib/api.ts used here; the header [x-session-id] is sent
    when the session id is truthy. *)
Inductive Request : Type :=
  | PostUpdateContext (body : ChatContext) (x_session_id : option jsstring)
  | PostMessage (text : jsstring) (x_session_id : option jsstring)
  | PostClear (x_session_id : option jsstring).

(** [res.data] of /api/chat/message *)
Record Reply : Type := mkReply {
  response : jsstring;
  timestamp : jsstring;
  context_type : option jsstring
}.

Inductive Event : Type :=
  | ERequest (r : Request)
  | EConsoleError (label : jsstring) (err : jserror).

Definition is_send (ev : Event) : bool :=
  match ev with ERequest (PostMessage _ _) => true | _ => false end.
Definition is_context_push (ev : Event) : bool :=
  match ev with ERequest (PostUpdateContext _ _) => true | _ => false end.
Definition is_clear (ev : Event) : bool :=
  match ev with ERequest (PostClear _) => true | _ => false end.
Definition is_request (ev : Event) : bool :=
  match ev with ERequest _ => true | _ => false end.

Definition header (sessionId : jsstring) : option jsstring :=
  if truthy_str sessionId then Some sessionId else None.

Definition error_text : jsstring :=
  lit "Sorry, I encountered an error. Please try again.".

Section World.
(** How the backend settles a request given what has happened so far:
    a rejection, or [res.data] ([None]: no reply object in the body). *)
Variable post : list Event -> Request -> jserror + option Reply.
(** [Date.now()] and [new Date().toISOString()] *)
Variable Date_now : list Event -> N.
Variable toISOString : list Event -> jsstring.

Abbreviation H := (M State Event jserror).

Definition now : H N := fun s tr => (Normal (Date_now tr), s, tr).
Definition iso_now : H jsstring := fun s tr => (Normal (toISOString tr), s, tr).
Definition console_error (label : jsstring) (err : jserror) : H unit :=
  emit (EConsoleError label err).

(** lib/api.ts: each call logs and rethrows. *)
Definition api_call (label : string) (r : Request) : H (option Reply) :=
  try_catch
    (await (ERequest r) (fun tr => post tr r))
    (fun error => console_error (lit label) error ;;; throw error).

Definition api_updateChatContext (c : ChatContext) (sessionId : jsstring) :=
  api_call "Error updating chat context:" (PostUpdateContext c (header sessionId)).
Definition api_sendChatMessage (text : jsstring) (sessionId : jsstring) :=
  api_call "Error sending chat message:" (PostMessage text (header sessionId)).
Definition api_clearChatHistory (sessionId : jsstring) :=
  api_call "Error clearing chat history:" (PostClear (header sessionId)).

Definition updateChatContext (render : State) (newContext : ChatContext) : H unit :=
  try_catch
    (api_updateChatContext newContext (sessionId render) ;;;
     modify (setContext newContext))
    (fun error => console_error (lit "Error updating chat context:") error).

Definition sendMessage : H unit :=
  st <- get ;;
  if negb (truthy_str (trim (inputMessage st))) || isLoading st then ret tt
  else
    t <- now ;;
    iso <- iso_now ;;
    let userMessage :=
      {| msg_id := lit "user-" ++ String_of_N t; msg_type := user;
         msg_text := trim (inputMessage st); msg_timestamp := iso;
         msg_context_type := None |} in
    modify (setMessages (fun prev => prev ++ [userMessage])) ;;;
    modify (setInputMessage []) ;;;
    modify (setIsLoading true) ;;;
    try_finally
      (try_catch
         ((* Initialize or update context before sending message *)
          (if (0 <? Object_keys_length (context st))%nat
           then updateChatContext st (context st) else ret tt) ;;;
          reply <- api_sendChatMessage (msg_text userMessage) (sessionId st) ;;
          match reply with
          | Some r =>
              t' <- now ;;
              let aiMessage :=
                {| msg_id := lit "ai-" ++ String_of_N t'; msg_type := ai;
                   msg_text := response r; msg_timestamp := timestamp r;
                   msg_context_type := context_type r |} in
              modify (setMessages (fun prev => prev ++ [aiMessage]))
          | None =>
              (* reading [response.response] of no object *)
              throw (Error (VStr (lit "Cannot read properties of undefined")))
          end)
         (fun error =>
            console_error (lit "Error sending message:") error ;;;
            t' <- now ;;
            iso' <- iso_now ;;
            let errorMessage :=
              {| msg_id := lit "error-" ++ String_of_N t'; msg_type := ai;
                 msg_text := error_text; msg_timestamp := iso';
                 msg_context_type := None |} in
            modify (setMessages (fun prev => prev ++ [errorMessage]))))
      (modify (setIsLoading false)).

Definition clearChat : H unit :=
  st <- get ;;
  try_catch
    (api_clearChatHistory (sessionId st) ;;;
     modify (setMessages (fun _ => [])))
    (fun error => console_error (lit "Error clearing chat:") error).

End World.

End Chat.

(* ===================================================================== *)
(** * The results page (QuizResults.tsx) *)
(* ===================================================================== *)

Module QuizResults.

Record QuestionResult : Type := mkResult {
  question_index : Z;
  type : jsstring;
  user_answer : jsstring;
  user_score : option Z;          (* number, or absent *)
  correct_answer : jsval          (* any *)
}.

Record State : Type := mkState {
  submissionId : jsstring;
  questions_with_answers : list QuestionResult;
  selfScores : gmap Z Z            (* the buffered self-scores *)
}.

Definition setSelfScores (f : gmap Z Z -> gmap Z Z) (s : State) : State :=
  mkState (submissionId s) (questions_with_answers s) (f (selfScores s)).

Inductive Event : Type :=
  | EToast (t : Toast)
  | EUpdateScores (submission : jsstring) (scores : gmap Z Z).
      (* POST /api/submissions/{id}/update-scores, body { scores } *)

Definition is_request (ev : Event) : bool :=
  match ev with EUpdateScores _ _ => true | _ => false end.
Definition is_error_toast (ev : Event) : bool :=
  match ev with EToast t => destructive t | _ => false end.

(** [x === y] between the string [user_answer] and [correct_answer] *)
Definition strict_eq (x : jsstring) (y : jsval) : bool :=
  match y with
  | VStr s => bool_decide (x = s)
  | _ => false
  end.

(** [a || b] on numbers that may be absent; 0 is falsy. *)
Definition or_score (a : option Z) (b : Z) : Z := num_or a b.

Definition is_objective (q : QuestionResult) : bool :=
  bool_decide (type q = lit "mcq") || bool_decide (type q = lit "true_false").

(** [q.user_score || selfScores[index] || 0], as the statistics read it *)
Definition effective_score (scores : gmap Z Z) (index : Z) (q : QuestionResult) : Z :=
  or_score (user_score q) (or_score (scores !! index) 0).

(** [selfScores[index] || question.user_score || 0], the slider value *)
Definition slider_value (scores : gmap Z Z) (index : Z) (q : QuestionResult) : Z :=
  or_score (scores !! index) (or_score (user_score q) 0).

Record Totals : Type := mkTotals {
  totalScore : Z;
  scoredQuestions : Z;
  correctAnswers : Z
}.

(** One iteration of [questions.forEach((q, index) => ...)]. *)
Definition tally (scores : gmap Z Z) (acc : Totals) (index : Z) (q : QuestionResult) : Totals :=
  if is_objective q then
    if strict_eq (user_answer q) (correct_answer q)
    then mkTotals (totalScore acc + 100) (scoredQuestions acc + 1) (correctAnswers acc + 1)
    else mkTotals (totalScore acc) (scoredQuestions acc + 1) (correctAnswers acc)
  else
    let score := effective_score scores index q in
    if 0 <? score
    then mkTotals (totalScore acc + score) (scoredQuestions acc + 1) (correctAnswers acc)
    else acc.

Fixpoint forEach (scores : gmap Z Z) (acc : Totals) (index : Z) (qs : list QuestionResult)
    : Totals :=
  match qs with
  | [] => acc
  | q :: rest => forEach scores (tally scores acc index q) (index + 1) rest
  end.

Record Statistics : Type := mkStats {
  totalQuestions : nat;
  answered : nat;
  stat_correctAnswers : Z;
  averageScore : Q;               (* the exact quotient *)
  stat_scoredQuestions : Z
}.

Definition statistics (s : State) : Statistics :=
  let questions := questions_with_answers s in
  let t := forEach (selfScores s) (mkTotals 0 0 0) 0 questions in
  {| totalQuestions := length questions;
     answered :=
       length (filter (fun q => truthy_str (user_answer q) = true
                                ∧ trim (user_answer q) ≠ []) questions);
     stat_correctAnswers := correctAnswers t;
     averageScore :=
       if 0 <? scoredQuestions t
       then Qmake (totalScore t) (Z.to_pos (scoredQuestions t)) else 0%Q;
     stat_scoredQuestions := scoredQuestions t |}.

Definition handleScoreChange (questionIndex score : Z) (s : State) : State :=
  setSelfScores (fun prev => <[questionIndex := score]> prev) s.

Section World.
(** How the request settles: a network failure, or [response.ok]. *)
Variable fetch_update_scores : list Event -> jsstring -> gmap Z Z -> jserror + bool.

Abbreviation H := (M State Event jserror).

Definition toast (t : Toast) : H unit := emit (EToast t).

(** [updateScoresMutation.mutate(scores)] with its callbacks *)
Definition updateScoresMutation (render : State) (scores : gmap Z Z) : H unit :=
  try_catch
    (ok <- await (EUpdateScores (submissionId render) scores)
                 (fun tr => fetch_update_scores tr (submissionId render) scores) ;;
     if ok : bool then
       toast {| title := lit "Self-assessment scores updated successfully!";
                description := None; destructive := false |}
     else throw (Error (VStr (lit "Failed to update scores"))))
    (fun error =>
       toast {| title := lit "Error updating scores";
                description := describe (message error);
                destructive := true |}).

Definition saveScores : H unit :=
  st <- get ;;
  if (size (selfScores st) =? 0)%nat then
    toast {| title := lit "No scores to save";
             description := Some (lit "Please rate some answers first.");
             destructive := true |}
  else updateScoresMutation st (selfScores st).
End World.

End QuizResults.

(* ===================================================================== *)
(** * Notions used to state the properties *)
(* ===================================================================== *)

Module Spec.

(** ** Quiz generation form *)

(** The user pastes [text] into the textarea and presses "Add URLs". *)
Definition intake (URL_constructs : jsstring -> bool) (text : jsstring)
    (s : QuizGenerator.State) : QuizGenerator.State :=
  state_after (QuizGenerator.addUrlsToList URL_constructs)
              (QuizGenerator.setUrlsText text s).

(** What the user can do to the URL list. *)
Inductive UrlAction : Type :=
  | Paste (text : jsstring)      (* type into the textarea, press "Add URLs" *)
  | RemoveUrl (idx : nat)        (* the remove button of entry [idx] *)
  | ClearForm.                   (* the "Clear" button *)

Definition apply_action (URL_constructs : jsstring -> bool)
    (s : QuizGenerator.State) (a : UrlAction) : QuizGenerator.State :=
  match a with
  | Paste text => intake URL_constructs text s
  | RemoveUrl idx => QuizGenerator.removeUrlAt idx s
  | ClearForm => QuizGenerator.resetForm s
  end.

(** The form after a history of such actions, from the initial form. *)
Definition accumulate (URL_constructs : jsstring -> bool) (history : list UrlAction)
    : QuizGenerator.State :=
  fold_left (apply_action URL_constructs) history QuizGenerator.initial.

(** The toast that reports [n] dropped entries. *)
Definition dropped_report (n : nat) : QuizGenerator.Event :=
  QuizGenerator.EToast
    {| title := lit "Some URLs invalid";
       description := Some (String_of_N (N.of_nat n) ++ lit " url(s) were ignored");
       destructive := true |}.

(** *** URL intake, in the words of the specification *)

(** The text cut at every line feed. *)
Fixpoint lines (text : jsstring) : list jsstring :=
  match text with
  | [] => [[]]
  | c :: rest =>
      if bool_decide (c = LF) then [] :: lines rest
      else match lines rest with
           | line :: more => (c :: line) :: more
           | [] => [[c]]
           end
  end.

(** A white-space character (a carriage return is one). *)
Definition blank (c : N) : Prop := is_whitespace c = true.

(** [u] is [line] without the white space at its two ends. *)
Definition trimmed_of (line u : jsstring) : Prop :=
  exists pre post,
    line = pre ++ u ++ post /\ Forall blank pre /\ Forall blank post /\
    (forall c, head u = Some c -> ~ blank c) /\
    (forall c, last u = Some c -> ~ blank c).

(** A scheme is present: at some position the text reads "://". *)
Definition has_scheme (u : jsstring) : bool :=
  bool_decide (Exists (fun k => take 3 (drop k u) = lit "://") (seq 0 (length u))).

(** What URL construction is attempted on. *)
Definition with_scheme (u : jsstring) : jsstring :=
  if has_scheme u then u else lit "http://" ++ u.

(** URL construction succeeds on the candidate. *)
Definition acceptable (URL_constructs : jsstring -> bool) (u : jsstring) : bool :=
  URL_constructs (with_scheme u).

(** A URL constructor by what it makes of a string: nothing when it
    throws, else the host of the URL.  [constructs] is the test that
    [validateUrl] makes of it. *)
Definition constructs (new_URL : jsstring -> option jsstring) (s : jsstring) : bool :=
  bool_decide (is_Some (new_URL s)).

(** The entry has a parseable host: URL construction gives a URL whose
    host is not empty. *)
Definition has_parseable_host (new_URL : jsstring -> option jsstring) (u : jsstring)
    : Prop :=
  exists host, new_URL (with_scheme u) = Some host /\ host <> [].

(** The URL constructor of the platform on the strings used below: a
    file URL has the empty host.  No other string is asked about; they are
    taken to throw. *)
Definition new_URL_sample (s : jsstring) : option jsstring :=
  if bool_decide (s = lit "file:///etc/passwd") then Some []
  else if bool_decide (s = lit "http://example.com") then Some (lit "example.com")
  else None.

(** The first of [test_id], [quiz_id], [id], in that order, that holds a
    usable (truthy) value. *)
Definition first_present (r : QuizGenerator.Response) : option jsval :=
  match QuizGenerator.data r with
  | Some d =>
      List.find truthy
        [QuizGenerator.test_id d; QuizGenerator.quiz_id d; QuizGenerator.id d]
  | None => None
  end.

Definition form_intact (s s' : QuizGenerator.State) : Prop :=
  QuizGenerator.urlsList s' = QuizGenerator.urlsList s /\
  QuizGenerator.files s' = QuizGenerator.files s /\
  QuizGenerator.urlsText s' = QuizGenerator.urlsText s.

Definition form_cleared (s' : QuizGenerator.State) : Prop :=
  QuizGenerator.urlsList s' = [] /\
  QuizGenerator.files s' = [] /\
  QuizGenerator.urlsText s' = [].

Definition no_test_id : jserror :=
  Error (VStr (lit "No test ID received from server")).

Definition generated : Toast :=
  {| title := lit "Quiz Generated!";
     description := Some (lit "Starting your quiz now...");
     destructive := false |}.

(** A form with one URL and exactly one question type enabled. *)
Definition one_url_one_type : QuizGenerator.State :=
  {| QuizGenerator.questionCount := 15;
     QuizGenerator.questionTypes :=
       {| QuizGenerator.mcq := true; QuizGenerator.tf := false;
          QuizGenerator.short := false; QuizGenerator.long := false |};
     QuizGenerator.difficulty := lit "medium";
     QuizGenerator.urlsText := [];
     QuizGenerator.urlsList := [lit "https://example.com/a"];
     QuizGenerator.files := [];
     QuizGenerator.loading := false |}.

(** A backend whose response carries only [quiz_id]. *)
Definition answers_quiz_id
    : list QuizGenerator.Event -> QuizGenerator.Payload -> bool
      -> jserror + QuizGenerator.Response :=
  fun _ _ _ =>
    inr (QuizGenerator.mkResponse
           (Some (QuizGenerator.mkData VUndefined (VStr (lit "q7")) VUndefined))).

(** ** Quiz taking *)

(** An option key that the comma-joined encoding can carry. *)
Definition valid_key (k : jsstring) : Prop := k <> [] /\ COMMA ∉ k.

(** A multi-select question with "A" and "B" checked. *)
Definition two_checked : TakeQuiz.State :=
  TakeQuiz.setAnswers (fun _ => {[ 0 := lit "A,B" ]}) TakeQuiz.initial.


(** A one-minute test with one question. *)
Definition one_minute_quiz : TakeQuiz.TestData :=
  {| TakeQuiz.test_name := lit "Sample";
     TakeQuiz.test_data :=
       [TakeQuiz.mkQuestion (lit "Pick one") TakeQuiz.mcq
          (Some [(lit "A", lit "first"); (lit "B", lit "second")])];
     TakeQuiz.estimated_time := 1 |}.

(** 59 seconds pass, the question is answered, the 60th second passes. *)
Definition last_second_answer : list TakeQuiz.Action :=
  replicate 59 TakeQuiz.Tick ++ [TakeQuiz.AnswerChange (lit "A"); TakeQuiz.Tick].

(** ** Chat *)

(** A backend that rejects every request. *)
Definition offline : list Chat.Event -> Chat.Request -> jserror + option Chat.Reply :=
  fun _ _ => inl (Error (VStr (lit "Network Error"))).

Definition hello : Chat.ChatMessage :=
  Chat.mkMessage (lit "user-1") Chat.user (lit "hello") (lit "2025-01-01T00:00:00.000Z") None.

(** A chat with one message in its history. *)
Definition chatting : Chat.State :=
  {| Chat.messages := [hello];
     Chat.inputMessage := lit "  next question ";
     Chat.isLoading := false;
     Chat.sessionId := lit "session-1-abc";
     Chat.context := Chat.mkContext None [] [] [] |}.

(** The context push of [sendMessage] for the state [s]. *)
Definition push_request (s : Chat.State) : Chat.Request :=
  Chat.PostUpdateContext (Chat.context s) (Chat.header (Chat.sessionId s)).

(** The message request of [sendMessage] for the state [s]. *)
Definition send_request (s : Chat.State) : Chat.Request :=
  Chat.PostMessage (trim (Chat.inputMessage s)) (Chat.header (Chat.sessionId s)).

Definition clear_request (s : Chat.State) : Chat.Request :=
  Chat.PostClear (Chat.header (Chat.sessionId s)).

Definition context_label : jsstring := lit "Error updating chat context:".

(** What has happened when the message request goes out: the context
    push, and the two log lines of its failure if it failed. *)
Definition before_send
    (post : list Chat.Event -> Chat.Request -> jserror + option Chat.Reply)
    (s : Chat.State) : list Chat.Event :=
  match post [] (push_request s) with
  | inr _ => [Chat.ERequest (push_request s)]
  | inl e => [Chat.ERequest (push_request s);
              Chat.EConsoleError context_label e;
              Chat.EConsoleError context_label e]
  end.

(** The send succeeded with a reply to show. *)
Definition replied (outcome : jserror + option Chat.Reply) : option Chat.Reply :=
  match outcome with
  | inr (Some r) => Some r
  | _ => None
  end.

Definition is_error_message (m : Chat.ChatMessage) : Prop :=
  Chat.msg_type m = Chat.ai /\ Chat.msg_text m = Chat.error_text.

Definition is_reply_message (r : Chat.Reply) (m : Chat.ChatMessage) : Prop :=
  Chat.msg_type m = Chat.ai /\ Chat.msg_text m = Chat.response r /\
  Chat.msg_timestamp m = Chat.timestamp r /\
  Chat.msg_context_type m = Chat.context_type r.

Definition is_user_message (text : jsstring) (m : Chat.ChatMessage) : Prop :=
  Chat.msg_type m = Chat.user /\ Chat.msg_text m = text.

(** ** Results *)

(** The questions with their positions, from position [i] on. *)
Fixpoint indexed (i : Z) (qs : list QuizResults.QuestionResult)
    : list (Z * QuizResults.QuestionResult) :=
  match qs with
  | [] => []
  | q :: rest => (i, q) :: indexed (i + 1) rest
  end.

(** An objective question answered correctly. *)
Definition correct_objective (q : QuizResults.QuestionResult) : bool :=
  QuizResults.is_objective q &&
  QuizResults.strict_eq (QuizResults.user_answer q) (QuizResults.correct_answer q).

(** A subjective question whose effective score is positive. *)
Definition scored_subjective (scores : gmap Z Z) (iq : Z * QuizResults.QuestionResult) : bool :=
  negb (QuizResults.is_objective iq.2) &&
  (0 <? QuizResults.effective_score scores iq.1 iq.2).

Definition sum_effective (scores : gmap Z Z) (l : list (Z * QuizResults.QuestionResult)) : Z :=
  foldr (fun iq acc => QuizResults.effective_score scores iq.1 iq.2 + acc) 0 l.

(** The first of the buffered score, the server score and 0 that is a
    non-zero number; 0 when there is none. *)
Definition fallback (buffered server : option Z) : Z :=
  match buffered with
  | Some b => if b =? 0 then default 0 server else b
  | None => default 0 server
  end.

(** ** Statistics, in the words of the specification *)

#[global] Instance jsval_eq_dec : EqDecision jsval.
Proof. solve_decision. Defined.

(** An objective question: of type mcq or true_false. *)
Definition objective (q : QuizResults.QuestionResult) : bool :=
  bool_decide (QuizResults.type q = lit "mcq" \/ QuizResults.type q = lit "true_false").

(** The correct answer is the very string that the user gave. *)
Definition answered_right (q : QuizResults.QuestionResult) : bool :=
  bool_decide (QuizResults.correct_answer q = VStr (QuizResults.user_answer q)).

(** The effective score of the question at a position: the server
    score, else the buffered self-score, else 0. *)
Definition effective (scores : gmap Z Z) (iq : Z * QuizResults.QuestionResult) : Z :=
  fallback (QuizResults.user_score iq.2) (scores !! iq.1).

(** A question counts as scored when it is objective, or when its
    effective score is positive. *)
Definition counted (scores : gmap Z Z) (iq : Z * QuizResults.QuestionResult) : bool :=
  objective iq.2 || (0 <? effective scores iq).

(** What a question adds to the total: 100 or 0 for an objective one,
    by whether it was answered right, and the effective score
    otherwise. *)
Definition points (scores : gmap Z Z) (iq : Z * QuizResults.QuestionResult) : Z :=
  if objective iq.2 then (if answered_right iq.2 then 100 else 0)
  else effective scores iq.

Definition sum_points (scores : gmap Z Z) (l : list (Z * QuizResults.QuestionResult)) : Z :=
  foldr (fun iq acc => points scores iq + acc) 0 l.

(** A wrong multiple-choice answer and a subjective answer that the
    user has rated 80. *)
Definition wrong_mcq_rated_80 : QuizResults.State :=
  {| QuizResults.submissionId := lit "sub-2";
     QuizResults.questions_with_answers :=
       [QuizResults.mkResult 0 (lit "mcq") (lit "A") None (VStr (lit "B"));
        QuizResults.mkResult 1 (lit "short_answer") (lit "because") None VUndefined];
     QuizResults.selfScores := {[ 1 := 80 ]} |}.

End Spec.

(* ===================================================================== *)
(** * Further built-ins *)
(* ===================================================================== *)

Module JSMore.

(** [s.padStart(n, c)] for a one-character pad string [c]. *)
Definition padStart (n : nat) (c : N) (s : jsstring) : jsstring :=
  replicate (n - length s) c ++ s.

(** [s.endsWith(p)] *)
Definition endsWith (p s : jsstring) : bool := startsWith (rev p) (rev s).

(** The decimal digit [d] as a code unit. *)
Definition digit (d : Z) : N := Z.to_N (48 + d).

End JSMore.

Import JSMore.

(* ===================================================================== *)
(** * The quiz-taking page: display and histories *)
(* ===================================================================== *)

Module TakeQuizView.
Import TakeQuiz.

Section Platform.
(** JavaScript numbers are IEEE 754 doubles; [formatTime] is written over
    the operations of the platform on them. *)
Variable number : Type.
(** The double that an integer literal denotes, such as [60]. *)
Variable of_Z : Z -> number.
Variable Math_floor : number -> number.
(** [x / y] and [x % y] *)
Variable divide : number -> number -> number.
Variable remainder : number -> number -> number.
(** [Number.prototype.toString], which a template literal uses too *)
Variable Number_toString : number -> jsstring.

Definition formatTime (seconds : number) : jsstring :=
  let mins := Math_floor (divide seconds (of_Z 60)) in
  let secs := remainder seconds (of_Z 60) in
  Number_toString mins ++ lit ":" ++ padStart 2 48%N (Number_toString secs).
End Platform.
Global Arguments formatTime {number} _ _ _ _ _ _.

(** On the integers from 0 to 2^53 - 1 the doubles are exact: the floor
    of a division by 60 is the integer quotient, the remainder is the
    integer remainder, and [toString] gives the decimal digits. *)
Definition exact_on_safe_integers {number : Type} (of_Z : Z -> number)
    (Math_floor : number -> number) (divide remainder : number -> number -> number)
    (Number_toString : number -> jsstring) : Prop :=
  forall z, 0 <= z < 2 ^ 53 ->
    Math_floor (divide (of_Z z) (of_Z 60)) = of_Z (z / 60) /\
    remainder (of_Z z) (of_Z 60) = of_Z (z mod 60) /\
    Number_toString (of_Z z) = String_of_Z z.

Record Progress : Type := mkProgress {
  completed : nat;
  total : nat;
  percentage : Q
}.

(** The [progress] memo, for a loaded test. *)
Definition progress (td : TestData) (s : State) : Progress :=
  let total := length (test_data td) in
  let completed := size (answers s) in             (* Object.keys(answers).length *)
  {| completed := completed;
     total := total;
     percentage :=
       if (0 <? total)%nat
       then (Qmake (Z.of_nat completed) 1 / Qmake (Z.of_nat total) 1 * 100)%Q
       else 0%Q |}.

(** The page after a history of actions, from its mount. *)
Definition page_after (td : TestData) (acts : list Action) : Component :=
  (run td (mount td) acts).1.

Definition events_of (td : TestData) (acts : list Action) : list Event :=
  (run td (mount td) acts).2.

Definition is_tick (a : Action) : bool :=
  match a with Tick => true | _ => false end.

Definition is_flag (a : Action) : bool :=
  match a with ToggleFlag _ => true | _ => false end.

Definition is_success (a : Action) : bool :=
  match a with SubmitSucceeded _ => true | _ => false end.

(** The announcement that [handleAutoSubmit] makes before it submits. *)
Definition is_times_up (ev : Event) : bool :=
  match ev with
  | EToast t => bool_decide (title t = title times_up)
  | _ => false
  end.

(** The state with the flag set forgotten. *)
Definition unflagged (s : State) : State := setFlaggedQuestions (fun _ => ∅) s.

Definition unflaggedC (c : Component) : Component :=
  {| st := unflagged (st c); timer := unflagged <$> timer c |}.

(** The number of times the interval was due in a history. *)
Definition ticks (acts : list Action) : nat := length (List.filter is_tick acts).

(** The history with the flag toggles left out. *)
Definition without_flags (acts : list Action) : list Action :=
  List.filter (fun a => negb (is_flag a)) acts.

(** The cursor and every answered index are indices of questions. *)
Definition in_range (td : TestData) (c : Component) : Prop :=
  0 <= currentQuestion (st c) < Z.of_nat (length (test_data td)) /\
  forall k, k ∈ dom (answers (st c)) -> 0 <= k < Z.of_nat (length (test_data td)).

(** The clock shows [t] seconds and runs exactly while [t] is positive. *)
Definition clock_at (c : Component) (t : Z) : Prop :=
  timeRemaining (st c) = Some t /\ 0 <= t /\
  isSubmitted (st c) = false /\
  (0 < t -> exists scope, timer c = Some scope /\ isSubmitted scope = false) /\
  (t = 0 -> timer c = None).

(** No interval is live and none can start: there is no clock, or it
    is not above zero. *)
Definition stopped (c : Component) : Prop :=
  timer c = None /\
  match timeRemaining (st c) with Some t => t <= 0 | None => True end.

(** A submitted page has no live interval. *)
Definition submitted_stops (c : Component) : Prop :=
  isSubmitted (st c) = true -> timer c = None.

(** A test without a time limit. *)
Definition untimed_quiz : TestData :=
  {| test_name := lit "Untimed"; test_data := Spec.one_minute_quiz.(test_data);
     estimated_time := 0 |}.

End TakeQuizView.

(* ===================================================================== *)
(** * The quiz generation form: files and the request *)
(* ===================================================================== *)

Module FileIntake.
Import QuizGenerator.

(** What [onFilesSelected] does besides updating the state. *)
Inductive Event : Type :=
  | EToast (t : Toast)
  | EResetInput.            (* fileInputRef.current.value = "" *)

Definition is_rejection (ev : Event) : bool :=
  match ev with EToast t => destructive t | _ => false end.

Section Platform.
(** [String.prototype.toLowerCase] *)
Variable toLowerCase : jsstring -> jsstring.

(** [f.type === "application/pdf" || f.name.toLowerCase().endsWith(".pdf")] *)
Definition is_pdf (f : File) : bool :=
  bool_decide (file_type f = lit "application/pdf")
  || endsWith (lit ".pdf") (toLowerCase (file_name f)).

(** [onFilesSelected], on the files chosen in the picker. *)
Definition onFilesSelected (chosen : list File) : M State Event jserror unit :=
  (* only allow PDFs *)
  let pdfs := List.filter is_pdf chosen in
  (if (length pdfs <? length chosen)%nat then
     emit (EToast {| title := lit "Only PDFs allowed";
                     description := Some (lit "Non-PDF files were ignored");
                     destructive := true |})
   else ret tt) ;;;
  modify (setFiles (fun prev => prev ++ pdfs)) ;;;
  (if (0 <? length pdfs)%nat then
     emit (EToast {| title := lit "Files Added";
                     description := Some (String_of_N (N.of_nat (length pdfs))
                                          ++ lit " PDF(s) added successfully");
                     destructive := false |})
   else ret tt) ;;;
  (* reset input so same file can be reselected *)
  emit EResetInput.
End Platform.

(** The backend names of the enabled question types, in the order of
    the keys. *)
Definition backend_types (q : QuestionTypes) : list jsstring :=
  (if mcq q then [lit "mcq"] else []) ++
  (if tf q then [lit "true_false"] else []) ++
  (if short q then [lit "short_answer"] else []) ++
  (if long q then [lit "long_answer"] else []).

(** The request that [handleGenerateQuiz] sends for a form. *)
Definition request_of (toLocaleString : list QuizGenerator.Event -> jsstring)
    (s : State) : Payload * bool :=
  (mkPayload (files s) (urlsList s) (questionCount s)
     (backend_types (questionTypes s)) (difficulty s)
     (lit "Quiz - " ++ toLocaleString []),
   (0 <? length (files s))%nat).

End FileIntake.

(* ===================================================================== *)
(** * The results page: review of the questions *)
(* ===================================================================== *)

Module ResultsReview.
Import QuizResults.

(** The state cells of the review list. *)
Record Review : Type := mkReview {
  openQuestions : gset Z;
  explanationLoading : gmap Z bool;
  explanations : gmap Z jsval
}.

Definition setOpenQuestions (f : gset Z -> gset Z) (r : Review) : Review :=
  mkReview (f (openQuestions r)) (explanationLoading r) (explanations r).
Definition setExplanationLoading (f : gmap Z bool -> gmap Z bool) (r : Review) : Review :=
  mkReview (openQuestions r) (f (explanationLoading r)) (explanations r).
Definition setExplanations (f : gmap Z jsval -> gmap Z jsval) (r : Review) : Review :=
  mkReview (openQuestions r) (explanationLoading r) (f (explanations r)).

Definition toggleQuestion (index : Z) (r : Review) : Review :=
  setOpenQuestions
    (fun prev => if bool_decide (index ∈ prev) then prev ∖ {[index]} else prev ∪ {[index]}) r.

Inductive Event : Type :=
  | EToast (t : Toast)
  | EExplain (submission : jsstring) (question_data : QuestionResult)
             (question_index : Z) (user_answer : jsstring).
      (* POST /api/explain-answer *)

Definition is_request (ev : Event) : bool :=
  match ev with EExplain _ _ _ _ => true | _ => false end.
Definition is_error_toast (ev : Event) : bool :=
  match ev with EToast t => destructive t | _ => false end.

(** [explanations[index]] read as a condition *)
Definition has_explanation (r : Review) (index : Z) : bool :=
  match explanations r !! index with
  | Some v => truthy v
  | None => false
  end.

(** [explanationLoading[index] || !!explanations[index]]: the button of
    question [index] is disabled. *)
Definition explain_disabled (r : Review) (index : Z) : bool :=
  default false (explanationLoading r !! index) || has_explanation r index.

Section World.
Variable submissionId : jsstring.
(** How the request settles: a rejection, or the response: [None] when
    it is not ok, else [data.explanation]. *)
Variable fetch_explanation :
  list Event -> QuestionResult -> Z -> jsstring -> jserror + option jsval.

(** [getExplanationMutation.mutate(...)] with its callbacks *)
Definition getExplanationMutation (questionData : QuestionResult) (questionIndex : Z)
    (userAnswer : jsstring) : M Review Event jserror unit :=
  try_catch
    (response <- await (EExplain submissionId questionData questionIndex userAnswer)
                   (fun tr => fetch_explanation tr questionData questionIndex userAnswer) ;;
     match response with
     | Some explanation =>
         modify (setExplanations (fun prev => <[questionIndex := explanation]> prev)) ;;;
         modify (setExplanationLoading (fun prev => <[questionIndex := false]> prev))
     | None => throw (Error (VStr (lit "Failed to get explanation")))
     end)
    (fun error =>
       emit (EToast {| title := lit "Error getting explanation";
                       description := describe (message error);
                       destructive := true |}) ;;;
       modify (setExplanationLoading (fun prev => <[questionIndex := false]> prev))).

Definition getExplanation (questionData : QuestionResult) (index : Z)
    : M Review Event jserror unit :=
  r <- get ;;
  if has_explanation r index then ret tt
  else
    modify (setExplanationLoading (fun prev => <[index := true]> prev)) ;;;
    getExplanationMutation questionData index (user_answer questionData).
End World.

(** The explanation that a settled request stores. *)
Definition stored (outcome : jserror + option jsval) : option jsval :=
  match outcome with
  | inr (Some explanation) => Some explanation
  | _ => None
  end.

(** Every score the page can use is between 0 and 100. *)
Definition scores_in_percent (s : State) : Prop :=
  (forall q u, q ∈ questions_with_answers s -> user_score q = Some u -> u <= 100) /\
  (forall i v, selfScores s !! i = Some v -> v <= 100).

(** One subjective question rated 80 and one objective question. *)
Definition two_results : State :=
  {| submissionId := lit "sub-1";
     questions_with_answers :=
       [mkResult 0 (lit "mcq") (lit "A") None (VStr (lit "A"));
        mkResult 1 (lit "short_answer") (lit "because") None VUndefined];
     selfScores := {[ 1 := 80 ]} |}.

End ResultsReview.

(* ===================================================================== *)
(** * The chat: context panel and history (ChatPage.tsx, ChatbotFAB.tsx) *)
(* ===================================================================== *)

Module ChatPanel.
Import Chat.

(** The [type] argument of [handleContentSelection] *)
Inductive ContentKind : Type := links | tests | submissions.

Definition kind_name (type : ContentKind) : jsstring :=
  match type with
  | links => lit "links"
  | tests => lit "tests"
  | submissions => lit "submissions"
  end.

(** [s.slice(0, -1)] *)
Definition slice_0_m1 (s : jsstring) : jsstring := take (length s - 1) s.

(** [`selected_${type.slice(0, -1)}_ids`] *)
Definition key_of (type : ContentKind) : jsstring :=
  lit "selected_" ++ slice_0_m1 (kind_name type) ++ lit "_ids".

(** [prev[key]] as a list of ids; [None] when the context holds no list
    under [key]. *)
Definition ids_at (key : jsstring) (c : ChatContext) : option (list jsstring) :=
  if bool_decide (key = lit "selected_link_ids") then Some (selected_link_ids c)
  else if bool_decide (key = lit "selected_test_ids") then Some (selected_test_ids c)
  else if bool_decide (key = lit "selected_submission_ids")
       then Some (selected_submission_ids c)
  else None.

(** [{ ...prev, [key]: newIds }], for a key that [ids_at] knows *)
Definition with_ids (key : jsstring) (newIds : list jsstring) (c : ChatContext)
    : ChatContext :=
  if bool_decide (key = lit "selected_link_ids")
  then mkContext (folder_id c) newIds (selected_test_ids c) (selected_submission_ids c)
  else if bool_decide (key = lit "selected_test_ids")
  then mkContext (folder_id c) (selected_link_ids c) newIds (selected_submission_ids c)
  else if bool_decide (key = lit "selected_submission_ids")
  then mkContext (folder_id c) (selected_link_ids c) (selected_test_ids c) newIds
  else c.

(** The updater that [handleContentSelection] passes to [setContext];
    [None]: spreading or filtering a missing list throws. *)
Definition handleContentSelection (type : ContentKind) (id : jsstring) (checked : bool)
    (prev : ChatContext) : option ChatContext :=
  let key := key_of type in
  match ids_at key prev with
  | Some currentIds =>
      let newIds :=
        if checked then currentIds ++ [id]
        else List.filter (fun existingId => negb (bool_decide (existingId = id))) currentIds in
      Some (with_ids key newIds prev)
  | None => None
  end.

(** The ids of one kind that a context holds. *)
Definition ids_of (type : ContentKind) (c : ChatContext) : list jsstring :=
  match type with
  | links => selected_link_ids c
  | tests => selected_test_ids c
  | submissions => selected_submission_ids c
  end.

(** The state cells of the context panel; the handlers below only drop
    or keep the loaded folder content, whose type is left open. *)
Record Panel (FolderContent : Type) : Type := mkPanel {
  selectedFolder : jsstring;
  folderContent : option FolderContent;
  context : ChatContext
}.
Global Arguments mkPanel {_} _ _ _.
Global Arguments selectedFolder {_} _.
Global Arguments folderContent {_} _.
Global Arguments context {_} _.

(** ChatPage.tsx *)
Module Page.
Definition handleFolderChange {FC} (folderId : jsstring) (p : Panel FC) : Panel FC :=
  (* Handle the "none" case for general assistance *)
  if bool_decide (folderId = lit "none") then
    mkPanel [] None (mkContext None [] [] [])
  else
    mkPanel folderId (folderContent p) (mkContext (Some folderId) [] [] []).
End Page.

(** ChatbotFAB.tsx *)
Module FAB.
Definition handleFolderChange {FC} (folderId : jsstring) (p : Panel FC) : Panel FC :=
  mkPanel folderId (folderContent p) (mkContext (Some folderId) [] [] []).
End FAB.

(** ** Loading the history *)

(** One object of [history.chat_history] *)
Record HistoryEntry : Type := mkEntry {
  entry_user : jsstring;
  entry_ai : jsstring;
  entry_timestamp : option jsstring;
  entry_context_type : option jsstring
}.

(** [res.data] of /api/chat/history *)
Inductive HistoryBody : Type :=
  | NullBody                      (* the body is [null] *)
  | Body (chat_history : option (list (option HistoryEntry))).
      (* [Some l]: [chat_history] is an array, of objects and [null]s;
         [None]: it is missing or no array *)

Inductive Event : Type :=
  | EGetHistory (x_session_id : option jsstring)     (* GET /api/chat/history *)
  | EConsoleError (label : jsstring) (err : jserror).

Definition is_request (ev : Event) : bool :=
  match ev with EGetHistory _ => true | _ => false end.
Definition is_log (ev : Event) : bool :=
  match ev with EConsoleError _ _ => true | _ => false end.

(** The [TypeError] of reading a property of [null] *)
Definition TypeError_reading (property : string) : jserror :=
  Error (VStr (lit "Cannot read properties of null (reading '" ++ lit property
               ++ lit "')")).

Section World.
(** How the request settles: a rejection, or the body. *)
Variable get_history : list Event -> option jsstring -> jserror + HistoryBody.
(** [toISOString k]: what the [k]-th evaluation of
    [new Date().toISOString()] gives while the history is formatted. *)
Variable toISOString : nat -> jsstring.

(** The callback of [flatMap] on an object, after [reads] readings of
    the clock: the two messages of the entry and the number of readings
    then.  [entry.timestamp || new Date().toISOString()] reads the clock,
    once for each of the two messages, only when the entry has no usable
    timestamp. *)
Definition format_entry (reads : nat) (entry : HistoryEntry) (index : nat)
    : list ChatMessage * nat :=
  let stamped :=
    match entry_timestamp entry with
    | Some t => truthy_str t
    | None => false
    end in
  let user_timestamp :=
    if stamped then default [] (entry_timestamp entry) else toISOString reads in
  let ai_timestamp :=
    if stamped then default [] (entry_timestamp entry) else toISOString (S reads) in
  ([ {| msg_id := lit "user-" ++ String_of_N (N.of_nat index); msg_type := user;
        msg_text := entry_user entry; msg_timestamp := user_timestamp;
        msg_context_type := None |};
     {| msg_id := lit "ai-" ++ String_of_N (N.of_nat index); msg_type := ai;
        msg_text := entry_ai entry; msg_timestamp := ai_timestamp;
        msg_context_type := entry_context_type entry |} ],
   if stamped then reads else S (S reads)).

(** [chat_history.flatMap((entry, index) => ...)], from [index] on;
    reading [entry.user] of a [null] element throws. *)
Fixpoint flatMap (reads index : nat) (l : list (option HistoryEntry))
    : jserror + list ChatMessage :=
  match l with
  | [] => inr []
  | None :: _ => inl (TypeError_reading "user")
  | Some entry :: rest =>
      let '(two, reads') := format_entry reads entry index in
      match flatMap reads' (S index) rest with
      | inr more => inr (two ++ more)
      | inl error => inl error
      end
  end.

Abbreviation H := (M State Event jserror).

(** lib/api.ts: logs and rethrows. *)
Definition api_getChatHistory (sessionId : jsstring) : H HistoryBody :=
  try_catch
    (await (EGetHistory (header sessionId)) (fun tr => get_history tr (header sessionId)))
    (fun error => emit (EConsoleError (lit "Error getting chat history:") error) ;;;
                  throw error).

Definition loadChatHistory : H unit :=
  st <- get ;;
  try_catch
    (history <- api_getChatHistory (sessionId st) ;;
     match history with
     | NullBody => throw (TypeError_reading "chat_history")
     | Body (Some chat_history) =>
         match flatMap 0 0 chat_history with
         | inr formattedMessages => modify (setMessages (fun _ => formattedMessages))
         | inl error => throw error
         end
     | Body None => ret tt
     end)
    (fun error => emit (EConsoleError (lit "Error loading chat history:") error)).
End World.

(** The messages that stand for the object at position [index]: the
    user's and then the assistant's, both with the timestamp of the entry
    when it has a usable one. *)
Definition shows_entry (ms : list ChatMessage) (index : nat) (entry : HistoryEntry) : Prop :=
  exists u a,
    ms !! (2 * index)%nat = Some u /\ ms !! (2 * index + 1)%nat = Some a /\
    msg_type u = user /\ msg_text u = entry_user entry /\
    msg_id u = lit "user-" ++ String_of_N (N.of_nat index) /\
    msg_type a = ai /\ msg_text a = entry_ai entry /\
    msg_id a = lit "ai-" ++ String_of_N (N.of_nat index) /\
    msg_context_type a = entry_context_type entry /\
    (forall t, entry_timestamp entry = Some t -> truthy_str t = true ->
       msg_timestamp u = t /\ msg_timestamp a = t).

End ChatPanel.

(* ===================================================================== *)
(** * The chat session id (utils/session.ts) *)
(* ===================================================================== *)

Module Session.

(** [sessionStorage], as far as the key ['chatbot_session_id'] goes.
    Reaching the storage throws when access is denied; writing throws
    also when the quota is used up. *)
Record Storage : Type := mkStorage {
  accessible : bool;
  full : bool;
  item : option jsstring
}.

Inductive Event : Type :=
  | EWarn (text : jsstring) (err : option jserror).

(** What [Date.now()] and [Math.random().toString(36).substr(2, 9)]
    evaluate to at one place of the code. *)
Record Draw : Type := mkDraw {
  Date_now : N;
  Math_random_36 : jsstring
}.

Abbreviation H := (M Storage Event jserror).

Definition denied : jserror := Error (VStr (lit "SecurityError")).
Definition quota : jserror := Error (VStr (lit "QuotaExceededError")).

Definition getItem : H (option jsstring) :=
  st <- get ;;
  if accessible st then ret (item st) else throw denied.

Definition setItem (v : jsstring) : H unit :=
  st <- get ;;
  if negb (accessible st) then throw denied
  else if full st then throw quota
  else modify (fun s => mkStorage (accessible s) (full s) (Some v)).

Definition removeItem : H unit :=
  st <- get ;;
  if accessible st then modify (fun s => mkStorage (accessible s) (full s) None)
  else throw denied.

Definition getOrCreateSessionId (fresh temporary : Draw) : H jsstring :=
  try_catch
    ((* Check if we already have a session ID *)
     stored <- getItem ;;
     match stored with
     | Some sessionId =>
         if truthy_str sessionId then ret sessionId
         else
           let sessionId := lit "session_" ++ String_of_N (Date_now fresh) ++ lit "_"
                            ++ Math_random_36 fresh in
           setItem sessionId ;;; ret sessionId
     | None =>
         (* Generate a new session ID *)
         let sessionId := lit "session_" ++ String_of_N (Date_now fresh) ++ lit "_"
                          ++ Math_random_36 fresh in
         setItem sessionId ;;; ret sessionId
     end)
    (fun error =>
       (* Fallback if sessionStorage is not available *)
       emit (EWarn (lit "SessionStorage not available, using temporary session ID") None) ;;;
       ret (lit "temp_session_" ++ String_of_N (Date_now temporary) ++ lit "_"
            ++ Math_random_36 temporary)).

Definition clearSession : H unit :=
  try_catch removeItem
    (fun error => emit (EWarn (lit "Failed to clear session:") (Some error))).

Definition getCurrentSessionId : H (option jsstring) :=
  try_catch getItem (fun error => ret None).

(** The value a call returns. *)
Definition value_of {A} (m : H A) (st : Storage) : option A :=
  match (run m st).1.1 with
  | Normal a => Some a
  | Thrown _ => None
  end.

(** A storage that works and holds nothing yet. *)
Definition empty_storage : Storage := mkStorage true false None.

End Session.

(* ===================================================================== *)
(** * Errors of the API client (lib/api.ts) *)
(* ===================================================================== *)

Module ApiErrors.

(** [err.response.data]; a field that is absent reads [undefined]. *)
Record ErrorData : Type := mkErrorData {
  detail : jsval;
  data_message : jsval
}.

Record ErrorResponse : Type := mkErrorResponse {
  status : jsval;
  data : option ErrorData
}.

(** What the response interceptor is given. *)
Record AxiosError : Type := mkAxiosError {
  response : option ErrorResponse;
  err_message : jsval
}.

Record NormalizedError : Type := mkNormalized {
  n_message : jsval;
  n_status : jsval;
  n_data : option ErrorData
}.

(** [err.response?.data] *)
Definition response_data (err : AxiosError) : option ErrorData :=
  match response err with
  | Some r => data r
  | None => None
  end.

(** [err.response?.data?.detail] and [err.response?.data?.message] *)
Definition data_field (f : ErrorData -> jsval) (err : AxiosError) : jsval :=
  match response_data err with
  | Some d => f d
  | None => VUndefined
  end.

(** The rejection handler of [api.interceptors.response] *)
Definition normalizedError (err : AxiosError) : NormalizedError :=
  {| n_message :=
       or_else (or_else (or_else (data_field detail err) (data_field data_message err))
                        (err_message err))
               (VStr (lit "An unknown error occurred"));
     n_status := match response err with Some r => status r | None => VUndefined end;
     n_data := response_data err |}.

End ApiErrors.

(* ===================================================================== *)
(** * The chatbot hook (hooks/useChatbotIntegration.ts) *)
(* ===================================================================== *)

Module ChatbotHook.

Record ChatbotContext : Type := mkChatbotContext {
  folderId : option jsstring;
  selectedLinkIds : option (list jsstring);
  selectedTestIds : option (list jsstring);
  selectedSubmissionIds : option (list jsstring)
}.

(** The two state cells, and the time-outs that [closeChatbot] has set
    and that have not fired yet: each is the [isOpen] that its closure
    captured, oldest first. *)
Record Hook : Type := mkHook {
  isOpen : bool;
  initialContext : option ChatbotContext;
  pending : list bool
}.

Definition initial : Hook := mkHook false None [].

Definition openChatbot (context : option ChatbotContext) (h : Hook) : Hook :=
  mkHook true
    (match context with Some c => Some c | None => initialContext h end)
    (pending h).

(** [closeChatbot] is rebuilt when [isOpen] changes, so the one a render
    hands out has captured the [isOpen] of that render. *)
Definition closeChatbot (h : Hook) : Hook :=
  mkHook false (initialContext h) (pending h ++ [isOpen h]).

Definition updateContext (context : ChatbotContext) (h : Hook) : Hook :=
  mkHook (isOpen h) (Some context) (pending h).

(** The body of the time-out, 300 ms later. *)
Definition timeout (captured_isOpen : bool) (h : Hook) : Hook :=
  if negb captured_isOpen then mkHook (isOpen h) None (pending h) else h.

Inductive Action : Type :=
  | Open (context : option ChatbotContext)
  | Close
  | Update (context : ChatbotContext)
  | TimerFires.                   (* the oldest pending time-out *)

Definition step (h : Hook) (a : Action) : Hook :=
  match a with
  | Open context => openChatbot context h
  | Close => closeChatbot h
  | Update context => updateContext context h
  | TimerFires =>
      match pending h with
      | captured :: rest => timeout captured (mkHook (isOpen h) (initialContext h) rest)
      | [] => h
      end
  end.

Definition run (h : Hook) (acts : list Action) : Hook := foldl step h acts.

(** The context last handed over by [openChatbot] or [updateContext]. *)
Fixpoint last_given (acts : list Action) (given : option ChatbotContext)
    : option ChatbotContext :=
  match acts with
  | [] => given
  | Open (Some c) :: rest => last_given rest (Some c)
  | Update c :: rest => last_given rest (Some c)
  | _ :: rest => last_given rest given
  end.

(** [closeChatbot] is only called while the chatbot is open, as its
    window, which holds the close button, is rendered only then. *)
Fixpoint closes_when_open (h : Hook) (acts : list Action) : Prop :=
  match acts with
  | [] => True
  | a :: rest =>
      (match a with Close => isOpen h = true | _ => True end) /\
      closes_when_open (step h a) rest
  end.

Definition folder_context (id : string) : ChatbotContext :=
  mkChatbotContext (Some (lit id)) None None None.

End ChatbotHook.

(* ===================================================================== *)
(** * The folder page: selection and quiz generation (FolderDetails) *)
(* ===================================================================== *)

Module FolderDetails.

Record QTypes : Type := mkQTypes {
  mcq : bool;
  tf : bool;
  short : bool;
  long : bool
}.

Inductive TestType : Type := normal | comprehensive.

Record State : Type := mkState {
  selected : list jsstring;
  selectAll : bool;
  showGenModal : bool;
  quizName : jsstring;
  numQuestions : list Z;
  difficulty : jsstring;
  qTypes : QTypes;
  testType : TestType
}.

Definition setSelected (f : list jsstring -> list jsstring) (s : State) : State :=
  mkState (f (selected s)) (selectAll s) (showGenModal s) (quizName s) (numQuestions s)
          (difficulty s) (qTypes s) (testType s).
Definition setSelectAll (b : bool) (s : State) : State :=
  mkState (selected s) b (showGenModal s) (quizName s) (numQuestions s)
          (difficulty s) (qTypes s) (testType s).

(** The cells as [useState] creates them. *)
Definition initial : State :=
  {| selected := []; selectAll := false; showGenModal := false; quizName := [];
     numQuestions := [15]; difficulty := lit "medium";
     qTypes := mkQTypes true true false false; testType := normal |}.

(** [prev.includes(id)] *)
Definition Array_includes (id : jsstring) (l : list jsstring) : bool :=
  bool_decide (id ∈ l).

Definition toggle (id : jsstring) (s : State) : State :=
  setSelected
    (fun prev =>
       if Array_includes id prev
       then List.filter (fun x => negb (bool_decide (x = id))) prev
       else prev ++ [id]) s.

(** [links] is the list of the [link_id]s of the loaded links, [None]
    while there is no list. *)
Definition onSelectAll (links : option (list jsstring)) (render : State) (s : State) : State :=
  match links with
  | None | Some [] => s
  | Some ids =>
      if selectAll render
      then setSelectAll false (setSelected (fun _ => []) s)
      else setSelectAll true (setSelected (fun _ => ids) s)
  end.

Record Payload : Type := mkPayload {
  link_ids : list jsstring;
  question_types : list jsstring;
  p_difficulty : jsstring;
  num_questions : option Z;
  test_name : option jsstring;
  test_type : TestType
}.

(** [genTestMut.mutate(payload)]: the request goes to the endpoint that
    [mutationFn] picks. *)
Inductive Endpoint : Type :=
  | generate_test                 (* POST /api/folders/{id}/generate-test *)
  | generate_comprehensive_test.  (* POST /api/folders/{id}/generate-comprehensive-test *)

Inductive Event : Type :=
  | EToast (t : Toast)
  | EGenerate (to : Endpoint) (payload : Payload).

Definition is_request (ev : Event) : bool :=
  match ev with EGenerate _ _ => true | _ => false end.

Abbreviation H := (M State Event jserror).

Definition toast (t : Toast) : H unit := emit (EToast t).

Definition mutationFn (payload : Payload) : H unit :=
  match test_type payload with
  | comprehensive => emit (EGenerate generate_comprehensive_test payload)
  | normal => emit (EGenerate generate_test payload)
  end.

(** [Object.entries(qTypes)], in the order of the keys *)
Definition Object_entries (q : QTypes) : list (jsstring * bool) :=
  [(lit "mcq", mcq q); (lit "tf", tf q); (lit "short", short q); (lit "long", long q)].

Definition backend_name (k : jsstring) : jsstring :=
  if bool_decide (k = lit "tf") then lit "true_false"
  else if bool_decide (k = lit "short") then lit "short_answer"
  else if bool_decide (k = lit "long") then lit "long_answer"
  else k.

Definition submitGen : H unit :=
  st <- get ;;
  let question_types :=
    map (fun kv => backend_name kv.1)
        (List.filter (fun kv => kv.2) (Object_entries (qTypes st))) in
  if (length question_types =? 0)%nat then
    toast {| title := lit "Select question types";
             description := Some (lit "Please select at least one question type.");
             destructive := true |}
  else
    (* For comprehensive tests, we don't need selected link_ids *)
    let link_ids := match testType st with comprehensive => [] | normal => selected st end in
    mutationFn
      {| link_ids := link_ids;
         question_types := question_types;
         p_difficulty := difficulty st;
         num_questions := head (numQuestions st);
         test_name := if truthy_str (quizName st) then Some (quizName st) else None;
         test_type := testType st |}.

(** The names of question types that the backend knows. *)
Definition vocabulary : list jsstring :=
  [lit "mcq"; lit "true_false"; lit "short_answer"; lit "long_answer"].

End FolderDetails.

(* ===================================================================== *)
(** * Facts about the built-ins *)
(* ===================================================================== *)

Module JSFacts.

Lemma Set_from_NoDup seen l : NoDup seen -> NoDup (Set_from seen l).
Proof.
  revert seen. induction l as [|x l IH]; intros seen Hseen; simpl; [done|].
  case_bool_decide as Hx; [by apply IH|].
  apply IH. apply NoDup_app. split_and!; [done| |apply NoDup_singleton].
  intros y Hy Hy'. apply list_elem_of_singleton in Hy'. by subst.
Qed.

Lemma Set_from_elem seen l x : x ∈ Set_from seen l <-> x ∈ seen \/ x ∈ l.
Proof.
  revert seen. induction l as [|y l IH]; intros seen; simpl.
  - rewrite elem_of_nil. tauto.
  - case_bool_decide as Hy; rewrite IH, elem_of_cons.
    + split; [tauto|]. intros [?|[->|?]]; tauto.
    + rewrite elem_of_app, list_elem_of_singleton. tauto.
Qed.

Lemma Array_from_Set_NoDup l : NoDup (Array_from_Set l).
Proof. apply Set_from_NoDup, NoDup_nil_2. Qed.

Lemma Array_from_Set_elem l x : x ∈ Array_from_Set l <-> x ∈ l.
Proof. unfold Array_from_Set. rewrite Set_from_elem, elem_of_nil. tauto. Qed.

(** [trimStart] leaves no leading white space and [trim] is idempotent. *)
Lemma trimStart_head s :
  match trimStart s with [] => True | c :: _ => is_whitespace c = false end.
Proof.
  induction s as [|c s IH]; simpl; [done|].
  destruct (is_whitespace c) eqn:Hc; [done|]. simpl. exact Hc.
Qed.

Lemma trimStart_fixed s :
  match s with [] => True | c :: _ => is_whitespace c = false end ->
  trimStart s = s.
Proof. destruct s as [|c s]; simpl; [done|]. by intros ->. Qed.

Lemma trimStart_idem s : trimStart (trimStart s) = trimStart s.
Proof. apply trimStart_fixed, trimStart_head. Qed.

Lemma trimStart_suffix s : exists p, s = p ++ trimStart s /\ forallb is_whitespace p = true.
Proof.
  induction s as [|c s [p [Hp Hw]]]; simpl.
  - by exists [].
  - destruct (is_whitespace c) eqn:Hc.
    + exists (c :: p). simpl. rewrite Hc, Hw. split; [by f_equal|done].
    + by exists [].
Qed.

Lemma filter_index_elem {A} (keep : nat -> bool) (i : nat) (l : list A) (x : A) :
  x ∈ filter_index keep i l -> x ∈ l.
Proof.
  revert i. induction l as [|y l IH]; intros i; simpl; [done|].
  destruct (keep i); rewrite ?elem_of_cons; intros H; [|right; by eapply IH].
  destruct H as [->|H]; [by left|right; by eapply IH].
Qed.

Lemma elem_of_rev {A} (x : A) (l : list A) : x ∈ rev l <-> x ∈ l.
Proof. rewrite !list_elem_of_In. symmetry. apply in_rev. Qed.

(** [split(/\r?\n/)] cuts at every line feed: no segment holds one, and
    there is one segment more than there are line feeds. *)
Lemma split_lines_from_cons (cur : jsstring) (c : N) (s : jsstring) :
  split_lines_from cur (c :: s) =
    if (c =? LF)%N then rev cur :: split_lines_from [] s
    else
      match s with
      | d :: s'' =>
          if (c =? CR)%N && (d =? LF)%N
          then rev cur :: split_lines_from [] s''
          else split_lines_from (c :: cur) s
      | [] => split_lines_from (c :: cur) s
      end.
Proof. done. Qed.

Lemma split_lines_from_spec (n : nat) (s cur : jsstring) :
  (length s <= n)%nat -> LF ∉ cur ->
  Forall (fun line => LF ∉ line) (split_lines_from cur s) /\
  length (split_lines_from cur s) = S (length (filter (fun c => c = LF) s)).
Proof.
  revert s cur. induction n as [|n IH]; intros s cur Hlen Hcur.
  - destruct s; [|simpl in Hlen; lia]. simpl. split; [|done].
    constructor; [|constructor]. by rewrite elem_of_rev.
  - destruct s as [|c s].
    { simpl. split; [|done]. constructor; [|constructor]. by rewrite elem_of_rev. }
    rewrite split_lines_from_cons. simpl in Hlen.
    destruct (N.eqb_spec c LF) as [->|Hc].
    + destruct (IH s [] ltac:(lia) ltac:(apply not_elem_of_nil)) as [Hall Hcount].
      rewrite filter_cons_True by done. cbn [length]. rewrite Hcount.
      split; [|done]. constructor; [by rewrite elem_of_rev|done].
    + rewrite filter_cons_False by done.
      assert (LF ∉ c :: cur) as Hcur'.
      { apply not_elem_of_cons. split; [congruence|done]. }
      destruct s as [|d s'].
      * apply IH; [simpl; lia|done].
      * destruct ((c =? CR)%N && (d =? LF)%N) eqn:Hcr.
        -- apply andb_true_iff in Hcr as [_ Hd]. apply N.eqb_eq in Hd. subst d.
           simpl in Hlen.
           destruct (IH s' [] ltac:(lia) ltac:(apply not_elem_of_nil)) as [Hall Hcount].
           rewrite filter_cons_True by done. cbn [length]. rewrite Hcount.
           split; [|done]. constructor; [by rewrite elem_of_rev|done].
        -- apply IH; [simpl in *; lia|done].
Qed.

Lemma split_lines_spec (text : jsstring) :
  Forall (fun line => LF ∉ line) (split_lines text) /\
  length (split_lines text) = S (length (filter (fun c => c = LF) text)).
Proof. apply (split_lines_from_spec (length text)); [done|apply not_elem_of_nil]. Qed.

End JSFacts.

(* ===================================================================== *)
(** * Properties of the quiz generation form *)
(* ===================================================================== *)

Module QuizGeneratorProofs.
Import QuizGenerator JSFacts Spec.

Lemma trimEnd_idem s : trimEnd (trimEnd s) = trimEnd s.
Proof. unfold trimEnd. by rewrite rev_involutive, trimStart_idem. Qed.

Lemma trimEnd_prefix s : exists p, s = trimEnd s ++ p.
Proof.
  destruct (trimStart_suffix (rev s)) as [p [Hp _]].
  exists (rev p). unfold trimEnd. rewrite <- rev_app_distr, <- Hp.
  by rewrite rev_involutive.
Qed.

Lemma trim_idem s : trim (trim s) = trim s.
Proof.
  unfold trim. set (t := trimStart s).
  assert (trimStart (trimEnd t) = trimEnd t) as ->; [|apply trimEnd_idem].
  apply trimStart_fixed.
  destruct (trimEnd_prefix t) as [p Hp].
  pose proof (trimStart_head s) as Hh. fold t in Hh.
  destruct (trimEnd t) as [|c r]; [done|].
  rewrite Hp in Hh. exact Hh.
Qed.

(** Every candidate is a trimmed, non-empty line of the text. *)
Lemma parseUrlsFromText_elem text u :
  u ∈ parseUrlsFromText text <->
  u <> [] /\ exists line, line ∈ split_lines text /\ u = trim line.
Proof.
  unfold parseUrlsFromText. rewrite list_elem_of_filter, list_elem_of_fmap.
  split.
  - intros [Hu [line [-> Hl]]]. split; [by destruct (trim line)|eauto].
  - intros [Hu [line [Hl ->]]]. split; [by destruct (trim line)|eauto].
Qed.

Lemma parseUrlsFromText_trimmed text u :
  u ∈ parseUrlsFromText text -> trim u = u.
Proof.
  rewrite parseUrlsFromText_elem. intros [_ [line [_ ->]]]. apply trim_idem.
Qed.

(** What [addUrlsToList] does, in closed form. *)
Lemma addUrlsToList_state URL s :
  urlsList (state_after (addUrlsToList URL) s) =
    Array_from_Set
      (urlsList s ++
       filter (fun u => validateUrl URL u = true) (parseUrlsFromText (urlsText s))) /\
  urlsText (state_after (addUrlsToList URL) s) = [].
Proof.
  unfold state_after, run, addUrlsToList, toast, bind, get, modify, emit, ret.
  by repeat case_match; simplify_eq/=.
Qed.

Lemma addUrlsToList_trace URL s :
  let parsed := parseUrlsFromText (urlsText s) in
  let dropped := length (filter (fun p => negb (validateUrl URL p) = true) parsed) in
  List.filter is_validation_toast (trace_of (addUrlsToList URL) s) =
    if (0 <? dropped)%nat then [dropped_report dropped] else [].
Proof.
  unfold trace_of, run, addUrlsToList, toast, bind, get, modify, emit, ret.
  simpl. by repeat case_match; simplify_eq/=.
Qed.

Lemma dropped_count {A} (P : A -> bool) (l : list A) :
  (length (filter (fun p => negb (P p) = true) l)
   + length (filter (fun p => P p = true) l) = length l)%nat.
Proof.
  induction l as [|x l IH]; [done|].
  rewrite !filter_cons. destruct (P x); simpl; repeat case_decide; simpl; try done; lia.
Qed.

Lemma accumulate_snoc URL history a :
  accumulate URL (history ++ [a]) = apply_action URL (accumulate URL history) a.
Proof. unfold accumulate. by rewrite fold_left_app. Qed.

Lemma intake_elem URL text s u :
  u ∈ urlsList (intake URL text s) <->
  u ∈ urlsList s \/ (u ∈ parseUrlsFromText text /\ validateUrl URL u = true).
Proof.
  unfold intake. destruct (addUrlsToList_state URL (setUrlsText text s)) as [-> _].
  rewrite Array_from_Set_elem, elem_of_app, list_elem_of_filter. simpl. tauto.
Qed.

(** Every entry of the list passed validation when it was added. *)
Lemma accumulate_valid URL history :
  Forall (fun u => validateUrl URL u = true) (urlsList (accumulate URL history)).
Proof.
  induction history as [|a history IH] using rev_ind; [by constructor|].
  rewrite accumulate_snoc. apply Forall_forall. intros u Hu.
  rewrite Forall_forall in IH.
  destruct a as [text|idx|]; simpl in Hu.
  - apply intake_elem in Hu as [Hu|[_ Hu]]; [by apply IH|done].
  - apply filter_index_elem in Hu. by apply IH.
  - by apply elem_of_nil in Hu.
Qed.

(** *** The code against the words of the specification *)

Lemma startsWith_take (p s : jsstring) : startsWith p s = true <-> take (length p) s = p.
Proof.
  revert s. induction p as [|a p IH]; intros s; [done|].
  destruct s as [|b s]; [done|]. cbn [startsWith length take].
  rewrite andb_true_iff, N.eqb_eq, IH. split.
  - by intros [-> ->].
  - by intros [= -> ->].
Qed.

Lemma includes_drop (p s : jsstring) :
  includes p s = true <-> exists k, startsWith p (drop k s) = true.
Proof.
  induction s as [|c s IH].
  - cbn [includes]. rewrite orb_false_r. split.
    + intros H. by exists 0%nat.
    + intros [k Hk]. by rewrite drop_nil in Hk.
  - cbn [includes]. rewrite orb_true_iff, IH. split.
    + intros [H|[k Hk]]; [by exists 0%nat|by exists (S k)].
    + intros [[|k] Hk]; [by left|right; by exists k].
Qed.

Lemma includes_has_scheme (u : jsstring) : includes (lit "://") u = has_scheme u.
Proof.
  apply Bool.eq_iff_eq_true. unfold has_scheme.
  rewrite includes_drop, bool_decide_eq_true, Exists_exists. split.
  - intros [k Hk]. apply startsWith_take in Hk. exists k. split; [|exact Hk].
    apply elem_of_seq. split; [lia|].
    destruct (decide (k < length u)%nat) as [?|Hge]; [lia|].
    rewrite drop_ge in Hk by lia. by vm_compute in Hk.
  - intros [k [_ Hk]]. exists k. by apply startsWith_take.
Qed.

Lemma validateUrl_acceptable URL (u : jsstring) : validateUrl URL u = acceptable URL u.
Proof. unfold validateUrl, acceptable, with_scheme. by rewrite includes_has_scheme. Qed.

Lemma lines_cons (text : jsstring) : exists line more, lines text = line :: more.
Proof.
  induction text as [|c text (line & more & IH)]; [by eexists _, _|].
  cbn [lines]. case_bool_decide; [by eexists _, _|]. rewrite IH. by eexists _, _.
Qed.

(** The segments that [split(/\r?\n/)] gives are the lines, each as it
    is or without the carriage return at its end. *)
Lemma split_lines_from_lines (n : nat) (s cur : jsstring) :
  (length s <= n)%nat ->
  Forall2 (fun line piece => piece = line \/ line = piece ++ [CR])
    (match lines s with line :: more => (rev cur ++ line) :: more | [] => [] end)
    (split_lines_from cur s).
Proof.
  revert s cur. induction n as [|n IH]; intros s cur Hlen.
  { destruct s; [|simpl in Hlen; lia]. simpl. rewrite app_nil_r.
    constructor; [by left|constructor]. }
  destruct s as [|c s].
  { simpl. rewrite app_nil_r. constructor; [by left|constructor]. }
  rewrite split_lines_from_cons. simpl in Hlen. cbn [lines].
  destruct (N.eqb_spec c LF) as [->|Hc].
  - rewrite bool_decide_eq_true_2 by done. rewrite app_nil_r.
    constructor; [by left|].
    specialize (IH s [] ltac:(lia)).
    destruct (lines_cons s) as (line & more & Hs). by rewrite Hs in IH |- *.
  - rewrite bool_decide_eq_false_2 by done.
    destruct s as [|d s'].
    + specialize (IH [] (c :: cur) ltac:(simpl; lia)). cbn [lines] in IH |- *.
      cbn [rev] in IH. by rewrite <- app_assoc in IH.
    + destruct ((c =? CR)%N && (d =? LF)%N) eqn:Hcr.
      * apply andb_true_iff in Hcr as [Hcc Hd].
        apply N.eqb_eq in Hcc. apply N.eqb_eq in Hd. subst c d.
        cbn [lines]. rewrite bool_decide_eq_true_2 by done.
        constructor; [by right|].
        simpl in Hlen. specialize (IH s' [] ltac:(lia)).
        destruct (lines_cons s') as (line & more & Hs). by rewrite Hs in IH |- *.
      * specialize (IH (d :: s') (c :: cur) ltac:(simpl in *; lia)).
        destruct (lines_cons (d :: s')) as (line & more & Hs).
        rewrite Hs in IH |- *. cbn [rev] in IH. by rewrite <- app_assoc in IH.
Qed.

Lemma forallb_blank (p : jsstring) : forallb is_whitespace p = true -> Forall blank p.
Proof. intros H. apply Forall_forall. intros c Hc. rewrite forallb_forall in H.
  apply H. by apply list_elem_of_In. Qed.

Lemma last_rev_head {A} (l : list A) : last (rev l) = head l.
Proof. destruct l as [|x l]; [done|]. simpl. by rewrite last_snoc. Qed.

Lemma trimmed_of_trim (line : jsstring) : trimmed_of line (trim line).
Proof.
  unfold trim. set (t := trimStart line).
  destruct (trimStart_suffix line) as (p & Hp & Hpw). fold t in Hp.
  destruct (trimStart_suffix (rev t)) as (q & Hq & Hqw).
  assert (t = trimEnd t ++ rev q) as Ht.
  { unfold trimEnd. rewrite <- rev_app_distr, <- Hq. by rewrite rev_involutive. }
  exists p, (rev q). split_and!.
  - by rewrite <- Ht.
  - by apply forallb_blank.
  - apply forallb_blank. rewrite forallb_forall in Hqw |- *.
    intros c Hc. apply Hqw. by apply in_rev.
  - intros c Hc. pose proof (trimStart_head line) as Hh. fold t in Hh.
    rewrite Ht in Hh. destruct (trimEnd t) as [|c' r]; [done|].
    injection Hc as ->. unfold blank. simpl in Hh. congruence.
  - intros c Hc. unfold trimEnd in Hc. rewrite last_rev_head in Hc.
    pose proof (trimStart_head (rev t)) as Hh.
    destruct (trimStart (rev t)) as [|c' r]; [done|].
    injection Hc as ->. unfold blank. congruence.
Qed.

Lemma trimmed_of_piece (line piece : jsstring) :
  piece = line \/ line = piece ++ [CR] -> trimmed_of line (trim piece).
Proof.
  intros [->| ->]; [apply trimmed_of_trim|].
  destruct (trimmed_of_trim piece) as (pre & post & Hp & Hpre & Hpost & Hh & Hl).
  exists pre, (post ++ [CR]). split_and!; try done.
  - rewrite Hp at 1. by rewrite <- !app_assoc.
  - apply Forall_app. split; [done|]. by apply Forall_singleton.
Qed.

(** The candidates are the trimmed lines that are not empty. *)
Lemma parseUrlsFromText_lines (text : jsstring) :
  exists trimmed,
    Forall2 trimmed_of (lines text) trimmed /\
    parseUrlsFromText text = filter (fun u => u <> []) trimmed.
Proof.
  exists (trim <$> split_lines text). split.
  - apply Forall2_fmap_r.
    pose proof (split_lines_from_lines (length text) text [] ltac:(lia)) as H.
    destruct (lines_cons text) as (line & more & Hs). rewrite Hs in H |- *.
    eapply Forall2_impl; [exact H|]. intros l piece. apply trimmed_of_piece.
  - unfold parseUrlsFromText. apply list_filter_iff. intros u. by destruct u.
Qed.

Lemma filter_acceptable URL (l : list jsstring) :
  filter (fun u => validateUrl URL u = true) l
  = List.filter (acceptable URL) l /\
  filter (fun p => negb (validateUrl URL p) = true) l
  = List.filter (fun u => negb (acceptable URL u)) l.
Proof.
  induction l as [|u l [IH1 IH2]]; [done|].
  rewrite !filter_cons. cbn [List.filter]. rewrite IH1, IH2.
  rewrite <- validateUrl_acceptable.
  destruct (validateUrl URL u); simpl; by repeat case_decide.
Qed.



Lemma clamp_bounds v : 1 <= Z.min maxQuestions (Z.max 1 v) <= 50.
Proof. unfold maxQuestions. lia. Qed.

(** C4. Question count: the default is 15, and whatever is typed into
    the input the stored count lies in [1, 50]; "999" gives 50, "0" and
    the empty input give 1. *)
Theorem question_count_clamped :
  questionCount initial = 15 /\
  (forall (value : jsstring) (s : State),
      1 <= questionCount (state_after (onQuestionCountChange value) s) <= 50) /\
  questionCount (state_after (onQuestionCountChange (lit "999")) initial) = 50 /\
  questionCount (state_after (onQuestionCountChange (lit "0")) initial) = 1 /\
  questionCount (state_after (onQuestionCountChange (lit "")) initial) = 1.
Proof.
  split_and!; try reflexivity.
  intros value s. apply clamp_bounds.
Qed.

Ltac run_handler :=
  unfold trace_of, state_after, run, handleGenerateQuiz, toast,
    bind, get, modify, emit, await, try_catch, try_finally, ret, throw.

Lemma no_sources_test (s : State) :
  (length (urlsList s) =? 0)%nat && (length (files s) =? 0)%nat = negb (hasContent s).
Proof. unfold hasContent. by destruct (urlsList s), (files s). Qed.

Lemma selectedTypes_empty (q : QuestionTypes) :
  (length (selectedTypes q) =? 0)%nat = negb (mcq q || tf q || short q || long q).
Proof. by destruct q as [[] [] [] []]. Qed.

(** Without a source or without a question type the handler shows one
    validation toast and does nothing else. *)
Lemma handleGenerateQuiz_blocked generateQuiz toLocaleString (s : State) :
  hasContent s && hasQuestionTypes s = false ->
  exists t s',
    run (handleGenerateQuiz generateQuiz toLocaleString) s = (Normal tt, s', [EToast t]) /\
    destructive t = true /\ form_intact s s'.
Proof.
  destruct s as [qc [m t sh l] d ut ul fl ld].
  unfold hasContent, hasQuestionTypes, form_intact. simpl.
  destruct ul as [|u ul], fl as [|f fl]; simpl;
    try (destruct m, t, sh, l; simpl; try discriminate);
    intros _; run_handler; simpl; eauto 10.
Qed.

(** With a source and a question type the handler sends one request and
    then acts on how it settles. *)
Lemma handleGenerateQuiz_unblocked generateQuiz toLocaleString (s : State) :
  hasContent s && hasQuestionTypes s = true ->
  exists payload multipart,
    p_urls payload = urlsList s /\
    p_num_questions payload = questionCount s /\
    multipart = (0 <? length (files s))%nat /\
    run (handleGenerateQuiz generateQuiz toLocaleString) s =
      match generateQuiz [] payload multipart with
      | inl err =>
          (Normal tt, setLoading false (setLoading true s),
           [EGenerateQuiz payload multipart;
            EConsoleError (lit "Generate quiz error:") err;
            EToast (generation_failed err)])
      | inr r =>
          if truthy (extract_testId r) then
            (Normal tt,
             setLoading false
               (setUrlsText [] (setFiles (fun _ => [])
                  (setUrlsList (fun _ => []) (setLoading true s)))),
             [EGenerateQuiz payload multipart; EToast generated;
              ENavigate (lit "/take-quiz/" ++ ToString (extract_testId r))])
          else
            (Normal tt, setLoading false (setLoading true s),
             [EGenerateQuiz payload multipart;
              EConsoleError (lit "Generate quiz error:") no_test_id;
              EToast (generation_failed no_test_id)])
      end.
Proof.
  intros Hok.
  exists (mkPayload (files s) (urlsList s) (questionCount s)
            (typeMapping <$> selectedTypes (questionTypes s)) (difficulty s)
            (lit "Quiz - " ++ toLocaleString [])),
         (0 <? length (files s))%nat.
  split_and!; try reflexivity.
  apply andb_true_iff in Hok as [Hsrc Hty].
  run_handler. cbv beta iota.
  rewrite (no_sources_test s), Hsrc. cbv beta iota.
  rewrite selectedTypes_empty. fold (hasQuestionTypes s). rewrite Hty.
  cbn [negb]. cbv beta iota.
  destruct (files s) as [|f fl]; cbn [length Nat.ltb Nat.leb]; cbv beta iota;
    (destruct (generateQuiz [] _ _) as [e|r]; cbv beta iota;
     [reflexivity|destruct (truthy (extract_testId r)); reflexivity]).
Qed.

(** C5. Generation guard: with no source (no URL and no file) or no
    enabled question type, generate() sends no request and shows a
    validation message; with at least one source and one enabled type it
    sends the generation request, and the button is enabled unless a
    request is already running. *)
Theorem generate_requires_source_and_type
    (generateQuiz : list Event -> Payload -> bool -> jserror + Response)
    (toLocaleString : list Event -> jsstring) (s : State) :
  let tr := trace_of (handleGenerateQuiz generateQuiz toLocaleString) s in
  if hasContent s && hasQuestionTypes s
  then (exists payload multipart,
          List.filter is_request tr = [EGenerateQuiz payload multipart])
       /\ canGenerate s = negb (loading s)
  else List.filter is_request tr = [] /\
       exists t, tr = [EToast t] /\ destructive t = true.
Proof.
  intros tr. subst tr. unfold trace_of, canGenerate.
  destruct (hasContent s && hasQuestionTypes s) eqn:Hok.
  - destruct (handleGenerateQuiz_unblocked generateQuiz toLocaleString s Hok)
      as (payload & multipart & _ & _ & _ & ->).
    split; [|done]. exists payload, multipart.
    destruct (generateQuiz [] payload multipart) as [e|r]; [done|].
    by destruct (truthy (extract_testId r)).
  - destruct (handleGenerateQuiz_blocked generateQuiz toLocaleString s Hok)
      as (t & s' & -> & Ht & _).
    simpl. eauto.
Qed.

Lemma first_present_extract (r : Response) :
  match first_present r with
  | Some v => extract_testId r = v /\ truthy v = true
  | None => truthy (extract_testId r) = false
  end.
Proof.
  unfold first_present, extract_testId, or_else.
  destruct (data r) as [[a b c]|]; simpl; [|done].
  destruct (truthy a) eqn:Ha; [by rewrite Ha|].
  destruct (truthy b) eqn:Hb; [by rewrite Hb|].
  destruct (truthy c) eqn:Hc; by rewrite ?Hb, ?Hc.
Qed.

(** C6. After generation: when the request has been sent and succeeds,
    the identifier is the first usable value among test_id, quiz_id and
    id, in that order, and the handler navigates to the quiz-taking view
    of that identifier and clears the form; when no field has one, it
    fails with the generic error.  On every failure (no identifier, a
    failed request, a form that did not pass validation) there is no
    navigation, and the URL list, the file list and the URL text are as
    they were. *)
Theorem generate_extracts_test_id
    (generateQuiz : list Event -> Payload -> bool -> jserror + Response)
    (toLocaleString : list Event -> jsstring) (s : State) :
  let s' := state_after (handleGenerateQuiz generateQuiz toLocaleString) s in
  let tr := trace_of (handleGenerateQuiz generateQuiz toLocaleString) s in
  if hasContent s && hasQuestionTypes s then
    exists payload multipart,
      List.filter is_request tr = [EGenerateQuiz payload multipart] /\
      match generateQuiz [] payload multipart with
      | inr r =>
          match first_present r with
          | Some testId =>
              List.filter is_navigation tr =
                [ENavigate (lit "/take-quiz/" ++ ToString testId)] /\
              form_cleared s'
          | None =>
              List.filter is_navigation tr = [] /\
              List.filter is_validation_toast tr =
                [EToast (generation_failed no_test_id)] /\
              form_intact s s'
          end
      | inl err =>
          List.filter is_navigation tr = [] /\
          List.filter is_validation_toast tr = [EToast (generation_failed err)] /\
          form_intact s s'
      end
  else List.filter is_navigation tr = [] /\ form_intact s s'.
Proof.
  intros s' tr. subst s' tr. unfold trace_of, state_after.
  destruct (hasContent s && hasQuestionTypes s) eqn:Hready.
  - destruct (handleGenerateQuiz_unblocked generateQuiz toLocaleString s Hready)
      as (payload & multipart & _ & _ & _ & ->).
    exists payload, multipart.
    destruct (generateQuiz [] payload multipart) as [e|r]; [done|].
    pose proof (first_present_extract r) as Hfp.
    destruct (first_present r) as [v|].
    + destruct Hfp as [-> ->]. done.
    + rewrite Hfp. done.
  - destruct (handleGenerateQuiz_blocked generateQuiz toLocaleString s Hready)
      as (t & s1 & -> & _ & Hintact).
    done.
Qed.

Lemma generate_extracts_test_id_witness :
  exists payload multipart,
    List.filter is_request
      (trace_of (handleGenerateQuiz answers_quiz_id (fun _ => lit "1/1/2025"))
                one_url_one_type)
    = [EGenerateQuiz payload multipart] /\
    List.filter is_navigation
      (trace_of (handleGenerateQuiz answers_quiz_id (fun _ => lit "1/1/2025"))
                one_url_one_type)
    = [ENavigate (lit "/take-quiz/q7")].
Proof.
  destruct (generate_extracts_test_id answers_quiz_id (fun _ => lit "1/1/2025")
              one_url_one_type)
    as (payload & multipart & Hreq & Hnav & _).
  exists payload, multipart. split; [exact Hreq|exact Hnav].
Defined.

End QuizGeneratorProofs.

(* ===================================================================== *)
(** * Properties of the quiz-taking page *)
(* ===================================================================== *)

Module TakeQuizProofs.
Import TakeQuiz JSFacts Spec.

(** ** Answers *)

Lemma split_comma_from_app x cur rest :
  COMMA ∉ x ->
  split_comma_from cur (x ++ rest) = split_comma_from (rev x ++ cur) rest.
Proof.
  revert cur. induction x as [|c x IH]; intros cur Hx; simpl; [done|].
  apply not_elem_of_cons in Hx as [Hc Hx].
  destruct (N.eqb_spec c COMMA) as [->|_]; [done|].
  rewrite IH by done. by rewrite <- app_assoc.
Qed.

Lemma split_join (l : list jsstring) :
  l <> [] -> Forall (fun k => COMMA ∉ k) l -> split_comma (join_comma l) = l.
Proof.
  unfold split_comma.
  induction l as [|x l IH]; [done|]. intros _ Hl.
  apply Forall_cons in Hl as [Hx Hl].
  destruct l as [|y l].
  - simpl. rewrite <- (app_nil_r x) at 1. rewrite split_comma_from_app by done.
    simpl. by rewrite app_nil_r, rev_involutive.
  - change (join_comma (x :: y :: l)) with (x ++ COMMA :: join_comma (y :: l)).
    rewrite split_comma_from_app by done. simpl.
    rewrite app_nil_r, rev_involutive. f_equal. by apply IH.
Qed.

Lemma join_truthy (l : list jsstring) :
  l <> [] -> Forall (fun k => k <> []) l -> truthy_str (join_comma l) = true.
Proof.
  destruct l as [|x l]; [done|]. intros _ Hl.
  apply Forall_cons in Hl as [Hx _].
  destruct l; simpl; by destruct x.
Qed.

(** Reading back what [join] stored gives the list that was joined. *)
Lemma selections_of_join (l : list jsstring) :
  Forall valid_key l ->
  (if truthy_str (join_comma l) then split_comma (join_comma l) else []) = l.
Proof.
  intros Hl. destruct l as [|x l]; [done|].
  rewrite join_truthy, split_join; try done.
  - eapply Forall_impl; [exact Hl|]. by intros k [_ ?].
  - eapply Forall_impl; [exact Hl|]. by intros k [? _].
Qed.

Lemma currentSelections_set (s : State) (v : jsstring) :
  currentSelections (setAnswers (fun prev => <[currentQuestion s := v]> prev) s) =
  if truthy_str v then split_comma v else [].
Proof.
  unfold currentSelections, answer_or_empty. simpl. by rewrite lookup_insert_eq.
Qed.

(** C7. Answers: answer(value) stores [value] as the answer of the
    current question and leaves every other index as it was.  On a
    multi-select question, checking an option appends its key to the
    selected keys and unchecking removes it; the stored answer is the
    comma-joined list of those keys, one string, and every other index is
    as it was.  When the option keys are non-empty and free of commas,
    the selection read back from the stored answer is that list, and the
    checkbox of the option shows the new state. *)
Theorem answer_overwrites_one_index
    (s : State) (value key : jsstring) (checked : bool) :
  (let s' := handleAnswerChange s value s in
   answers s' !! currentQuestion s = Some value /\
   forall j, j <> currentQuestion s -> answers s' !! j = answers s !! j) /\
  (let s' := handleMultiSelectChange s key checked s in
   let selected :=
     if checked then currentSelections s ++ [key]
     else filter (fun sel => sel <> key) (currentSelections s) in
   answers s' !! currentQuestion s = Some (join_comma selected) /\
   (forall j, j <> currentQuestion s -> answers s' !! j = answers s !! j) /\
   (valid_key key -> Forall valid_key (currentSelections s) ->
    currentSelections s' = selected /\ is_checked s' key = checked)).
Proof.
  split.
  - simpl. split; [apply lookup_insert_eq|].
    intros j Hj. by rewrite lookup_insert_ne.
  - cbv zeta.
    set (new := if checked then currentSelections s ++ [key]
                else filter (fun sel => sel <> key) (currentSelections s)).
    split_and!.
    + unfold handleMultiSelectChange. fold new. simpl. apply lookup_insert_eq.
    + intros j Hj. unfold handleMultiSelectChange. simpl. by rewrite lookup_insert_ne.
    + intros Hkey Hselected.
      assert (Forall valid_key new) as Hnew.
      { subst new. destruct checked.
        - apply Forall_app. split; [done|]. by constructor.
        - apply Forall_forall. intros k Hk.
          apply list_elem_of_filter in Hk as [_ Hk].
          by eapply Forall_forall in Hselected. }
      assert (currentSelections (handleMultiSelectChange s key checked s) = new) as Hsel.
      { unfold handleMultiSelectChange. fold new.
        rewrite currentSelections_set. by apply selections_of_join. }
      split; [done|].
      unfold is_checked. rewrite Hsel. subst new. destruct checked.
      * apply bool_decide_eq_true. apply elem_of_app. right. by left.
      * apply bool_decide_eq_false. rewrite list_elem_of_filter. tauto.
Qed.

Lemma comma_free_A : valid_key (lit "A").
Proof.
  split; [discriminate|]. intros H.
  by repeat (inversion H as [|? ? ? H']; subst; clear H; rename H' into H).
Qed.

Lemma comma_free_B : valid_key (lit "B").
Proof.
  split; [discriminate|]. intros H.
  by repeat (inversion H as [|? ? ? H']; subst; clear H; rename H' into H).
Qed.

Lemma comma_free_C : valid_key (lit "C").
Proof.
  split; [discriminate|]. intros H.
  by repeat (inversion H as [|? ? ? H']; subst; clear H; rename H' into H).
Qed.

Lemma two_checked_valid : Forall valid_key (currentSelections two_checked).
Proof.
  change (currentSelections two_checked) with [lit "A"; lit "B"].
  apply Forall_cons. split; [apply comma_free_A|].
  apply Forall_cons. split; [apply comma_free_B|]. constructor.
Qed.

Lemma answer_overwrites_one_index_witness :
  valid_key (lit "C") /\
  Forall valid_key (currentSelections two_checked) /\
  currentSelections (handleMultiSelectChange two_checked (lit "C") true two_checked)
  = currentSelections two_checked ++ [lit "C"].
Proof.
  split_and!; [apply comma_free_C|apply two_checked_valid|].
  exact (proj1 (proj2 (proj2 (proj2
           (answer_overwrites_one_index two_checked (lit "x") (lit "C") true)))
           comma_free_C two_checked_valid)).
Defined.

(** ** The countdown *)

(** Mounting starts the clock at [estimated_time * 60] seconds and sets
    the interval. *)
Lemma mount_starts_clock (td : TestData) :
  estimated_time td <> 0 ->
  st (mount td) = setTimeRemaining (Some (estimated_time td * 60)) initial /\
  (0 < estimated_time td -> timer (mount td) = Some (st (mount td))).
Proof.
  intros Het. unfold mount, commit, countdown_effect. simpl.
  destruct (Z.eqb_spec (estimated_time td) 0) as [?|_]; [done|]. simpl.
  split; [done|]. intros Hpos.
  destruct (Z.leb_spec (estimated_time td * 60) 0); [lia|done].
Qed.

(** A tick with more than a second left takes exactly one second off,
    submits nothing, and restarts the interval in the new render. *)
Lemma tick_decrements (td : TestData) (c : Component) (scope : State) (t : Z) :
  timer c = Some scope ->
  timeRemaining (st c) = Some t -> 1 < t -> isSubmitted (st c) = false ->
  step td c Tick =
    ({| st := setTimeRemaining (Some (t - 1)) (st c);
        timer := Some (setTimeRemaining (Some (t - 1)) (st c)) |}, []).
Proof.
  intros Htimer Ht Hlt Hsub. unfold step, on_interval. rewrite Htimer, Ht.
  destruct (Z.leb_spec t 1); [lia|].
  unfold commit, countdown_effect. simpl. rewrite Ht, Hsub.
  rewrite bool_decide_eq_false_2 by (intros [[=] _]; lia).
  destruct (Z.leb_spec (t - 1) 0); [lia|done].
Qed.

(** The tick at one second left sets the clock to zero, runs the
    [handleAutoSubmit] of the interval's render, and clears the interval. *)
Lemma tick_expires (td : TestData) (c : Component) (scope : State) :
  timer c = Some scope ->
  timeRemaining (st c) = Some 1 ->
  step td c Tick =
    ({| st := setTimeRemaining (Some 0) (st c); timer := None |},
     handleAutoSubmit scope).
Proof.
  intros Htimer Ht. unfold step, on_interval. rewrite Htimer, Ht. simpl.
  unfold commit, countdown_effect. simpl. rewrite Ht.
  by rewrite bool_decide_eq_false_2 by (intros [[=] _]).
Qed.

(** Once the clock is at zero there is no interval: ticks are over. *)
Lemma no_tick_without_interval (td : TestData) (c : Component) :
  timer c = None -> step td c Tick = (c, []).
Proof. intros Htimer. unfold step. by rewrite Htimer. Qed.

(** With nothing else happening, [n + 1] seconds on the clock run down in
    [n + 1] ticks to one automatic submission of the current answers. *)
Lemma countdown_runs_out (td : TestData) (n : nat) (c : Component) :
  timer c = Some (st c) ->
  isSubmitted (st c) = false ->
  timeRemaining (st c) = Some (Z.of_nat (S n)) ->
  run td c (replicate (S n) Tick) =
    ({| st := setTimeRemaining (Some 0) (st c); timer := None |},
     [EToast times_up; ESubmit (answers (st c))]).
Proof.
  revert c. induction n as [|n IH]; intros c Htimer Hsub Ht.
  - cbn [replicate run]. rewrite (tick_expires td c (st c)) by done.
    unfold handleAutoSubmit, handleSubmit. by rewrite Hsub.
  - change (replicate (S (S n)) Tick) with (Tick :: replicate (S n) Tick).
    cbn [run].
    rewrite (tick_decrements td c (st c) (Z.of_nat (S (S n)))) by (done || lia).
    rewrite IH; simpl; [done|done|done|f_equal; lia].
Qed.

(** From a fresh page and with no interaction at all, the countdown of a
    test with a positive estimated time ends after [estimated_time * 60]
    ticks in exactly one submission, of the empty answer map. *)
Lemma timer_auto_submits_once (td : TestData) :
  0 < estimated_time td ->
  exists c,
    run td (mount td) (replicate (Z.to_nat (estimated_time td * 60)) Tick) =
      (c, [EToast times_up; ESubmit ∅]) /\
    timeRemaining (st c) = Some 0 /\ timer c = None.
Proof.
  intros Hpos.
  destruct (mount_starts_clock td) as [Hst Htimer]; [lia|].
  specialize (Htimer Hpos).
  destruct (Z.to_nat (estimated_time td * 60)) as [|n] eqn:Hn; [lia|].
  eexists. rewrite (countdown_runs_out td n (mount td)); [|done| |].
  - rewrite Hst. simpl. done.
  - by rewrite Hst.
  - rewrite Hst. simpl. f_equal. lia.
Qed.

(** C2, at the input where it fails: a one-minute test, 59 ticks, then
    the first question is answered "A" within the last second, then the
    last tick.  One automatic submission is sent, and it carries the empty
    answer map although the answer map then holds the answer "A": the
    interval still calls the [handleAutoSubmit] of the render of the 59th
    tick. *)
Theorem auto_submit_misses_last_second_answer :
  exists c evs,
    run one_minute_quiz (mount one_minute_quiz) last_second_answer = (c, evs) /\
    timeRemaining (st c) = Some 0 /\
    answers (st c) = {[ 0 := lit "A" ]} /\
    submissions evs = [∅].
Proof.
  eexists _, _. split; [vm_compute; reflexivity|].
  split_and!; reflexivity.
Qed.

(** The same answer given through the dialog is sent as it stands. *)
Lemma manual_submit_sends_current_answers (td : TestData) (c : Component) :
  snd (step td c ClickSubmit) = [ESubmit (answers (st c))].
Proof. done. Qed.

End TakeQuizProofs.

(* ===================================================================== *)
(** * Properties of the chat surfaces *)
(* ===================================================================== *)

Module ChatProofs.
Import Chat Spec.

Ltac run_chat :=
  unfold trace_of, state_after, run, sendMessage, clearChat, updateChatContext,
    api_clearChatHistory, api_sendChatMessage, api_updateChatContext, api_call,
    console_error, now, iso_now,
    bind, get, modify, emit, await, try_catch, try_finally, ret, throw.

(** [clearChat] in closed form. *)
Lemma clearChat_run post (s : State) :
  run (clearChat post) s =
    match post [] (clear_request s) with
    | inr _ => (Normal tt, setMessages (fun _ => []) s, [ERequest (clear_request s)])
    | inl e =>
        (Normal tt, s,
         [ERequest (clear_request s);
          EConsoleError (lit "Error clearing chat history:") e;
          EConsoleError (lit "Error clearing chat:") e])
    end.
Proof.
  run_chat. cbv beta iota. fold (clear_request s).
  by destruct (post [] (clear_request s)).
Qed.

(** C1, as stated, fails: the backend rejects the deletion and the local
    history still holds its message after clear(). *)
Lemma clear_keeps_history_when_deletion_fails :
  offline [] (clear_request chatting) = inl (Error (VStr (lit "Network Error"))) /\
  messages (state_after (clearChat offline) chatting) = [hello] /\
  messages (state_after (clearChat offline) chatting) <> [].
Proof. split_and!; [reflexivity|reflexivity|discriminate]. Qed.

(** C1, amended. clear() requests the deletion of the history of the
    current session, once; when the request succeeds the local message
    list is emptied; when it fails the failure is logged and the local
    message list is left as it was. *)
Theorem clear_empties_history_when_deletion_succeeds
    (post : list Event -> Request -> jserror + option Reply) (s : State) :
  let tr := trace_of (clearChat post) s in
  let s' := state_after (clearChat post) s in
  List.filter is_request tr = [ERequest (PostClear (header (sessionId s)))] /\
  match post [] (PostClear (header (sessionId s))) with
  | inr _ => messages s' = []
  | inl e => messages s' = messages s /\
             In (EConsoleError (lit "Error clearing chat:") e) tr
  end.
Proof.
  intros tr s'. subst tr s'. unfold trace_of, state_after.
  rewrite clearChat_run. unfold clear_request.
  destruct (post [] (PostClear (header (sessionId s)))) as [e|r]; simpl; [|done].
  split_and!; [done|done|]. right. right. by left.
Qed.

Lemma context_never_empty (c : ChatContext) : (0 <? Object_keys_length c)%nat = true.
Proof. unfold Object_keys_length. by destruct (folder_id c). Qed.

(** C8. sendMessage: on blank (white-space only) input, or while a send
    is in flight, nothing changes and nothing is sent.  Otherwise the
    context object, which is never empty, is pushed first; whether that
    push succeeds or fails (a failure is logged) the message request is
    sent next, exactly once; the history grows by the user message and by
    one assistant message, which is the reply when the send succeeded and
    the synthetic error message when it failed; and the in-flight flag is
    cleared. *)
Theorem send_message_best_effort
    (post : list Event -> Request -> jserror + option Reply)
    (Date_now : list Event -> N) (toISOString : list Event -> jsstring) (s : State) :
  let s' := state_after (sendMessage post Date_now toISOString) s in
  let tr := trace_of (sendMessage post Date_now toISOString) s in
  if negb (truthy_str (trim (inputMessage s))) || isLoading s
  then s' = s /\ tr = []
  else
    List.filter is_request tr = [ERequest (push_request s); ERequest (send_request s)] /\
    match post [] (push_request s) with
    | inl e => In (EConsoleError context_label e) tr
    | inr _ => True
    end /\
    isLoading s' = false /\
    exists u m,
      messages s' = messages s ++ [u; m] /\
      is_user_message (trim (inputMessage s)) u /\
      match replied (post (before_send post s) (send_request s)) with
      | Some r => is_reply_message r m
      | None => is_error_message m
      end.
Proof.
  intros s' tr. subst s' tr.
  destruct (negb (truthy_str (trim (inputMessage s))) || isLoading s) eqn:Hguard.
  - run_chat. cbv beta iota. by rewrite Hguard.
  - run_chat. cbv beta iota. rewrite Hguard, context_never_empty.
    cbv beta iota. unfold before_send, context_label.
    fold (push_request s). cbn [msg_text]. fold (send_request s).
    destruct (post [] (push_request s)) as [e|a]; cbv beta iota; cbn [app];
      (destruct (post _ (send_request s)) as [e2|[r|]]; cbv beta iota; cbn [app];
       (split_and!;
        [reflexivity
        |try exact I; cbn; tauto
        |reflexivity
        |eexists _, _; split_and!;
           [cbn; rewrite <- app_assoc; reflexivity|done|done]])).
Qed.

End ChatProofs.

(* ===================================================================== *)
(** * Properties of the results page *)
(* ===================================================================== *)

Module QuizResultsProofs.
Import QuizResults Spec.

Lemma saveScores_run fetch (s : State) :
  run (saveScores fetch) s =
    if bool_decide (selfScores s = ∅) then
      (Normal tt, s,
       [EToast {| title := lit "No scores to save";
                  description := Some (lit "Please rate some answers first.");
                  destructive := true |}])
    else run (updateScoresMutation fetch s (selfScores s)) s.
Proof.
  unfold run, saveScores, bind, get, toast, emit. cbv beta iota.
  case_bool_decide as Hempty.
  - rewrite Hempty. by rewrite map_size_empty.
  - destruct (size (selfScores s)) eqn:Hsize; [|done].
    by apply map_size_empty_iff in Hsize.
Qed.

(** C9. Saving self-scores: with an empty buffer the save action shows
    an error and sends nothing; otherwise it sends one request whose body
    is the whole buffered score map. *)
Theorem save_sends_whole_buffer
    (fetch : list Event -> jsstring -> gmap Z Z -> jserror + bool) (s : State) :
  let tr := trace_of (saveScores fetch) s in
  if bool_decide (selfScores s = ∅)
  then List.filter is_request tr = [] /\
       exists t, tr = [EToast t] /\ destructive t = true
  else List.filter is_request tr = [EUpdateScores (submissionId s) (selfScores s)].
Proof.
  intros tr. subst tr. unfold trace_of. rewrite saveScores_run.
  case_bool_decide as Hempty; [simpl; eauto|].
  unfold run, updateScoresMutation, bind, try_catch, await, toast, emit, throw.
  cbv beta iota.
  by destruct (fetch [] (submissionId s) (selfScores s)) as [e|[]].
Qed.

Lemma sum_effective_cons (scores : gmap Z Z) iq l :
  sum_effective scores (iq :: l) = effective_score scores iq.1 iq.2 + sum_effective scores l.
Proof. done. Qed.

(** The running totals after the loop, by what each question adds. *)
Lemma forEach_totals (scores : gmap Z Z) (qs : list QuestionResult) (acc : Totals) (i : Z) :
  let t := forEach scores acc i qs in
  let scored := List.filter (scored_subjective scores) (indexed i qs) in
  scoredQuestions t =
    scoredQuestions acc + Z.of_nat (length (List.filter is_objective qs))
    + Z.of_nat (length scored) /\
  totalScore t =
    totalScore acc + 100 * Z.of_nat (length (List.filter correct_objective qs))
    + sum_effective scores scored /\
  correctAnswers t =
    correctAnswers acc + Z.of_nat (length (List.filter correct_objective qs)).
Proof.
  revert acc i. induction qs as [|q qs IH]; intros acc i.
  - simpl. lia.
  - cbn [forEach indexed List.filter].
    specialize (IH (tally scores acc i q) (i + 1)). cbv zeta in IH.
    destruct IH as (IH1 & IH2 & IH3). cbv zeta.
    rewrite IH1, IH2, IH3. clear IH1 IH2 IH3.
    unfold tally, correct_objective, scored_subjective. cbn [fst snd].
    destruct (is_objective q); cbn [andb negb].
    + destruct (strict_eq (user_answer q) (correct_answer q));
        cbn [totalScore scoredQuestions correctAnswers length]; lia.
    + destruct (0 <? effective_score scores i q);
        rewrite ?sum_effective_cons;
        cbn [totalScore scoredQuestions correctAnswers length fst snd]; lia.
Qed.

(** A buffered score of 0 reads as no buffered score. *)
Lemma effective_score_zero (scores : gmap Z Z) (i k : Z) (q : QuestionResult) :
  effective_score (<[i := 0]> scores) k q = effective_score (delete i scores) k q.
Proof.
  unfold effective_score. f_equal.
  destruct (decide (i = k)) as [->|Hne].
  - by rewrite lookup_insert_eq, lookup_delete_eq.
  - by rewrite lookup_insert_ne, lookup_delete_ne.
Qed.

Lemma forEach_zero (scores : gmap Z Z) (i : Z) (qs : list QuestionResult) (acc : Totals) (k : Z) :
  forEach (<[i := 0]> scores) acc k qs = forEach (delete i scores) acc k qs.
Proof.
  revert acc k. induction qs as [|q qs IH]; intros acc k; [done|].
  cbn [forEach]. rewrite IH. f_equal.
  unfold tally. by rewrite effective_score_zero.
Qed.

Lemma is_objective_spec (q : QuestionResult) : is_objective q = objective q.
Proof.
  unfold is_objective, objective.
  repeat case_bool_decide; simpl; try done; tauto.
Qed.

Lemma sum_points_cons (scores : gmap Z Z) iq l :
  sum_points scores (iq :: l) = points scores iq + sum_points scores l.
Proof. done. Qed.

Lemma strict_eq_spec (q : QuestionResult) :
  strict_eq (user_answer q) (correct_answer q) = answered_right q.
Proof.
  unfold strict_eq, answered_right.
  destruct (correct_answer q); repeat case_bool_decide; simpl; congruence.
Qed.

Lemma effective_score_spec (scores : gmap Z Z) (i : Z) (q : QuestionResult) :
  effective_score scores i q = effective scores (i, q).
Proof.
  unfold effective_score, effective, fallback, or_score, num_or. cbn [fst snd].
  destruct (user_score q) as [u|]; [destruct (u =? 0)|]; try done;
    destruct (scores !! i) as [b|]; try done; simpl;
    destruct (Z.eqb_spec b 0); by subst.
Qed.

(** The running totals after the loop, by what each question adds in
    the words of the specification. *)
Lemma forEach_points (scores : gmap Z Z) (qs : list QuestionResult) (acc : Totals) (i : Z) :
  let t := forEach scores acc i qs in
  let scored := List.filter (counted scores) (indexed i qs) in
  scoredQuestions t = scoredQuestions acc + Z.of_nat (length scored) /\
  totalScore t = totalScore acc + sum_points scores scored /\
  correctAnswers t =
    correctAnswers acc
    + Z.of_nat (length (List.filter (fun iq => objective iq.2 && answered_right iq.2)
                          (indexed i qs))).
Proof.
  revert acc i. induction qs as [|q qs IH]; intros acc i.
  - simpl. lia.
  - cbn [forEach indexed List.filter].
    specialize (IH (tally scores acc i q) (i + 1)). cbv zeta in IH.
    destruct IH as (IH1 & IH2 & IH3). cbv zeta.
    rewrite IH1, IH2, IH3. clear IH1 IH2 IH3.
    unfold tally, counted. cbn [fst snd].
    rewrite is_objective_spec, strict_eq_spec, effective_score_spec.
    destruct (objective q) eqn:Hobj; cbn [andb orb].
    + destruct (answered_right q) eqn:Hright;
        rewrite sum_points_cons; unfold points; cbn [fst snd]; rewrite Hobj, Hright;
        cbn [totalScore scoredQuestions correctAnswers length]; lia.
    + destruct (0 <? effective scores (i, q)) eqn:Hpos;
        rewrite ?sum_points_cons; unfold points; cbn [fst snd]; rewrite ?Hobj;
        cbn [totalScore scoredQuestions correctAnswers length]; lia.
Qed.

(** C10, as stated, fails: with a wrong multiple-choice answer and a
    subjective answer rated 80 the average shown is 40; setting that
    self-score to 0 lowers the average shown to 0. *)
Lemma zero_self_score_lowers_average :
  (averageScore (statistics wrong_mcq_rated_80) == 40)%Q /\
  (averageScore (statistics (handleScoreChange 1 0 wrong_mcq_rated_80)) == 0)%Q /\
  (averageScore (statistics (handleScoreChange 1 0 wrong_mcq_rated_80))
   < averageScore (statistics wrong_mcq_rated_80))%Q.
Proof. split_and!; by vm_compute. Qed.

(** C10, amended.  Statistics of the results page: a question counts as
    scored when it is objective (mcq, true_false) or when its effective
    score (the server score, else the buffered self-score) is positive;
    an objective question adds 100 to the total when the answer is the
    correct answer and 0 otherwise, a counted subjective question adds its
    effective score; the average is the total over the count, and 0 when
    nothing counts; so a subjective question whose effective score is 0 is
    in neither.  A self-score of 0 counts exactly like no self-score on
    that question: the statistics are those of the buffer without it.  The
    slider shows the buffered score, else the server score, else 0. *)
Theorem statistics_count_what_is_scored (s : State) :
  let iqs := indexed 0 (questions_with_answers s) in
  let scored := List.filter (counted (selfScores s)) iqs in
  let count := Z.of_nat (length scored) in
  let total := sum_points (selfScores s) scored in
  stat_scoredQuestions (statistics s) = count /\
  stat_correctAnswers (statistics s) =
    Z.of_nat (length (List.filter (fun iq => objective iq.2 && answered_right iq.2) iqs)) /\
  averageScore (statistics s) =
    (if 0 <? count then Qmake total (Z.to_pos count) else 0%Q) /\
  (forall i, statistics (handleScoreChange i 0 s)
             = statistics (setSelfScores (fun prev => delete i prev) s)) /\
  (forall i q, slider_value (selfScores s) i q = fallback (selfScores s !! i) (user_score q)).
Proof.
  intros iqs scored count total.
  destruct (forEach_points (selfScores s) (questions_with_answers s) (mkTotals 0 0 0) 0)
    as (H1 & H2 & H3).
  cbn [totalScore scoredQuestions correctAnswers] in H1, H2, H3.
  fold iqs in H1, H2, H3. fold scored in H1, H2. fold count in H1. fold total in H2.
  rewrite Z.add_0_l in H1, H2, H3.
  split_and!.
  - unfold statistics. cbn [stat_scoredQuestions]. exact H1.
  - unfold statistics. cbn [stat_correctAnswers]. exact H3.
  - unfold statistics. cbn [averageScore]. by rewrite H1, H2.
  - intros i. unfold statistics, handleScoreChange.
    cbn [setSelfScores selfScores questions_with_answers].
    by rewrite forEach_zero.
  - intros i q. unfold slider_value, fallback, or_score, num_or.
    destruct (selfScores s !! i) as [b|]; [destruct (b =? 0)|]; try done;
      destruct (user_score q) as [u|]; try done; simpl;
      destruct (Z.eqb_spec u 0); by subst.
Qed.

End QuizResultsProofs.

(* ===================================================================== *)
(** * Further properties of the quiz-taking page *)
(* ===================================================================== *)

Module TakeQuizViewProofs.
Import TakeQuiz TakeQuizView Spec.

#[local] Set Warnings "-clear-no-such-hyp".

(** ** The clock display *)

Lemma two_digit_seconds (r : Z) :
  0 <= r < 60 ->
  padStart 2 48%N (String_of_Z r) = [digit (r / 10); digit (r mod 10)].
Proof.
  intros Hr.
  assert (forallb
            (fun r => bool_decide (padStart 2 48%N (String_of_Z r)
                                   = [digit (r / 10); digit (r mod 10)]))
            (seqZ 0 60) = true) as Hall by (vm_compute; reflexivity).
  rewrite forallb_forall in Hall.
  specialize (Hall r). rewrite <- list_elem_of_In, elem_of_seqZ in Hall.
  eapply bool_decide_eq_true_1. apply Hall. lia.
Qed.

(** X1: clock display.  On a platform whose numbers are exact on the
    integers from 0 to 2^53 - 1, for every whole number of seconds in
    that range the display is the whole minutes, a colon, and exactly two
    decimal digits that spell the remaining seconds. *)
Theorem formatTime_minutes_and_two_digits
    {number : Type} (of_Z : Z -> number) (Math_floor : number -> number)
    (divide remainder : number -> number -> number)
    (Number_toString : number -> jsstring) (seconds : Z)
    (Hexact : exact_on_safe_integers of_Z Math_floor divide remainder Number_toString)
    (Hsafe : 0 <= seconds < 2 ^ 53) :
  formatTime of_Z Math_floor divide remainder Number_toString (of_Z seconds) =
    String_of_Z (seconds / 60) ++ lit ":" ++
    [digit (seconds mod 60 / 10); digit (seconds mod 60 mod 10)].
Proof.
  unfold formatTime. cbv zeta.
  destruct (Hexact seconds Hsafe) as (-> & -> & _).
  assert (0 <= seconds / 60 < 2 ^ 53) as Hmins.
  { split; [apply Z.div_pos; lia|].
    apply Z.div_lt_upper_bound; lia. }
  assert (0 <= seconds mod 60 < 60) as Hsecs by (apply Z.mod_pos_bound; lia).
  destruct (Hexact (seconds / 60) Hmins) as (_ & _ & ->).
  destruct (Hexact (seconds mod 60) ltac:(lia)) as (_ & _ & ->).
  by rewrite two_digit_seconds.
Qed.

Lemma formatTime_minutes_and_two_digits_witness :
  exact_on_safe_integers (fun z : Z => z) (fun x => x) Z.div Z.modulo String_of_Z /\
  0 <= 65 < 2 ^ 53 /\
  formatTime (fun z : Z => z) (fun x => x) Z.div Z.modulo String_of_Z 65 = lit "1:05".
Proof.
  assert (exact_on_safe_integers (fun z : Z => z) (fun x => x) Z.div Z.modulo String_of_Z)
    as Hexact by (intros z Hz; split_and!; reflexivity).
  split; [exact Hexact|]. split; [lia|].
  rewrite (formatTime_minutes_and_two_digits (fun z : Z => z) (fun x => x) Z.div Z.modulo
             String_of_Z 65 Hexact ltac:(lia)).
  reflexivity.
Defined.

(** ** Histories *)

Lemma run_app (td : TestData) (c : Component) (l1 l2 : list Action) :
  run td c (l1 ++ l2) =
    let '(c1, e1) := run td c l1 in
    let '(c2, e2) := run td c1 l2 in
    (c2, e1 ++ e2).
Proof.
  revert c. induction l1 as [|a l1 IH]; intros c; simpl.
  - by destruct (run td c l2).
  - destruct (step td c a) as [c1 e1]. rewrite IH.
    destruct (run td c1 l1) as [c2 e2]. destruct (run td c2 l2) as [c3 e3].
    by rewrite app_assoc.
Qed.

(** A property kept by every step holds after every history. *)
Lemma run_invariant (td : TestData) (P : Component -> Prop) :
  (forall c a, P c -> P (step td c a).1) ->
  forall acts c, P c -> P (run td c acts).1.
Proof.
  intros Hstep acts. induction acts as [|a acts IH]; intros c Hc; [done|].
  simpl. specialize (Hstep c a Hc). destruct (step td c a) as [c1 e1].
  specialize (IH c1 Hstep). by destruct (run td c1 acts).
Qed.

Lemma step_state_cases (td : TestData) (c : Component) (a : Action) :
  st (step td c a).1 = st c \/
  (exists t, st (step td c a).1 = setTimeRemaining t (st c)) \/
  (exists v, st (step td c a).1 =
               setAnswers (fun prev => <[currentQuestion (st c) := v]> prev) (st c)) \/
  (exists i, st (step td c a).1 = goToQuestion td i (st c)) \/
  (exists f, st (step td c a).1 = setFlaggedQuestions f (st c)) \/
  (exists b, st (step td c a).1 = setShowSubmitConfirm b (st c)) \/
  st (step td c a).1 = setIsSubmitted true (st c).
Proof.
  destruct a; simpl; eauto 10.
  destruct (timer c) as [scope|]; [|by left].
  unfold on_interval.
  destruct (timeRemaining (st c)) as [prev|]; [destruct (prev <=? 1)|];
    simpl; right; left; eauto.
Qed.

Lemma step_in_range (td : TestData) (c : Component) (a : Action) :
  in_range td c -> in_range td (step td c a).1.
Proof.
  intros [Hcur Hdom]. unfold in_range.
  destruct (step_state_cases td c a)
    as [->|[[t ->]|[[v ->]|[[i ->]|[[f ->]|[[b ->]| ->]]]]]]; simpl; try done.
  - split; [done|]. intros k. rewrite dom_insert_L, elem_of_union, elem_of_singleton.
    intros [->|Hk]; [done|by apply Hdom].
  - unfold goToQuestion.
    destruct ((0 <=? i) && (i <? Z.of_nat (length (test_data td)))) eqn:Hi; [|done].
    simpl. split; [lia|done].
Qed.

Lemma mount_in_range (td : TestData) : test_data td <> [] -> in_range td (mount td).
Proof.
  intros Hne. unfold in_range, mount, commit. simpl.
  assert (0 < length (test_data td))%nat by (destruct (test_data td); [done|simpl; lia]).
  destruct (negb (estimated_time td =? 0)); simpl;
    (split; [lia|]; intros k Hk; by rewrite dom_empty_L in Hk).
Qed.

Lemma size_bounded_keys (m : gmap Z jsstring) (n : nat) :
  (forall k, k ∈ dom m -> 0 <= k < Z.of_nat n) -> (size m <= n)%nat.
Proof.
  intros Hdom. rewrite <- size_dom.
  assert (dom m ⊆ (list_to_set (seqZ 0 (Z.of_nat n)) : gset Z)) as Hsub.
  { intros k Hk. rewrite elem_of_list_to_set, elem_of_seqZ.
    specialize (Hdom k Hk). lia. }
  apply subseteq_size in Hsub.
  rewrite size_list_to_set in Hsub by apply NoDup_seqZ.
  rewrite length_seqZ in Hsub. lia.
Qed.

(** X2: indices stay valid.  On a test with at least one question, after
    every history of actions the current question is a question of the
    test, every answered index is one, and the answered count shown
    never exceeds the number of questions. *)
Theorem answers_and_cursor_stay_in_range
    (td : TestData) (acts : list Action) (Hquestions : test_data td <> []) :
  let c := page_after td acts in
  0 <= currentQuestion (st c) < Z.of_nat (length (test_data td)) /\
  (forall k v, answers (st c) !! k = Some v ->
               0 <= k < Z.of_nat (length (test_data td))) /\
  (completed (progress td (st c)) <= total (progress td (st c)))%nat.
Proof.
  intros c. subst c. unfold page_after.
  pose proof (run_invariant td (in_range td) (step_in_range td) acts
                (mount td) (mount_in_range td Hquestions)) as [Hcur Hdom].
  split; [exact Hcur|split].
  - intros k v Hk. apply Hdom. apply elem_of_dom. eauto.
  - simpl. by apply size_bounded_keys.
Qed.

Lemma answers_and_cursor_stay_in_range_witness :
  TakeQuiz.test_data one_minute_quiz <> [] /\
  (completed (progress one_minute_quiz
                (st (page_after one_minute_quiz
                       [GoToQuestion 5; AnswerChange (lit "B"); GoToQuestion (-1)])))
   <= 1)%nat.
Proof.
  split; [discriminate|].
  exact (proj2 (proj2 (answers_and_cursor_stay_in_range one_minute_quiz
                         [GoToQuestion 5; AnswerChange (lit "B"); GoToQuestion (-1)]
                         ltac:(discriminate)))).
Defined.

(** ** Flags *)

Lemma countdown_effect_unflagged (prev cur : State) (live : option State) :
  countdown_effect (unflagged prev) (unflagged cur) (unflagged <$> live) =
  unflagged <$> countdown_effect prev cur live.
Proof.
  unfold countdown_effect. simpl.
  case_bool_decide; [done|].
  destruct (timeRemaining cur) as [t|]; [|done].
  by destruct ((t <=? 0) || isSubmitted cur).
Qed.

Lemma commit_unflagged (prev cur : State) (live : option State) :
  commit (unflagged prev) (unflagged cur) (unflagged <$> live) =
  unflaggedC (commit prev cur live).
Proof. unfold commit, unflaggedC. simpl. by rewrite countdown_effect_unflagged. Qed.

Lemma step_unflagged (td : TestData) (c : Component) (a : Action) :
  is_flag a = false ->
  step td (unflaggedC c) a = (unflaggedC (step td c a).1, (step td c a).2).
Proof.
  intros Ha. destruct a; try discriminate; simpl.
  - destruct (timer c) as [scope|]; simpl; [|done].
    unfold on_interval. simpl.
    destruct (timeRemaining (st c)) as [prev|]; [destruct (prev <=? 1)|]; simpl;
      by rewrite <- (commit_unflagged _ _ (Some scope)).
  - by rewrite <- commit_unflagged.
  - by rewrite <- commit_unflagged.
  - rewrite <- commit_unflagged. unfold goToQuestion.
    by destruct ((0 <=? index) && (index <? Z.of_nat (length (test_data td)))).
  - by rewrite <- commit_unflagged.
  - done.
  - by rewrite <- commit_unflagged.
  - done.
Qed.

Lemma step_flag (td : TestData) (c : Component) (i : Z) :
  unflaggedC (step td c (ToggleFlag i)).1 = unflaggedC c /\
  (step td c (ToggleFlag i)).2 = [].
Proof.
  split; [|done]. simpl. unfold commit, unflaggedC. simpl. f_equal.
  unfold countdown_effect. simpl. by rewrite bool_decide_eq_true_2.
Qed.

Lemma run_without_flags (td : TestData) (acts : list Action) (c : Component) :
  run td (unflaggedC c) (without_flags acts) =
    (unflaggedC (run td c acts).1, (run td c acts).2).
Proof.
  revert c. induction acts as [|a acts IH]; intros c; [done|].
  unfold without_flags. cbn [List.filter run].
  destruct (is_flag a) eqn:Ha; cbn [negb].
  - destruct a; try discriminate.
    destruct (step_flag td c index) as [Hc Hev].
    destruct (step td c (ToggleFlag index)) as [c1 e1]. simpl in Hc, Hev. subst e1.
    fold (without_flags acts). rewrite <- Hc, IH.
    by destruct (run td c1 acts).
  - cbn [run]. rewrite step_unflagged by done.
    destruct (step td c a) as [c1 e1]. cbn [fst snd].
    fold (without_flags acts). rewrite IH.
    by destruct (run td c1 acts).
Qed.

Lemma mount_unflagged (td : TestData) : unflaggedC (mount td) = mount td.
Proof.
  unfold mount, commit, unflaggedC, countdown_effect. simpl.
  destruct (negb (estimated_time td =? 0)); simpl; [|done].
  destruct ((estimated_time td * 60 <=? 0) || false); done.
Qed.

(** X3: flags are cosmetic.  Leaving every flag toggle out of a history
    changes nothing that is sent or shown as a notification, and leaves
    the answers, the cursor, the clock and the submitted state as they
    are. *)
Theorem flags_never_change_submission (td : TestData) (acts : list Action) :
  events_of td (without_flags acts) = events_of td acts /\
  let c := page_after td acts in
  let c' := page_after td (without_flags acts) in
  answers (st c') = answers (st c) /\
  currentQuestion (st c') = currentQuestion (st c) /\
  timeRemaining (st c') = timeRemaining (st c) /\
  isSubmitted (st c') = isSubmitted (st c).
Proof.
  unfold events_of, page_after.
  pose proof (run_without_flags td acts (mount td)) as Hrun.
  rewrite mount_unflagged in Hrun. rewrite Hrun. simpl. done.
Qed.

(** X4: toggling a flag.  [toggleFlag] flips the membership of its index
    and of no other index, and toggling the same index twice restores
    the flag set. *)
Theorem toggleFlag_flips_one_index (i : Z) (s : State) :
  (i ∈ flaggedQuestions (toggleFlag i s) <-> i ∉ flaggedQuestions s) /\
  (forall j, j <> i ->
     (j ∈ flaggedQuestions (toggleFlag i s) <-> j ∈ flaggedQuestions s)) /\
  toggleFlag i (toggleFlag i s) = s.
Proof.
  destruct s as [cq an tr sub fl conf]. unfold toggleFlag, setFlaggedQuestions. simpl.
  destruct (decide (i ∈ fl)) as [Hin|Hout].
  - rewrite (bool_decide_eq_true_2 (i ∈ fl)) by done.
    rewrite (bool_decide_eq_false_2 (i ∈ fl ∖ {[i]})) by set_solver.
    split_and!; [set_solver|set_solver|].
    f_equal. apply set_eq. intros x. destruct (decide (x = i)); set_solver.
  - rewrite (bool_decide_eq_false_2 (i ∈ fl)) by done.
    rewrite (bool_decide_eq_true_2 (i ∈ fl ∪ {[i]})) by set_solver.
    split_and!; [set_solver|set_solver|].
    f_equal. set_solver.
Qed.

(** ** The countdown under interaction *)

Lemma not_times_up_submit_error (err : jserror) :
  is_times_up (EToast (submit_error err)) = false.
Proof. done. Qed.

(** One step of a running or stopped clock that has not been submitted. *)
Lemma step_clock (td : TestData) (c : Component) (t : Z) (a : Action) :
  clock_at c t -> is_success a = false ->
  clock_at (step td c a).1 (if is_tick a then Z.max 0 (t - 1) else t) /\
  length (List.filter is_times_up (step td c a).2) =
    (if is_tick a && (t =? 1)%Z then 1%nat else 0%nat).
Proof.
  intros (Ht & Hpos & Hsub & Hrun & Hstop) Ha.
  assert (forall s', timeRemaining s' = Some t -> isSubmitted s' = false ->
            clock_at (commit (st c) s' (timer c)) t) as Hsame.
  { intros s' Ht' Hsub'. unfold clock_at, commit, countdown_effect. simpl.
    rewrite Ht, Ht', Hsub, Hsub'.
    rewrite bool_decide_eq_true_2 by done. done. }
  destruct a; try discriminate; cbn [is_tick andb].
  - (* Tick *)
    simpl. destruct (Z.eq_dec t 0) as [->|Hne].
    + rewrite (Hstop eq_refl). simpl. split; [|done].
      unfold clock_at. rewrite Ht, Hsub, (Hstop eq_refl). split_and!; done.
    + destruct Hrun as (scope & Htimer & Hscope); [lia|].
      rewrite Htimer. unfold on_interval. rewrite Ht.
      destruct (Z.leb_spec t 1) as [Hle|Hgt]; simpl.
      * assert (t = 1) as -> by lia. simpl. split.
        -- unfold clock_at, commit, countdown_effect. simpl. rewrite Ht, Hsub.
           rewrite bool_decide_eq_false_2 by (intros [[=] _]).
           simpl. split_and!; done.
        -- unfold handleAutoSubmit. by rewrite Hscope.
      * destruct (Z.eqb_spec t 1) as [?|_]; [lia|]. split; [|done].
        unfold clock_at, commit, countdown_effect. simpl. rewrite Ht, Hsub.
        rewrite bool_decide_eq_false_2 by (intros [[=] _]; lia).
        destruct (Z.leb_spec (t - 1) 0); [lia|].
        simpl. rewrite Z.max_r by lia.
        split_and!; try done; try lia. intros _. eauto.
  - split; [by apply Hsame|done].
  - split; [by apply Hsame|done].
  - split; [|done]. apply Hsame; unfold goToQuestion;
      by destruct ((0 <=? index) && (index <? Z.of_nat (length (test_data td)))).
  - split; [by apply Hsame|done].
  - split; [by apply Hsame|done].
  - split; [|done]. unfold clock_at. simpl. by rewrite Ht, Hsub.
  - split; [|done]. unfold clock_at. simpl. by rewrite Ht, Hsub.
Qed.

Lemma run_clock (td : TestData) (acts : list Action) (c : Component) (t : Z) :
  clock_at c t -> forallb (fun a => negb (is_success a)) acts = true ->
  clock_at (run td c acts).1 (Z.max 0 (t - Z.of_nat (ticks acts))) /\
  length (List.filter is_times_up (run td c acts).2) =
    (if (0 <? t)%Z && (t <=? Z.of_nat (ticks acts))%Z then 1%nat else 0%nat).
Proof.
  revert c t. induction acts as [|a acts IH]; intros c t Hc Hquiet.
  - pose proof Hc as (_ & Hpos & _).
    unfold ticks. cbn [List.filter length run fst snd]. change (Z.of_nat 0) with 0.
    rewrite Z.sub_0_r, Z.max_r by lia.
    split; [done|].
    destruct (Z.ltb_spec 0 t), (Z.leb_spec t 0); cbn [andb]; try done; lia.
  - cbn [forallb] in Hquiet. apply andb_true_iff in Hquiet as [Ha Hquiet].
    apply negb_true_iff in Ha.
    destruct (step_clock td c t a Hc Ha) as [Hc1 Hev1].
    cbn [run]. destruct (step td c a) as [c1 e1]. cbn [fst snd] in Hc1, Hev1.
    destruct (IH c1 _ Hc1 Hquiet) as [Hc2 Hev2].
    destruct (run td c1 acts) as [c2 e2]. cbn [fst snd] in Hc2, Hev2 |- *.
    assert (0 <= t) as Hpos by (by destruct Hc as (? & ? & ?)).
    rewrite List.filter_app, length_app, Hev1, Hev2.
    unfold ticks in *. cbn [List.filter].
    destruct (is_tick a); cbn [length andb].
    + split.
      * replace (Z.max 0 (t - Z.of_nat (S (length (List.filter is_tick acts)))))
          with (Z.max 0 (Z.max 0 (t - 1) - Z.of_nat (length (List.filter is_tick acts))))
          by lia.
        done.
      * destruct (Z.eqb_spec t 1), (Z.ltb_spec 0 t),
          (Z.ltb_spec 0 (Z.max 0 (t - 1))),
          (Z.leb_spec (Z.max 0 (t - 1)) (Z.of_nat (length (List.filter is_tick acts)))),
          (Z.leb_spec t (Z.of_nat (S (length (List.filter is_tick acts)))));
          simpl; lia.
    + split; [done|]. done.
Qed.

Lemma mount_clock (td : TestData) :
  0 < estimated_time td -> clock_at (mount td) (estimated_time td * 60).
Proof.
  intros Hpos.
  destruct (TakeQuizProofs.mount_starts_clock td ltac:(lia)) as [Hst Htimer].
  specialize (Htimer Hpos). unfold clock_at. rewrite Htimer, Hst. simpl.
  split_and!; try done; try lia. intros _. eauto.
Qed.

(** X5: the countdown counts ticks.  On a test with a positive estimated
    time, after every history without a successful submission the clock
    shows the start value less the number of ticks, not below zero,
    whatever else the user did; and the automatic submission has been
    announced exactly once if the ticks have used up the time, and not at
    all otherwise. *)
Theorem countdown_counts_ticks
    (td : TestData) (acts : list Action)
    (Htimed : 0 < estimated_time td)
    (Hquiet : forallb (fun a => negb (is_success a)) acts = true) :
  timeRemaining (st (page_after td acts)) =
    Some (Z.max 0 (estimated_time td * 60 - Z.of_nat (ticks acts))) /\
  length (List.filter is_times_up (events_of td acts)) =
    (if estimated_time td * 60 <=? Z.of_nat (ticks acts) then 1%nat else 0%nat).
Proof.
  destruct (run_clock td acts (mount td) _ (mount_clock td Htimed) Hquiet)
    as [(Ht & _) Hev].
  split; [exact Ht|].
  unfold events_of. rewrite Hev.
  destruct (Z.ltb_spec 0 (estimated_time td * 60)); [done|lia].
Qed.

Lemma countdown_counts_ticks_witness :
  0 < TakeQuiz.estimated_time one_minute_quiz /\
  forallb (fun a => negb (is_success a)) last_second_answer = true /\
  timeRemaining (st (page_after one_minute_quiz last_second_answer)) = Some 0 /\
  length (List.filter is_times_up (events_of one_minute_quiz last_second_answer)) = 1%nat.
Proof.
  split; [reflexivity|]. split; [reflexivity|].
  exact (countdown_counts_ticks one_minute_quiz last_second_answer eq_refl eq_refl).
Defined.

(** Only the interval announces an automatic submission. *)
Lemma only_ticks_announce (td : TestData) (c : Component) (a : Action) :
  is_tick a = false \/ timer c = None ->
  List.filter is_times_up (step td c a).2 = [].
Proof.
  intros [Ha|Htimer]; destruct a; try discriminate; try done.
  simpl. by rewrite Htimer.
Qed.

Lemma non_tick_keeps_clock (td : TestData) (c : Component) (a : Action) :
  is_tick a = false ->
  timeRemaining (st (step td c a).1) = timeRemaining (st c) /\
  (isSubmitted (st (step td c a).1) = isSubmitted (st c) \/
   isSubmitted (st (step td c a).1) = true) /\
  timer (step td c a).1 =
    countdown_effect (st c) (st (step td c a).1) (timer c).
Proof.
  intros Ha. destruct a; try discriminate; simpl; try (split_and!; by eauto).
  - unfold goToQuestion.
    destruct ((0 <=? index) && (index <? Z.of_nat (length (test_data td))));
      simpl; split_and!; by eauto.
  - split_and!; [done|by left|].
    unfold countdown_effect. by rewrite bool_decide_eq_true_2.
  - split_and!; [done|by left|].
    unfold countdown_effect. by rewrite bool_decide_eq_true_2.
Qed.

Lemma step_stopped (td : TestData) (c : Component) (a : Action) :
  stopped c -> stopped (step td c a).1.
Proof.
  intros [Htimer Ht]. destruct (is_tick a) eqn:Ha.
  - destruct a; try discriminate. simpl. by rewrite Htimer.
  - destruct (non_tick_keeps_clock td c a Ha) as (Ht' & _ & Htimer').
    unfold stopped. rewrite Htimer', Ht'. split; [|done].
    unfold countdown_effect. rewrite Htimer, Ht'.
    case_bool_decide; [done|].
    destruct (timeRemaining (st c)) as [t|]; [|done].
    destruct (Z.leb_spec t 0); [done|lia].
Qed.

Lemma run_stopped (td : TestData) (acts : list Action) (c : Component) :
  stopped c ->
  stopped (run td c acts).1 /\ List.filter is_times_up (run td c acts).2 = [].
Proof.
  revert c. induction acts as [|a acts IH]; intros c Hc; [done|].
  cbn [run].
  pose proof (step_stopped td c a Hc) as Hc1.
  pose proof (only_ticks_announce td c a (or_intror (proj1 Hc))) as He1.
  destruct (step td c a) as [c1 e1]. cbn [fst snd] in Hc1, He1.
  destruct (IH c1 Hc1) as [Hc2 He2].
  destruct (run td c1 acts) as [c2 e2]. cbn [fst snd] in *.
  by rewrite List.filter_app, He1, He2.
Qed.

(** X6: no time limit, no automatic submission.  When the test has no
    estimated time (zero), or one that is not positive, no interval is
    ever started: whatever happens, nothing is submitted automatically. *)
Theorem untimed_never_auto_submits
    (td : TestData) (acts : list Action) (Huntimed : estimated_time td <= 0) :
  List.filter is_times_up (events_of td acts) = [] /\
  timer (page_after td acts) = None.
Proof.
  assert (stopped (mount td)) as Hmount.
  { unfold stopped, mount, commit, countdown_effect. simpl.
    destruct (Z.eqb_spec (estimated_time td) 0) as [?|Hne]; simpl; [done|].
    destruct (Z.leb_spec (estimated_time td * 60) 0); [|lia].
    simpl. split; [done|lia]. }
  destruct (run_stopped td acts (mount td) Hmount) as [[Htimer _] Hev].
  done.
Qed.

Lemma untimed_never_auto_submits_witness :
  TakeQuiz.estimated_time untimed_quiz <= 0 /\
  List.filter is_times_up
    (events_of untimed_quiz [Tick; AnswerChange (lit "A"); Tick; Tick]) = [].
Proof.
  split; [discriminate|].
  exact (proj1 (untimed_never_auto_submits untimed_quiz
                  [Tick; AnswerChange (lit "A"); Tick; Tick] ltac:(discriminate))).
Defined.

Lemma step_submitted_stops (td : TestData) (c : Component) (a : Action) :
  submitted_stops c -> submitted_stops (step td c a).1.
Proof.
  intros Hinv. unfold submitted_stops in *. destruct (is_tick a) eqn:Ha.
  - destruct a; try discriminate. simpl.
    destruct (timer c) as [scope|] eqn:Htimer; [|done].
    unfold on_interval.
    destruct (isSubmitted (st c)) eqn:Hsub; [by specialize (Hinv eq_refl)|].
    destruct (timeRemaining (st c)) as [prev|]; [destruct (prev <=? 1)|];
      simpl; by rewrite Hsub.
  - destruct (non_tick_keeps_clock td c a Ha) as (Ht & Hsub & Htimer).
    rewrite Htimer. intros Hdone. unfold countdown_effect.
    case_bool_decide as Hdeps.
    + destruct Hdeps as [_ Hsame]. apply Hinv. by rewrite Hsame.
    + rewrite Hdone. destruct (timeRemaining (st (step td c a).1)) as [t|]; [|done].
      by rewrite orb_true_r.
Qed.

Lemma step_after_submission (td : TestData) (c : Component) (a : Action) :
  isSubmitted (st c) = true -> timer c = None ->
  (isSubmitted (st (step td c a).1) = true /\ timer (step td c a).1 = None) /\
  List.filter is_times_up (step td c a).2 = [].
Proof.
  intros Hsub Htimer.
  split; [|apply only_ticks_announce; by right].
  assert (submitted_stops c) as Hinv by (by intros _).
  pose proof (step_submitted_stops td c a Hinv) as Hinv'.
  assert (isSubmitted (st (step td c a).1) = true) as Hsub'.
  { destruct (is_tick a) eqn:Ha.
    - destruct a; try discriminate. simpl. by rewrite Htimer.
    - destruct (non_tick_keeps_clock td c a Ha) as (_ & [Hs|Hs] & _); congruence. }
  split; [done|by apply Hinv'].
Qed.

Lemma run_after_submission (td : TestData) (acts : list Action) (c : Component) :
  isSubmitted (st c) = true -> timer c = None ->
  List.filter is_times_up (run td c acts).2 = [].
Proof.
  revert c. induction acts as [|a acts IH]; intros c Hsub Htimer; [done|].
  cbn [run].
  destruct (step_after_submission td c a Hsub Htimer) as [[Hsub1 Htimer1] He1].
  destruct (step td c a) as [c1 e1]. cbn [fst snd] in *.
  specialize (IH c1 Hsub1 Htimer1).
  destruct (run td c1 acts) as [c2 e2]. cbn [fst snd] in *.
  by rewrite List.filter_app, He1, IH.
Qed.

(** X7: a submitted test is never submitted automatically.  Once a
    submission has succeeded the interval is cleared for good: whatever
    follows, no automatic submission is announced after that point. *)
Theorem no_auto_submit_after_success
    (td : TestData) (before after : list Action) (submission_id : jsstring) :
  List.filter is_times_up
    (events_of td (before ++ SubmitSucceeded submission_id :: after)) =
  List.filter is_times_up (events_of td before).
Proof.
  unfold events_of. rewrite run_app.
  pose proof (run_invariant td submitted_stops (step_submitted_stops td) before
                (mount td)) as Hinv.
  destruct (run td (mount td) before) as [c1 e1]. cbn [fst snd] in *.
  assert (submitted_stops c1) as Hc1.
  { apply Hinv. unfold submitted_stops, mount, commit. simpl.
    by destruct (negb (estimated_time td =? 0)). }
  pose proof (step_submitted_stops td c1 (SubmitSucceeded submission_id) Hc1) as Hc2.
  cbn [run].
  destruct (step td c1 (SubmitSucceeded submission_id)) as [c2 e2] eqn:Hstep.
  assert (isSubmitted (st c2) = true) as Hsub.
  { simpl in Hstep. by injection Hstep as <- _. }
  assert (List.filter is_times_up e2 = []) as He2.
  { simpl in Hstep. by injection Hstep as _ <-. }
  cbn [fst snd] in Hc2.
  pose proof (run_after_submission td after c2 Hsub (Hc2 Hsub)) as He3.
  destruct (run td c2 after) as [c3 e3]. cbn [fst snd] in *.
  by rewrite !List.filter_app, He2, He3, app_nil_r.
Qed.

End TakeQuizViewProofs.

(* ===================================================================== *)
(** * Further properties of the quiz generation form *)
(* ===================================================================== *)

Module QuizGeneratorMoreProofs.
Import QuizGenerator FileIntake JSFacts Spec QuizGeneratorProofs.

(** ** Files *)

Lemma filter_drops_iff {A} (P : A -> bool) (l : list A) :
  (length (List.filter P l) < length l)%nat <-> exists x, x ∈ l /\ P x = false.
Proof.
  induction l as [|x l IH]; simpl.
  - split; [lia|]. intros (x & Hx & _). by apply elem_of_nil in Hx.
  - pose proof (List.filter_length_le P l) as Hle.
    destruct (P x) eqn:Hx; simpl.
    + rewrite <- Nat.succ_lt_mono, IH. split.
      * intros (y & Hy & HP). exists y. split; [by right|done].
      * intros (y & Hy & HP). apply elem_of_cons in Hy as [->|Hy]; [congruence|eauto].
    + split; [|lia]. intros _. exists x. split; [by left|done].
Qed.

(** X8: file intake.  The files picked are filtered to the PDFs (by MIME
    type, or by a name that ends in ".pdf" once lower-cased) and appended
    to the list, which keeps what it had; a rejection notice is shown
    exactly when at least one picked file was not a PDF; the URL list is
    not touched; and the picker is reset at the end every time. *)
Theorem only_pdfs_are_accepted
    (toLowerCase : jsstring -> jsstring) (chosen : list File) (s : State) :
  let s' := state_after (onFilesSelected toLowerCase chosen) s in
  let tr := trace_of (onFilesSelected toLowerCase chosen) s in
  files s' = files s ++ List.filter (is_pdf toLowerCase) chosen /\
  (forall f, f ∈ files s' <->
             f ∈ files s \/ (f ∈ chosen /\ is_pdf toLowerCase f = true)) /\
  (List.filter is_rejection tr <> [] <->
   exists f, f ∈ chosen /\ is_pdf toLowerCase f = false) /\
  last tr = Some EResetInput /\
  urlsList s' = urlsList s /\ urlsText s' = urlsText s.
Proof.
  intros s' tr. subst s' tr.
  unfold state_after, trace_of, run, onFilesSelected, bind, modify, emit, ret.
  cbv beta iota.
  pose proof (filter_drops_iff (is_pdf toLowerCase) chosen) as Hdrop.
  destruct (length (List.filter (is_pdf toLowerCase) chosen) <? length chosen)%nat
    eqn:Hlt; cbv beta iota;
    (destruct (0 <? length (List.filter (is_pdf toLowerCase) chosen))%nat;
     cbv beta iota; cbn [fst snd app];
     (split; [reflexivity|]; split;
      [intros f; cbn [files setFiles];
       rewrite elem_of_app, !list_elem_of_In, List.filter_In; tauto|];
      split; [|done])).
  all: cbn [List.filter is_rejection destructive].
  all: try (apply Nat.ltb_lt in Hlt; split; [intros _; by apply Hdrop|done]).
  all: apply Nat.ltb_ge in Hlt; split; [done|intros Hex; apply Hdrop in Hex; lia].
Qed.

(** ** Removing an entry *)

Lemma filter_index_ext {A} (keep keep' : nat -> bool) (k : nat) (l : list A) :
  (forall i, (k <= i)%nat -> keep i = keep' i) ->
  filter_index keep k l = filter_index keep' k l.
Proof.
  revert k. induction l as [|x l IH]; intros k Hext; [done|].
  simpl. rewrite (Hext k) by lia.
  rewrite (IH (S k)) by (intros i Hi; apply Hext; lia). done.
Qed.

Lemma filter_index_all {A} (keep : nat -> bool) (k : nat) (l : list A) :
  (forall i, (k <= i)%nat -> keep i = true) -> filter_index keep k l = l.
Proof.
  revert k. induction l as [|x l IH]; intros k Hall; [done|].
  simpl. rewrite (Hall k) by lia. f_equal. apply IH. intros i Hi. apply Hall. lia.
Qed.

(** [l.filter((_, i) => i !== idx)] deletes position [idx]. *)
Lemma filter_index_delete {A} (idx k : nat) (l : list A) :
  filter_index (fun i => negb (i =? k + idx)%nat) k l = delete idx l.
Proof.
  revert idx k. induction l as [|x l IH]; intros idx k; [by destruct idx|].
  simpl. destruct idx as [|idx].
  - rewrite Nat.add_0_r, Nat.eqb_refl. simpl.
    apply filter_index_all. intros i Hi.
    apply negb_true_iff, Nat.eqb_neq. lia.
  - replace (k =? k + S idx)%nat with false by (symmetry; apply Nat.eqb_neq; lia).
    simpl. f_equal. rewrite <- (IH idx (S k)).
    apply filter_index_ext. intros i _. by rewrite Nat.add_succ_comm.
Qed.

Lemma delete_past_end {A} (idx : nat) (l : list A) :
  (length l <= idx)%nat -> delete idx l = l.
Proof.
  revert idx. induction l as [|x l IH]; intros idx Hlen; [by destruct idx|].
  destruct idx as [|idx]; simpl in *; [lia|]. f_equal. apply IH. lia.
Qed.

(** X9: removing an entry.  [removeUrlAt idx] and [removeFileAt idx]
    delete the entry at position [idx] and nothing else: the entries
    before it stay where they are, the ones after it move up by one, and
    an index past the end changes nothing. *)
Theorem remove_deletes_one_position (idx : nat) (s : State) :
  (forall j, urlsList (removeUrlAt idx s) !! j =
             if (j <? idx)%nat then urlsList s !! j else urlsList s !! S j) /\
  (forall j, files (removeFileAt idx s) !! j =
             if (j <? idx)%nat then files s !! j else files s !! S j) /\
  length (urlsList (removeUrlAt idx s)) =
    (if (idx <? length (urlsList s))%nat
     then length (urlsList s) - 1 else length (urlsList s))%nat /\
  files (removeUrlAt idx s) = files s /\
  urlsList (removeFileAt idx s) = urlsList s.
Proof.
  unfold removeUrlAt, removeFileAt. simpl.
  rewrite !(filter_index_delete idx 0).
  split_and!; try done.
  - intros j. destruct (Nat.ltb_spec j idx).
    + by apply list_lookup_delete_lt.
    + by apply list_lookup_delete_ge.
  - intros j. destruct (Nat.ltb_spec j idx).
    + by apply list_lookup_delete_lt.
    + by apply list_lookup_delete_ge.
  - destruct (Nat.ltb_spec idx (length (urlsList s))) as [Hlt|Hge].
    + apply lookup_lt_is_Some in Hlt. by apply length_delete.
    + by rewrite delete_past_end.
Qed.

(** ** Pasting again *)

Lemma Set_from_app (seen l1 l2 : list jsstring) :
  Set_from seen (l1 ++ l2) = Set_from (Set_from seen l1) l2.
Proof.
  revert seen. induction l1 as [|x l1 IH]; intros seen; [done|].
  simpl. by case_bool_decide.
Qed.

Lemma Set_from_absorb (seen l : list jsstring) :
  (forall x, x ∈ l -> x ∈ seen) -> Set_from seen l = seen.
Proof.
  induction l as [|x l IH]; intros Hin; [done|].
  simpl. rewrite bool_decide_eq_true_2 by (apply Hin; by left).
  apply IH. intros y Hy. apply Hin. by right.
Qed.

Lemma Set_from_fresh (seen l : list jsstring) :
  NoDup (seen ++ l) -> Set_from seen l = seen ++ l.
Proof.
  revert seen. induction l as [|x l IH]; intros seen Hnd; [by rewrite app_nil_r|].
  simpl. apply NoDup_app in Hnd as (Hseen & Hdisj & Hl).
  apply NoDup_cons in Hl as [Hx Hl].
  rewrite bool_decide_eq_false_2 by (intros Hin; apply (Hdisj x Hin); by left).
  rewrite IH; [by rewrite <- app_assoc|].
  rewrite <- app_assoc. simpl. apply NoDup_app. split_and!; [done| |by apply NoDup_cons].
  intros y Hy Hy'. by apply (Hdisj y Hy).
Qed.

Lemma Set_from_prefix (seen l : list jsstring) : seen `prefix_of` Set_from seen l.
Proof.
  revert seen. induction l as [|x l IH]; intros seen; simpl; [done|].
  case_bool_decide; [apply IH|].
  etrans; [|apply IH]. by apply prefix_app_r.
Qed.

Lemma intake_list URL text s :
  urlsList (intake URL text s) =
    Array_from_Set
      (urlsList s ++ filter (fun u => validateUrl URL u = true) (parseUrlsFromText text)).
Proof.
  unfold intake. by destruct (addUrlsToList_state URL (setUrlsText text s)) as [-> _].
Qed.

Lemma accumulate_NoDup URL history : NoDup (urlsList (accumulate URL history)).
Proof.
  induction history as [|a history IH] using rev_ind; [apply NoDup_nil_2|].
  rewrite accumulate_snoc. destruct a as [text|idx|]; simpl.
  - rewrite intake_list. apply Array_from_Set_NoDup.
  - rewrite (filter_index_delete idx 0).
    eapply sublist_NoDup; [exact IH|apply sublist_delete].
  - apply NoDup_nil_2.
Qed.

(** X10: pasting again.  Adding the same text a second time leaves the
    list exactly as the first time left it; and an intake never moves or
    removes what the list already held: the earlier list is an initial
    segment of the new one. *)
Theorem pasting_again_changes_nothing
    (URL_constructs : jsstring -> bool) (history : list UrlAction) (text : jsstring) :
  let before := accumulate URL_constructs history in
  let once := intake URL_constructs text before in
  urlsList (intake URL_constructs text once) = urlsList once /\
  urlsList before `prefix_of` urlsList once.
Proof.
  intros before once. subst once.
  set (valid := filter (fun u => validateUrl URL_constructs u = true)
                       (parseUrlsFromText text)).
  assert (NoDup (urlsList before)) as Hnd by apply accumulate_NoDup.
  rewrite !intake_list. fold valid.
  set (L1 := Array_from_Set (urlsList before ++ valid)).
  assert (NoDup L1) as HL1 by apply Array_from_Set_NoDup.
  split.
  - unfold Array_from_Set at 1. rewrite Set_from_app.
    rewrite (Set_from_fresh [] L1) by done. simpl.
    apply Set_from_absorb. intros x Hx.
    apply Array_from_Set_elem. apply elem_of_app. by right.
  - subst L1. unfold Array_from_Set. rewrite Set_from_app.
    rewrite (Set_from_fresh [] (urlsList before)) by done. simpl.
    apply Set_from_prefix.
Qed.

(** ** The request *)

Lemma typeMapping_backend (q : QuestionTypes) :
  typeMapping <$> selectedTypes q = backend_types q.
Proof. by destruct q as [[] [] [] []]. Qed.

Lemma backend_types_vocabulary (q : QuestionTypes) :
  (lit "mcq" ∈ backend_types q <-> mcq q = true) /\
  (lit "true_false" ∈ backend_types q <-> tf q = true) /\
  (lit "short_answer" ∈ backend_types q <-> short q = true) /\
  (lit "long_answer" ∈ backend_types q <-> long q = true) /\
  (lit "tf" ∉ backend_types q) /\ (lit "short" ∉ backend_types q) /\
  (lit "long" ∉ backend_types q).
Proof.
  assert (forall (x : jsstring) (l : list jsstring),
            x ∈ l <-> bool_decide (x ∈ l) = true) as Hdec
    by (intros x l; symmetry; apply bool_decide_eq_true).
  assert (forall (x : jsstring) (l : list jsstring),
            x ∉ l <-> bool_decide (x ∈ l) = false) as Hndec
    by (intros x l; symmetry; apply bool_decide_eq_false).
  destruct q as [[] [] [] []]; cbn [mcq tf short long]; split_and!;
    (rewrite Hdec || rewrite Hndec); vm_compute; intuition congruence.
Qed.

Ltac settle_generation generateQuiz s :=
  run_handler; cbv beta iota;
  rewrite (no_sources_test s);
  destruct (hasContent s) eqn:Hsrc; cbn [negb andb]; cbv beta iota;
  [ rewrite selectedTypes_empty, typeMapping_backend;
    fold (hasQuestionTypes s);
    destruct (hasQuestionTypes s) eqn:Hty; cbn [negb]; cbv beta iota;
    [ destruct (files s) as [|f fl] eqn:Hfiles;
      cbn [length Nat.ltb Nat.leb]; cbv beta iota;
      (destruct (generateQuiz [] _ _) as [e|r]; cbv beta iota;
       [|destruct (truthy (extract_testId r)); cbv beta iota])
    | ]
  | ].

(** X11: the request.  When the form passes validation exactly one
    request is sent, and it carries the form as it stands: the files and
    that it is multipart exactly when there are files, the URL list, the
    question count, the difficulty, and the enabled question types in the
    backend's vocabulary (mcq, true_false, short_answer, long_answer),
    never the form's short codes.  Otherwise nothing is sent. *)
Theorem generate_request_carries_form
    (generateQuiz : list QuizGenerator.Event -> Payload -> bool -> jserror + Response)
    (toLocaleString : list QuizGenerator.Event -> jsstring) (s : State) :
  let tr := trace_of (handleGenerateQuiz generateQuiz toLocaleString) s in
  let q := questionTypes s in
  List.filter is_request tr =
    (if hasContent s && hasQuestionTypes s
     then [EGenerateQuiz (request_of toLocaleString s).1 (request_of toLocaleString s).2]
     else []) /\
  (lit "mcq" ∈ backend_types q <-> mcq q = true) /\
  (lit "true_false" ∈ backend_types q <-> tf q = true) /\
  (lit "short_answer" ∈ backend_types q <-> short q = true) /\
  (lit "long_answer" ∈ backend_types q <-> long q = true) /\
  (lit "tf" ∉ backend_types q) /\ (lit "short" ∉ backend_types q) /\
  (lit "long" ∉ backend_types q).
Proof.
  intros tr q. subst tr q. split; [|apply backend_types_vocabulary].
  unfold request_of. cbn [fst snd].
  settle_generation generateQuiz s; rewrite ?Hfiles; reflexivity.
Qed.

(** X12: the loading flag.  However the handler ends (validation failure
    on the question types, a failed request, a response without an
    identifier, success) the loading flag is off afterwards; only when
    it stops at the missing-source check does it leave the flag as it
    was.  It never changes the question count, the question types or
    the difficulty. *)
Theorem generate_never_leaves_loading
    (generateQuiz : list QuizGenerator.Event -> Payload -> bool -> jserror + Response)
    (toLocaleString : list QuizGenerator.Event -> jsstring) (s : State) :
  let s' := state_after (handleGenerateQuiz generateQuiz toLocaleString) s in
  loading s' = (if hasContent s then false else loading s) /\
  questionCount s' = questionCount s /\
  questionTypes s' = questionTypes s /\
  difficulty s' = difficulty s.
Proof.
  intros s'. subst s'.
  settle_generation generateQuiz s; done.
Qed.

End QuizGeneratorMoreProofs.

(* ===================================================================== *)
(** * Further properties of the results page *)
(* ===================================================================== *)

Module ResultsReviewProofs.
Import QuizResults ResultsReview Spec QuizResultsProofs.

#[local] Set Warnings "-clear-no-such-hyp".

(** X13: explanations are fetched at most once.  When an explanation is
    already shown for a question, asking again sends nothing and changes
    nothing.  Otherwise exactly one request is sent for that question
    with the user's answer; when it settles the loading mark of the
    question is off, whatever the outcome; the explanation is stored
    exactly on success and an error notice is shown exactly on failure;
    no other question's explanation is touched; and the button of the
    question is then disabled exactly when an explanation is shown. *)
Theorem explanation_fetched_at_most_once
    (submissionId : jsstring)
    (fetch_explanation :
       list Event -> QuestionResult -> Z -> jsstring -> jserror + option jsval)
    (q : QuestionResult) (index : Z) (r : Review) :
  let s' := state_after (getExplanation submissionId fetch_explanation q index) r in
  let tr := trace_of (getExplanation submissionId fetch_explanation q index) r in
  if has_explanation r index then s' = r /\ tr = []
  else
    let outcome := fetch_explanation [] q index (user_answer q) in
    List.filter is_request tr = [EExplain submissionId q index (user_answer q)] /\
    explanationLoading s' !! index = Some false /\
    explanations s' !! index =
      match stored outcome with
      | Some explanation => Some explanation
      | None => explanations r !! index
      end /\
    (List.filter is_error_toast tr = [] <-> is_Some (stored outcome)) /\
    (forall j, j <> index ->
       explanations s' !! j = explanations r !! j /\
       explanationLoading s' !! j = explanationLoading r !! j) /\
    openQuestions s' = openQuestions r /\
    explain_disabled s' index = has_explanation s' index.
Proof.
  intros s' tr. subst s' tr.
  unfold state_after, trace_of, run, getExplanation, getExplanationMutation,
    bind, get, modify, emit, await, try_catch, ret, throw.
  cbv beta iota.
  destruct (has_explanation r index) eqn:Hhas; [done|].
  cbv beta iota zeta.
  destruct (fetch_explanation [] q index (user_answer q)) as [e|[v|]];
    cbv beta iota; cbn [fst snd app stored explanations explanationLoading
                        openQuestions setExplanations setExplanationLoading
                        List.filter is_request is_error_toast destructive].
  all: split_and!; try done;
    try (by rewrite ?lookup_insert_eq);
    try (by intros [? [=]]);
    try (intros j Hj; by rewrite !lookup_insert_ne);
    try (unfold explain_disabled;
         cbn [explanationLoading setExplanationLoading setExplanations];
         by rewrite lookup_insert_eq);
    eauto.
Qed.

(** X14: opening a question.  [toggleQuestion] flips whether its
    question is open and no other; toggling twice restores the set; and
    it touches neither explanations nor loading marks. *)
Theorem toggleQuestion_flips_one_index (i : Z) (r : Review) :
  (i ∈ openQuestions (toggleQuestion i r) <-> i ∉ openQuestions r) /\
  (forall j, j <> i ->
     (j ∈ openQuestions (toggleQuestion i r) <-> j ∈ openQuestions r)) /\
  toggleQuestion i (toggleQuestion i r) = r /\
  explanations (toggleQuestion i r) = explanations r /\
  explanationLoading (toggleQuestion i r) = explanationLoading r.
Proof.
  destruct r as [op ld ex]. unfold toggleQuestion, setOpenQuestions. simpl.
  destruct (decide (i ∈ op)) as [Hin|Hout].
  - rewrite (bool_decide_eq_true_2 (i ∈ op)) by done.
    rewrite (bool_decide_eq_false_2 (i ∈ op ∖ {[i]})) by set_solver.
    split_and!; [set_solver|set_solver| |done|done].
    f_equal. apply set_eq. intros x. destruct (decide (x = i)); set_solver.
  - rewrite (bool_decide_eq_false_2 (i ∈ op)) by done.
    rewrite (bool_decide_eq_true_2 (i ∈ op ∪ {[i]})) by set_solver.
    split_and!; [set_solver|set_solver| |done|done].
    f_equal. set_solver.
Qed.

(** ** Statistics *)

Lemma filter_length_mono {A} (P Q : A -> bool) (l : list A) :
  (forall x, P x = true -> Q x = true) ->
  (length (List.filter P l) <= length (List.filter Q l))%nat.
Proof.
  intros Himp. induction l as [|x l IH]; [done|]. simpl.
  destruct (P x) eqn:HP.
  - rewrite (Himp x HP). simpl. lia.
  - destruct (Q x); simpl; lia.
Qed.

Lemma filter_length_split {A} (P : A -> bool) (l : list A) :
  (length (List.filter P l) + length (List.filter (fun x => negb (P x)) l)
   = length l)%nat.
Proof.
  induction l as [|x l IH]; [done|]. simpl. destruct (P x); simpl; lia.
Qed.

Lemma scored_subjective_count (scores : gmap Z Z) (i : Z) (qs : list QuestionResult) :
  (length (List.filter (scored_subjective scores) (indexed i qs))
   <= length (List.filter (fun q => negb (is_objective q)) qs))%nat.
Proof.
  revert i. induction qs as [|q qs IH]; intros i; [done|].
  cbn [indexed List.filter]. unfold scored_subjective at 1. cbn [fst snd].
  specialize (IH (i + 1)).
  destruct (is_objective q); cbn [negb andb]; [done|].
  destruct (0 <? effective_score scores i q); cbn [length]; lia.
Qed.

(** X15: the counts are ordered.  On every results page the number of
    correct answers is at most the number of scored questions, which is
    at most the number of questions, and so is the number of answered
    questions; none of them is negative. *)
Theorem statistics_counts_are_ordered (s : State) :
  0 <= stat_correctAnswers (statistics s) /\
  stat_correctAnswers (statistics s) <= stat_scoredQuestions (statistics s) /\
  stat_scoredQuestions (statistics s) <= Z.of_nat (totalQuestions (statistics s)) /\
  (answered (statistics s) <= totalQuestions (statistics s))%nat.
Proof.
  set (qs := questions_with_answers s).
  destruct (forEach_totals (selfScores s) qs (mkTotals 0 0 0) 0) as (H1 & _ & H3).
  cbn [totalScore scoredQuestions correctAnswers] in H1, H3.
  pose proof (filter_length_mono correct_objective is_objective qs) as Hmono.
  pose proof (filter_length_split is_objective qs) as Hsplit.
  pose proof (scored_subjective_count (selfScores s) 0 qs) as Hsub.
  unfold statistics. fold qs.
  cbn [stat_correctAnswers stat_scoredQuestions totalQuestions answered].
  rewrite H1, H3.
  assert (length (List.filter correct_objective qs)
          <= length (List.filter is_objective qs))%nat as Hco.
  { apply Hmono. intros q Hq. unfold correct_objective in Hq.
    by apply andb_true_iff in Hq as [? _]. }
  split_and!; try lia.
  apply length_filter.
Qed.

Lemma effective_in_percent (s : State) (i : Z) (q : QuestionResult) :
  scores_in_percent s -> q ∈ questions_with_answers s ->
  effective_score (selfScores s) i q <= 100.
Proof.
  intros [Hserver Hself] Hq. unfold effective_score, or_score, num_or.
  destruct (user_score q) as [u|] eqn:Hu.
  - specialize (Hserver q u Hq Hu).
    destruct (u =? 0); [|done].
    destruct (selfScores s !! i) as [v|] eqn:Hv; [|lia].
    specialize (Hself i v Hv). destruct (v =? 0); lia.
  - destruct (selfScores s !! i) as [v|] eqn:Hv; [|lia].
    specialize (Hself i v Hv). destruct (v =? 0); lia.
Qed.

Lemma sum_effective_bounds (s : State) (i : Z) (qs : list QuestionResult) :
  scores_in_percent s -> (forall q, q ∈ qs -> q ∈ questions_with_answers s) ->
  let scored := List.filter (scored_subjective (selfScores s)) (indexed i qs) in
  0 <= sum_effective (selfScores s) scored <= 100 * Z.of_nat (length scored).
Proof.
  intros Hpc. revert i. induction qs as [|q qs IH]; intros i Hin; [simpl; lia|].
  assert (forall q', q' ∈ qs -> q' ∈ questions_with_answers s) as Hin'
    by (intros q' Hq'; apply Hin; by right).
  specialize (IH (i + 1) Hin'). cbv zeta in IH. cbv zeta.
  cbn [indexed List.filter].
  destruct (scored_subjective (selfScores s) (i, q)) eqn:Hsc; [|exact IH].
  apply andb_true_iff in Hsc as [_ Hpos]. apply Z.ltb_lt in Hpos. cbn [fst snd] in Hpos.
  pose proof (effective_in_percent s i q Hpc (Hin q ltac:(by left))) as Hle.
  rewrite sum_effective_cons. cbn [length fst snd]. lia.
Qed.

(** X16: the average is a percentage.  When every server score and every
    buffered self-score is at most 100, the average shown lies between 0
    and 100. *)
Theorem average_is_a_percentage (s : State) (Hscores : scores_in_percent s) :
  (0 <= averageScore (statistics s) <= 100)%Q.
Proof.
  set (qs := questions_with_answers s).
  destruct (forEach_totals (selfScores s) qs (mkTotals 0 0 0) 0) as (H1 & H2 & _).
  cbn [totalScore scoredQuestions correctAnswers] in H1, H2.
  pose proof (sum_effective_bounds s 0 qs Hscores (fun q Hq => Hq)) as Hsum.
  cbv zeta in Hsum.
  pose proof (filter_length_mono correct_objective is_objective qs) as Hmono.
  assert (length (List.filter correct_objective qs)
          <= length (List.filter is_objective qs))%nat as Hco.
  { apply Hmono. intros q Hq. unfold correct_objective in Hq.
    by apply andb_true_iff in Hq as [? _]. }
  unfold statistics. fold qs. cbn [averageScore].
  destruct (Z.ltb_spec 0 (scoredQuestions (forEach (selfScores s) (mkTotals 0 0 0) 0 qs)))
    as [Hpos|_]; [|done].
  unfold Qle. cbn [Qnum Qden]. rewrite Z2Pos.id by done.
  rewrite H1, H2. lia.
Qed.

Lemma average_is_a_percentage_witness :
  scores_in_percent two_results /\
  (0 <= averageScore (statistics two_results) <= 100)%Q.
Proof.
  assert (scores_in_percent two_results) as Hscores.
  { split.
    - intros q u Hq Hu. simpl in Hq.
      apply elem_of_cons in Hq as [->|Hq]; [discriminate|].
      apply elem_of_cons in Hq as [->|Hq]; [discriminate|].
      by apply elem_of_nil in Hq.
    - intros i v Hv. simpl in Hv.
      apply lookup_singleton_Some in Hv as [_ <-]. lia. }
  split; [exact Hscores|].
  exact (average_is_a_percentage two_results Hscores).
Defined.

(** ** Rating and saving *)

(** X17: a rating is what gets saved.  After any rating the save action
    is never stopped by the empty-buffer check: it sends one request
    whose body holds the new rating for that question, the latest when
    the question was rated more than once, and the earlier ratings of the
    other questions. *)
Theorem rated_scores_are_saved
    (fetch : list QuizResults.Event -> jsstring -> gmap Z Z -> jserror + bool)
    (s : State) (i v : Z) :
  exists body,
    List.filter QuizResults.is_request
      (trace_of (saveScores fetch) (handleScoreChange i v s))
    = [EUpdateScores (submissionId s) body] /\
    body !! i = Some v /\
    (forall j, j <> i -> body !! j = selfScores s !! j) /\
    selfScores (handleScoreChange i v (handleScoreChange i 0 s))
    = selfScores (handleScoreChange i v s).
Proof.
  exists (<[i := v]> (selfScores s)).
  split_and!.
  - unfold trace_of. rewrite saveScores_run.
    rewrite bool_decide_eq_false_2 by (simpl; apply insert_non_empty).
    unfold run, updateScoresMutation, bind, try_catch, await, toast, emit, throw.
    cbv beta iota. simpl.
    by destruct (fetch [] (submissionId s) (<[i:=v]> (selfScores s))) as [e|[]].
  - apply lookup_insert_eq.
  - intros j Hj. by apply lookup_insert_ne.
  - simpl. apply insert_insert_eq.
Qed.

(** X18: saving keeps the buffer.  Whatever the outcome, [saveScores]
    leaves the page state as it was, so saving again sends the same
    score map again and the statistics do not move. *)
Theorem saving_keeps_the_buffer
    (fetch : list QuizResults.Event -> jsstring -> gmap Z Z -> jserror + bool) (s : State) :
  let s' := state_after (saveScores fetch) s in
  s' = s /\
  (forall fetch',
     List.filter QuizResults.is_request (trace_of (saveScores fetch') s') =
     List.filter QuizResults.is_request (trace_of (saveScores fetch) s)) /\
  statistics s' = statistics s.
Proof.
  intros s'.
  assert (forall f, state_after (saveScores f) s = s /\
            List.filter QuizResults.is_request (trace_of (saveScores f) s) =
              if bool_decide (selfScores s = ∅) then []
              else [EUpdateScores (submissionId s) (selfScores s)]) as Hrun.
  { intros f. unfold state_after, trace_of. rewrite saveScores_run.
    case_bool_decide; [done|].
    unfold run, updateScoresMutation, bind, try_catch, await, toast, emit, throw.
    cbv beta iota.
    by destruct (f [] (submissionId s) (selfScores s)) as [e|[]]. }
  assert (s' = s) as -> by (subst s'; apply Hrun).
  split_and!; [done| |done].
  intros fetch'. by rewrite (proj2 (Hrun fetch')), (proj2 (Hrun fetch)).
Qed.

End ResultsReviewProofs.

(* ===================================================================== *)
(** * Properties of the chat context panel and of the history *)
(* ===================================================================== *)

Module ChatPanelProofs.
Import Chat ChatPanel.
#[local] Set Warnings "-clear-no-such-hyp".

Lemma ids_at_key (type : ContentKind) (c : ChatContext) :
  ids_at (key_of type) c = Some (ids_of type c).
Proof. by destruct type. Qed.

Lemma with_ids_key (type : ContentKind) (l : list jsstring) (c : ChatContext) :
  with_ids (key_of type) l c =
    match type with
    | links => mkContext (folder_id c) l (selected_test_ids c) (selected_submission_ids c)
    | tests => mkContext (folder_id c) (selected_link_ids c) l (selected_submission_ids c)
    | submissions => mkContext (folder_id c) (selected_link_ids c) (selected_test_ids c) l
    end.
Proof. by destruct type. Qed.

Lemma elem_of_filter_other (id x : jsstring) (l : list jsstring) :
  x ∈ List.filter (fun existingId => negb (bool_decide (existingId = id))) l
  <-> x ∈ l /\ x <> id.
Proof.
  rewrite !list_elem_of_In, List.filter_In, negb_true_iff.
  by rewrite bool_decide_eq_false.
Qed.

Lemma filter_other_absent (id : jsstring) (l : list jsstring) :
  id ∉ l -> List.filter (fun existingId => negb (bool_decide (existingId = id))) l = l.
Proof.
  induction l as [|x l IH]; [done|]. intros Hid.
  apply not_elem_of_cons in Hid as [Hne Hid]. simpl.
  rewrite bool_decide_eq_false_2 by done. simpl. by rewrite IH.
Qed.

(** X19: ticking a content checkbox.  The computed key always names one of
    the three id lists, so the handler never fails; it changes the list
    of the ticked kind only and leaves the folder alone; afterwards the id
    is in that list exactly when the box is checked; no other id comes or
    goes; and checking an id that was not selected and unchecking it
    again restores the context. *)
Theorem content_selection_edits_one_list
    (type : ContentKind) (id : jsstring) (checked : bool) (prev : ChatContext) :
  exists c,
    handleContentSelection type id checked prev = Some c /\
    folder_id c = folder_id prev /\
    (forall other, other <> type -> ids_of other c = ids_of other prev) /\
    (id ∈ ids_of type c <-> checked = true) /\
    (forall x, x <> id -> (x ∈ ids_of type c <-> x ∈ ids_of type prev)) /\
    (checked = true -> id ∉ ids_of type prev ->
     handleContentSelection type id false c = Some prev).
Proof.
  unfold handleContentSelection. cbv zeta. rewrite ids_at_key.
  eexists. split; [reflexivity|]. rewrite with_ids_key.
  assert (forall l, ids_of type
            match type with
            | links => mkContext (folder_id prev) l (selected_test_ids prev)
                         (selected_submission_ids prev)
            | tests => mkContext (folder_id prev) (selected_link_ids prev) l
                         (selected_submission_ids prev)
            | submissions => mkContext (folder_id prev) (selected_link_ids prev)
                               (selected_test_ids prev) l
            end = l) as Hset by (intros l; by destruct type).
  rewrite Hset.
  split_and!.
  - by destruct type.
  - intros other Hother. by destruct type, other.
  - destruct checked.
    + rewrite elem_of_app, list_elem_of_singleton. tauto.
    + rewrite elem_of_filter_other. split; [tauto|done].
  - intros x Hx. destruct checked.
    + rewrite elem_of_app, list_elem_of_singleton. tauto.
    + rewrite elem_of_filter_other. tauto.
  - intros -> Hfresh. rewrite ids_at_key, with_ids_key, Hset.
    rewrite List.filter_app, (filter_other_absent _ _ Hfresh). simpl.
    rewrite bool_decide_eq_true_2 by done. simpl. rewrite app_nil_r.
    f_equal. by destruct type, prev.
Qed.

(** X20: choosing a folder.  In both chat components a folder change
    empties the three selections.  The widget always records the chosen
    value as the folder of the context.  The page does the same except for
    the entry of general assistance, for which the context has no folder
    key at all, the selected folder is the empty string and the loaded
    folder content is dropped. *)
Theorem folder_change_resets_selection {FC : Type} (folderId : jsstring) (p : Panel FC) :
  let page := Page.handleFolderChange folderId p in
  let widget := FAB.handleFolderChange folderId p in
  (forall type, ids_of type (context page) = [] /\ ids_of type (context widget) = []) /\
  folder_id (context widget) = Some folderId /\
  selectedFolder widget = folderId /\
  folderContent widget = folderContent p /\
  (if bool_decide (folderId = lit "none")
   then folder_id (context page) = None /\ selectedFolder page = [] /\
        folderContent page = None /\ Object_keys_length (context page) = 3%nat
   else page = widget).
Proof.
  intros page widget. subst page widget.
  unfold Page.handleFolderChange, FAB.handleFolderChange.
  case_bool_decide; split_and!; try done; intros []; done.
Qed.

Lemma flatMap_objects (toISOString : nat -> jsstring)
    (l : list (option HistoryEntry)) (reads k : nat) :
  Forall is_Some l ->
  exists ms,
    flatMap toISOString reads k l = inr ms /\
    length ms = (2 * length l)%nat /\
    forall i entry, l !! i = Some (Some entry) ->
      exists reads',
        ms !! (2 * i)%nat = (format_entry toISOString reads' entry (k + i)).1 !! 0%nat /\
        ms !! (2 * i + 1)%nat = (format_entry toISOString reads' entry (k + i)).1 !! 1%nat.
Proof.
  revert reads k. induction l as [|[e|] l IH]; intros reads k Hobj.
  - exists []. split_and!; [done|done|]. intros i entry Hi. done.
  - apply Forall_cons in Hobj as [_ Hobj].
    cbn [flatMap]. destruct (format_entry toISOString reads e k) as [two reads'] eqn:Htwo.
    destruct (IH reads' (S k) Hobj) as (ms & -> & Hlen & Hlook).
    exists (two ++ ms).
    assert (two = (format_entry toISOString reads e k).1) as Htwo' by by rewrite Htwo.
    assert (length two = 2%nat) as Hlen2 by by rewrite Htwo'.
    split_and!; [done|rewrite length_app; simpl; lia|].
    intros [|i] entry Hi.
    + injection Hi as ->. exists reads. rewrite Nat.add_0_r, Htwo'. done.
    + destruct (Hlook i entry Hi) as (r' & Hu & Ha). exists r'.
      replace (k + S i)%nat with (S k + i)%nat by lia.
      rewrite !lookup_app_r by lia. rewrite Hlen2.
      replace (2 * S i - 2)%nat with (2 * i)%nat by lia.
      replace (2 * S i + 1 - 2)%nat with (2 * i + 1)%nat by lia.
      done.
  - apply Forall_cons in Hobj as [[? [=]] _].
Qed.

Lemma flatMap_null (toISOString : nat -> jsstring)
    (l : list (option HistoryEntry)) (reads k : nat) :
  ~ Forall is_Some l -> flatMap toISOString reads k l = inl (TypeError_reading "user").
Proof.
  revert reads k. induction l as [|[e|] l IH]; intros reads k Hnull.
  - destruct Hnull. constructor.
  - cbn [flatMap]. destruct (format_entry toISOString reads e k) as [two reads'].
    rewrite IH; [done|]. intros Hl. apply Hnull. by constructor.
  - done.
Qed.


End ChatPanelProofs.

(* ===================================================================== *)
(** * Properties of the session id *)
(* ===================================================================== *)

Module SessionProofs.
Import Session.

Lemma prefixed_truthy (p : string) (rest : jsstring) :
  truthy_str (lit p) = true -> truthy_str (lit p ++ rest) = true.
Proof. by destruct (lit p). Qed.

Ltac run_session :=
  unfold value_of, state_after, trace_of, run, getOrCreateSessionId, clearSession,
    getCurrentSessionId, getItem, setItem, removeItem,
    bind, get, modify, emit, try_catch, ret, throw;
  cbv beta iota.

Ltac settle_session :=
  repeat (progress
    (cbv beta iota; cbn [accessible full item negb fst snd];
     rewrite ?(prefixed_truthy "session_" _ eq_refl);
     repeat match goal with H : truthy_str _ = _ |- _ => rewrite H end)).

(** X22: a session id is always returned.  Whatever the state of the
    storage, [getOrCreateSessionId] returns an id and never fails; the id
    is never the empty string; the storage is left as it was or holds
    exactly the returned id; and a warning is logged exactly when the id
    is a temporary one that was not stored. *)
Theorem session_id_always_returned (fresh temporary : Draw) (st : Storage) :
  let st' := state_after (getOrCreateSessionId fresh temporary) st in
  let tr := trace_of (getOrCreateSessionId fresh temporary) st in
  exists id,
    value_of (getOrCreateSessionId fresh temporary) st = Some id /\
    truthy_str id = true /\
    accessible st' = accessible st /\ full st' = full st /\
    (tr = [] /\ accessible st = true /\ item st' = Some id
     \/ (exists w, tr = [EWarn w None]) /\ st' = st /\
        id = lit "temp_session_" ++ String_of_N (Date_now temporary) ++ lit "_"
             ++ Math_random_36 temporary).
Proof.
  intros st' tr. subst st' tr. destruct st as [acc fl it].
  run_session. cbn [accessible full item].
  destruct acc; cbv beta iota; cbn [negb accessible full item];
    [|eexists; split_and!; [reflexivity|by apply prefixed_truthy|done|done|right; eauto]].
  destruct it as [id|]; [destruct (truthy_str id) eqn:Hid|]; cbv beta iota;
    [eexists; split_and!; [reflexivity|done|done|done|left; done]| |];
    (destruct fl; cbv beta iota; cbn [negb accessible full item];
     eexists; (split_and!; [reflexivity|by apply prefixed_truthy|done|done|]);
     [right; eauto|left; done]).
Qed.

(** X23: the session id is stable.  With a storage that can be reached
    and written, a second call returns the id of the first call, whatever
    the clock and the random source give, and stores nothing new;
    [getCurrentSessionId] then gives that id, and nothing after
    [clearSession]. *)
Theorem session_id_is_stable (fresh temporary fresh' temporary' : Draw) (st : Storage)
    (Hreach : accessible st = true) (Hroom : full st = false) :
  let st' := state_after (getOrCreateSessionId fresh temporary) st in
  exists id,
    value_of (getOrCreateSessionId fresh temporary) st = Some id /\
    value_of (getOrCreateSessionId fresh' temporary') st' = Some id /\
    state_after (getOrCreateSessionId fresh' temporary') st' = st' /\
    trace_of (getOrCreateSessionId fresh' temporary') st' = [] /\
    value_of getCurrentSessionId st' = Some (Some id) /\
    value_of getCurrentSessionId (state_after clearSession st') = Some None.
Proof.
  intros st'. subst st'. destruct st as [acc fl it]. simpl in Hreach, Hroom. subst acc fl.
  destruct it as [id|]; [destruct (truthy_str id) eqn:Hid|].
  - exists id. run_session. by settle_session.
  - eexists. run_session. by settle_session.
  - eexists. run_session. by settle_session.
Qed.

Lemma session_id_is_stable_witness :
  accessible empty_storage = true /\ full empty_storage = false /\
  exists id,
    value_of (getOrCreateSessionId (mkDraw 1700000000000 (lit "k3j2h1g0f"))
                                   (mkDraw 1700000000001 (lit "zzzzzzzzz")))
             empty_storage = Some id /\
    value_of (getOrCreateSessionId (mkDraw 1700000099999 (lit "abcdefghi"))
                                   (mkDraw 1700000100000 (lit "yyyyyyyyy")))
             (state_after
                (getOrCreateSessionId (mkDraw 1700000000000 (lit "k3j2h1g0f"))
                                      (mkDraw 1700000000001 (lit "zzzzzzzzz")))
                empty_storage) = Some id.
Proof.
  split; [reflexivity|]. split; [reflexivity|].
  destruct (session_id_is_stable
              (mkDraw 1700000000000 (lit "k3j2h1g0f"))
              (mkDraw 1700000000001 (lit "zzzzzzzzz"))
              (mkDraw 1700000099999 (lit "abcdefghi"))
              (mkDraw 1700000100000 (lit "yyyyyyyyy"))
              empty_storage eq_refl eq_refl) as (id & H1 & H2 & _).
  exists id. split; [exact H1|exact H2].
Defined.

End SessionProofs.

(* ===================================================================== *)
(** * Properties of the API client's errors *)
(* ===================================================================== *)

Module ApiErrorsProofs.
Import ApiErrors.

(** X24: the normalised error always has a message.  The message of the
    object that the response interceptor rejects with is never a falsy
    value: it is the server's [detail] when that is usable, else the
    server's [message], else the message of the transport error, else the
    fixed text; status and data are those of the response, and undefined
    when there is no response. *)
Theorem normalized_message_is_never_blank (err : AxiosError) :
  let n := normalizedError err in
  truthy (n_message n) = true /\
  (truthy (data_field detail err) = true -> n_message n = data_field detail err) /\
  (truthy (data_field detail err) = false ->
   truthy (data_field data_message err) = true ->
   n_message n = data_field data_message err) /\
  (truthy (data_field detail err) = false ->
   truthy (data_field data_message err) = false ->
   n_message n = or_else (err_message err) (VStr (lit "An unknown error occurred"))) /\
  (response err = None ->
   n_status n = VUndefined /\ n_data n = None /\
   n_message n = or_else (err_message err) (VStr (lit "An unknown error occurred"))).
Proof.
  intros n. subst n. unfold normalizedError. cbn [n_message n_status n_data].
  split_and!.
  - unfold or_else.
    destruct (truthy (data_field detail err)) eqn:H1; rewrite ?H1; [done|].
    destruct (truthy (data_field data_message err)) eqn:H2; rewrite ?H2; [done|].
    destruct (truthy (err_message err)) eqn:H3; rewrite ?H3; done.
  - intros H1. unfold or_else. by rewrite !H1.
  - intros H1 H2. unfold or_else. by rewrite H1, !H2.
  - intros H1 H2. unfold or_else at 2 3. by rewrite H1, H2.
  - intros Hnone. unfold data_field, response_data. rewrite Hnone. done.
Qed.

End ApiErrorsProofs.

(* ===================================================================== *)
(** * Properties of the chatbot hook *)
(* ===================================================================== *)

Module ChatbotHookProofs.
Import ChatbotHook.

Lemma run_keeps_given (acts : list Action) (h : Hook) :
  Forall (fun captured => captured = true) (pending h) ->
  closes_when_open h acts ->
  initialContext (run h acts) = last_given acts (initialContext h).
Proof.
  revert h. induction acts as [|a acts IH]; intros h Hpending Hui; [done|].
  destruct Hui as [Ha Hui]. unfold run. cbn [foldl]. fold (run (step h a) acts).
  rewrite (IH _); [| |exact Hui].
  - destruct a as [[c|]| |c|]; cbn [last_given step]; try done.
    destruct (pending h) as [|captured rest] eqn:Hp; [done|].
    apply Forall_cons in Hpending as [-> _]. done.
  - destruct a as [[c|]| |c|]; cbn [step]; try done.
    + cbn [closeChatbot pending]. apply Forall_app. split; [done|].
      by apply Forall_singleton.
    + destruct (pending h) as [|captured rest] eqn:Hp; [by rewrite Hp|].
      apply Forall_cons in Hpending as [-> Hrest]. done.
Qed.

(** X25: closing never clears the context.  As long as the chatbot is
    closed only while it is open, which is when its close button exists,
    no time-out ever clears the initial context: after any sequence of
    openings, closings, context updates and time-outs the context is the
    one handed over last. *)
Theorem closing_never_clears_context (acts : list Action)
    (Hui : closes_when_open initial acts) :
  initialContext (run initial acts) = last_given acts None.
Proof. by apply (run_keeps_given acts initial). Qed.

Lemma closing_never_clears_context_witness :
  closes_when_open initial [Open (Some (folder_context "f1")); Close; TimerFires] /\
  initialContext (run initial [Open (Some (folder_context "f1")); Close; TimerFires])
  = Some (folder_context "f1").
Proof.
  assert (closes_when_open initial
            [Open (Some (folder_context "f1")); Close; TimerFires]) as Hui
    by (simpl; tauto).
  split; [exact Hui|].
  exact (closing_never_clears_context _ Hui).
Defined.

End ChatbotHookProofs.

(* ===================================================================== *)
(** * Properties of the folder page *)
(* ===================================================================== *)

Module FolderDetailsProofs.
Import FolderDetails.
#[local] Set Warnings "-clear-no-such-hyp".

Lemma elem_of_filter_ne (id x : jsstring) (l : list jsstring) :
  x ∈ List.filter (fun y => negb (bool_decide (y = id))) l <-> x ∈ l /\ x <> id.
Proof.
  rewrite !list_elem_of_In, List.filter_In, negb_true_iff.
  by rewrite bool_decide_eq_false.
Qed.

Lemma filter_ne_absent (id : jsstring) (l : list jsstring) :
  id ∉ l -> List.filter (fun y => negb (bool_decide (y = id))) l = l.
Proof.
  induction l as [|x l IH]; [done|]. intros Hid.
  apply not_elem_of_cons in Hid as [Hne Hid]. simpl.
  rewrite bool_decide_eq_false_2 by done. simpl. by rewrite IH.
Qed.

Lemma filter_NoDup {A} (P : A -> bool) (l : list A) : NoDup l -> NoDup (List.filter P l).
Proof.
  induction 1 as [|x l Hx Hl IH]; simpl; [constructor|].
  destruct (P x); [|done]. constructor; [|done].
  rewrite list_elem_of_In, List.filter_In, <- list_elem_of_In. tauto.
Qed.

(** X26: selecting content.  [toggle] flips whether its id is selected
    and changes no other id; a selection without duplicates stays without
    duplicates; selecting an id and toggling it again restores the
    selection; and the select-all mark is not touched, so it can claim
    that everything is selected when that is no longer so. *)
Theorem toggle_flips_one_id (id : jsstring) (s : State) :
  (id ∈ selected (toggle id s) <-> id ∉ selected s) /\
  (forall x, x <> id -> (x ∈ selected (toggle id s) <-> x ∈ selected s)) /\
  (NoDup (selected s) -> NoDup (selected (toggle id s))) /\
  (id ∉ selected s -> toggle id (toggle id s) = s) /\
  selectAll (toggle id s) = selectAll s.
Proof.
  destruct s as [sel all modal name num diff q tt].
  unfold toggle, setSelected, Array_includes. cbn [selected selectAll].
  case_bool_decide as Hin.
  - split_and!; try done.
    + rewrite elem_of_filter_ne. tauto.
    + intros x Hx. rewrite elem_of_filter_ne. tauto.
    + apply filter_NoDup.
  - split_and!; try done.
    + rewrite elem_of_app, list_elem_of_singleton. tauto.
    + intros x Hx. rewrite elem_of_app, list_elem_of_singleton. tauto.
    + intros Hnd. apply NoDup_app. split_and!; [done| |apply NoDup_singleton].
      intros x Hx ->%list_elem_of_singleton. done.
    + intros _. cbn [selected selectAll showGenModal quizName numQuestions
                       difficulty qTypes testType].
      rewrite bool_decide_eq_true_2
        by (rewrite elem_of_app, list_elem_of_singleton; tauto).
      rewrite List.filter_app, (filter_ne_absent _ _ Hin). simpl.
      rewrite bool_decide_eq_true_2 by done. simpl. by rewrite app_nil_r.
Qed.

Lemma ticked_types (q : QTypes) :
  map (fun kv : jsstring * bool => backend_name kv.1)
      (List.filter (fun kv : jsstring * bool => kv.2) (Object_entries q))
  = (if mcq q then [lit "mcq"] else []) ++ (if tf q then [lit "true_false"] else []) ++
    (if short q then [lit "short_answer"] else []) ++
    (if long q then [lit "long_answer"] else []).
Proof. destruct q as [[] [] [] []]; by vm_compute. Qed.

(** X27: the select-all mark can go stale.  After everything was
    selected with the select-all box, unticking one link leaves the mark
    set although that link is no longer selected; the next use of the box
    then clears the whole selection instead of completing it. *)
Theorem select_all_mark_goes_stale (ids : list jsstring) (x : jsstring) (s : State)
    (Hunmarked : selectAll s = false) (Hx : x ∈ ids) :
  let s1 := onSelectAll (Some ids) s s in
  let s2 := toggle x s1 in
  let s3 := onSelectAll (Some ids) s2 s2 in
  selected s1 = ids /\ selectAll s1 = true /\
  (x ∉ selected s2) /\ selectAll s2 = true /\
  selected s3 = [] /\ selectAll s3 = false.
Proof.
  destruct ids as [|y ids]; [by apply elem_of_nil in Hx|].
  destruct s as [sel all modal name num diff q tt]. simpl in Hunmarked. subst all.
  cbv zeta. unfold onSelectAll at 2 3. cbn [selectAll setSelectAll setSelected selected].
  unfold toggle, setSelected, Array_includes. cbn [selected selectAll].
  rewrite bool_decide_eq_true_2 by done.
  unfold onSelectAll. cbn [selectAll setSelectAll setSelected selected].
  split_and!; try done.
  rewrite elem_of_filter_ne. tauto.
Qed.

Lemma select_all_mark_goes_stale_witness :
  selectAll initial = false /\ lit "l1" ∈ [lit "l1"; lit "l2"] /\
  selected (onSelectAll (Some [lit "l1"; lit "l2"])
              (toggle (lit "l1") (onSelectAll (Some [lit "l1"; lit "l2"]) initial initial))
              (toggle (lit "l1") (onSelectAll (Some [lit "l1"; lit "l2"]) initial initial)))
  = [].
Proof.
  assert (lit "l1" ∈ [lit "l1"; lit "l2"]) as Hx by apply list_elem_of_here.
  split; [reflexivity|]. split; [exact Hx|].
  exact (proj1 (proj2 (proj2 (proj2 (proj2
           (select_all_mark_goes_stale [lit "l1"; lit "l2"] (lit "l1") initial
              eq_refl Hx)))))).
Defined.

(** X28: the generation request of the folder page.  [submitGen] changes
    no state.  With no question type ticked it shows an error and sends
    nothing.  Otherwise it sends one request: a comprehensive test goes to
    the comprehensive endpoint with an empty list of links, a normal test
    to the folder endpoint with the selected links; the question types are
    the ticked ones under their backend names, without duplicates; and an
    empty quiz name is sent as no name. *)
Theorem folder_generation_request (s : State) :
  let tr := trace_of submitGen s in
  state_after submitGen s = s /\
  if negb (mcq (qTypes s) || tf (qTypes s) || short (qTypes s) || long (qTypes s))
  then List.filter is_request tr = [] /\
       exists t, tr = [EToast t] /\ destructive t = true
  else exists p,
    tr = [EGenerate (match testType s with
                     | comprehensive => generate_comprehensive_test
                     | normal => generate_test
                     end) p] /\
    link_ids p = (match testType s with comprehensive => [] | normal => selected s end) /\
    test_type p = testType s /\
    question_types p <> [] /\
    Forall (fun t => t ∈ vocabulary) (question_types p) /\
    NoDup (question_types p) /\
    (lit "true_false" ∈ question_types p <-> tf (qTypes s) = true) /\
    (test_name p = None <-> quizName s = []).
Proof.
  intros tr. subst tr.
  destruct s as [sel all modal name num diff [m t sh lg] ty].
  unfold trace_of, state_after, run, submitGen, mutationFn, toast, bind, get, emit.
  cbv beta iota zeta.
  cbn [qTypes testType selected quizName numQuestions difficulty].
  rewrite !ticked_types. cbn [mcq tf short long].
  destruct m, t, sh, lg, ty; cbn [app length Nat.eqb orb negb];
    cbv beta iota; cbn [test_type fst snd app];
    try (split; [done|split; [done|eexists; split; [reflexivity|done]]]);
    (split; [done|]);
    (eexists; split; [reflexivity|]);
    cbn [link_ids test_type question_types test_name];
    (split_and!;
     [done|done|done
     |unfold vocabulary; repeat (apply Forall_cons; split; [set_solver|]);
        apply Forall_nil
     |compute_done
     |first [ by (split; [done|intros _; set_solver])
            | split; [|done]; compute_done ]
     |destruct name; simpl; split; done]);
    exact I.
Qed.

End FolderDetailsProofs.
